(** * Provisioning platform: manifest validation, job signing and the
      agent's job execution, embedded from [panel/app.py] and
      [agent/daemon.py].

    Python values are represented as follows.
    - [str] is [string]; the model follows Python on ASCII text (code
      points below 128), which is what manifests, input names and the
      hexadecimal signatures are made of.  White space and digits beyond
      ASCII, which [int()] and [float()] also read, are outside it.
    - a [dict] whose iteration order the code depends on is an association
      list in insertion order ([Dict.set] keeps the position of a key that
      is already present); the process environment is a [gmap].
    - an exception is a value of [exn]; code that may raise returns
      [exn + A] or runs in the small state-and-exception monad [M]. *)

From Stdlib Require Import ZArith String Ascii List Bool Lia.
From stdpp Require Import base option list strings gmap pretty sorting.

Local Open Scope string_scope.
Local Open Scope list_scope.
Local Open Scope Z_scope.

(* ===================================================================== *)
(** ** Python built-ins used by the validators *)
(* ===================================================================== *)

Module Py.

(** Exceptions, by class, with their message ([str(e)]). *)
Inductive exn : Type :=
  | KeyError (msg : string)
  | TypeError (msg : string)
  | ValueError (msg : string)
  | AttributeError (msg : string)
  | OSError (msg : string)
  | YAMLError (msg : string)
  | TimeoutExpired (msg : string).

Definition exn_str (e : exn) : string :=
  match e with
  | KeyError m => "'" +:+ m +:+ "'"
  | TypeError m | ValueError m | AttributeError m
  | OSError m | YAMLError m | TimeoutExpired m => m
  end.

(** [Py_ISSPACE]: the characters [int()] and [float()] strip. *)
Definition isspace (c : ascii) : bool :=
  match c with
  | "009" | "010" | "011" | "012" | "013" | " " => true
  | _ => false
  end%char.

Fixpoint lstrip (s : string) : string :=
  match s with
  | String c s' => if isspace c then lstrip s' else s
  | EmptyString => EmptyString
  end.

Definition strip (s : string) : string :=
  String.rev (lstrip (String.rev (lstrip s))).

(** The value of a decimal digit, [0] to [9]. *)
Definition digit (c : ascii) : option Z :=
  let n := Z.of_N (N_of_ascii c) in
  if (48 <=? n) && (n <=? 57) then Some (n - 48) else None.

(** [digit (["_"] digit)*]: the digit groups of an [int] or [float]
    literal.  Returns the value read, the number of digits and the rest
    of the string; [None] when the string does not start with a digit.
    [after_us] is set right after an underscore, where a digit must
    follow. *)
Fixpoint digitpart_go (s : string) (acc : Z) (n : Z) (seen after_us : bool)
  : option (Z * Z * string) :=
  match s with
  | String c s' =>
      match digit c with
      | Some d => digitpart_go s' (10 * acc + d) (n + 1) true false
      | None =>
          if after_us then None
          else if seen && Ascii.eqb c "_" then digitpart_go s' acc n true true
          else if seen then Some (acc, n, s) else None
      end
  | EmptyString => if seen && negb after_us then Some (acc, n, s) else None
  end.

Definition digitpart (s : string) : option (Z * Z * string) :=
  digitpart_go s 0 0 false false.

(** An optional sign; [true] stands for [-]. *)
Definition opt_sign (s : string) : bool * string :=
  match s with
  | String "+" s' => (false, s')
  | String "-" s' => (true, s')
  | _ => (false, s)
  end.

(** [sys.get_int_max_str_digits()], as the interpreter starts. *)
Definition int_max_str_digits : Z := 4300.

(** [int(value)] on a [str], base 10: [None] is [ValueError], which a
    literal of more than [int_max_str_digits] digits raises too. *)
Definition int (value : string) : option Z :=
  let '(neg, body) := opt_sign (strip value) in
  match digitpart body with
  | Some (v, n, EmptyString) =>
      if n <=? int_max_str_digits then Some (if neg then - v else v)
      else None
  | _ => None
  end.

Definition lower_char (c : ascii) : ascii :=
  let n := N_of_ascii c in
  if ((65 <=? n) && (n <=? 90))%N then ascii_of_N (n + 32) else c.

Definition upper_char (c : ascii) : ascii :=
  let n := N_of_ascii c in
  if ((97 <=? n) && (n <=? 122))%N then ascii_of_N (n - 32) else c.

Fixpoint map_string (f : ascii -> ascii) (s : string) : string :=
  match s with
  | String c s' => String (f c) (map_string f s')
  | EmptyString => EmptyString
  end.

(** [str.lower()] and [str.upper()]. *)
Definition lower : string -> string := map_string lower_char.
Definition upper : string -> string := map_string upper_char.

(** [len(value)]. *)
Definition len (s : string) : Z := Z.of_nat (String.length s).

(** [x in xs] for a list of strings. *)
Definition str_in (x : string) (xs : list string) : bool :=
  existsb (String.eqb x) xs.

(** [sep.join(xs)]. *)
Definition join (sep : string) (xs : list string) : string :=
  String.concat sep xs.

(** [needle in haystack] for two strings. *)
Fixpoint substring_of (needle hay : string) : bool :=
  String.prefix needle hay ||
  match hay with
  | String _ hay' => substring_of needle hay'
  | EmptyString => false
  end.

(** *** [pathlib.PurePosixPath]

    [a / b] is [b] alone when [b] starts with a slash.  The text of a
    path has its empty and [.] components dropped and one slash between
    the components that are left; of the slashes in front it keeps one,
    or two when there are exactly two. *)
Fixpoint split_slash (s cur : string) : list string :=
  match s with
  | String c s' =>
      if Ascii.eqb c "/" then cur :: split_slash s' EmptyString
      else split_slash s' (cur +:+ String c EmptyString)
  | EmptyString => [cur]
  end.

Definition path_root (s : string) : string :=
  match s with
  | String "/" (String "/" (String "/" _)) => "/"
  | String "/" (String "/" _) => "//"
  | String "/" _ => "/"
  | _ => ""
  end.

Definition path_parts (s : string) : list string :=
  List.filter (fun x => negb (String.eqb x "") && negb (String.eqb x "."))
    (split_slash s EmptyString).

Definition ends_with_slash (s : string) : bool :=
  match String.rev s with
  | String "/" _ => true
  | _ => false
  end.

(** [posixpath.join(a, b)]. *)
Definition path_join (a b : string) : string :=
  if String.prefix "/" b then b
  else if String.eqb a "" || ends_with_slash a then a +:+ b
  else a +:+ "/" +:+ b.

(** [str(PurePosixPath(s))]. *)
Definition path_str (s : string) : string :=
  match path_root s, path_parts s with
  | EmptyString, [] => "."
  | root, parts => root +:+ join "/" parts
  end.

(** *** [float(value)]

    A Python float is an IEEE binary64 number; a finite one is kept as
    the exact dyadic [(-1)^neg * m * 2^e] it denotes, so that the
    comparison with an integer bound is the exact comparison Python
    makes. *)
Inductive pyfloat : Type :=
  | Finite (neg : bool) (m : Z) (e : Z)
  | Inf (neg : bool)
  | NaN.

(** [floor (n / (d * 2^e))]. *)
Definition scaled_quot (n d e : Z) : Z * Z * Z :=
  if 0 <=? e then (n / (d * 2 ^ e), n mod (d * 2 ^ e), d * 2 ^ e)
  else ((n * 2 ^ (- e)) / d, (n * 2 ^ (- e)) mod d, d).

(** Round the positive rational [n / d] to the nearest binary64, ties
    to even. *)
Definition round_binary64 (neg : bool) (n d : Z) : pyfloat :=
  if n =? 0 then Finite neg 0 0 else
  let L := Z.log2 n - Z.log2 d in
  let e0 := if 2 ^ 52 <=? fst (fst (scaled_quot n d (L - 52)))
            then L - 52 else L - 53 in
  let e := Z.max e0 (-1074) in
  let '(q, r, den) := scaled_quot n d e in
  let q' := if (den <? 2 * r) || ((den =? 2 * r) && Z.odd q)
            then q + 1 else q in
  if 2 ^ 1024 <=? q' * 2 ^ (Z.max e 0) then Inf neg else Finite neg q' e.

(** The value of [mantissa * 10^exp10]. *)
Definition of_decimal (neg : bool) (mantissa exp10 : Z) : pyfloat :=
  if 0 <=? exp10 then round_binary64 neg (mantissa * 10 ^ exp10) 1
  else round_binary64 neg mantissa (10 ^ (- exp10)).

(** The exponent part [("e"|"E") [sign] digitpart] and the end of the
    literal. *)
Definition exponent (s : string) : option Z :=
  match s with
  | EmptyString => Some 0
  | String c s' =>
      if Ascii.eqb c "e" || Ascii.eqb c "E" then
        let '(neg, body) := opt_sign s' in
        match digitpart body with
        | Some (v, _, EmptyString) => Some (if neg then - v else v)
        | _ => None
        end
      else None
  end.

Definition decimal (neg : bool) (s : string) : option pyfloat :=
  match digitpart s with
  | Some (ip, _, String "." rest) =>
      match digitpart rest with
      | Some (fp, k, rest') =>
          x ← exponent rest';
          Some (of_decimal neg (ip * 10 ^ k + fp) (x - k))
      | None => x ← exponent rest; Some (of_decimal neg ip x)
      end
  | Some (ip, _, rest) => x ← exponent rest; Some (of_decimal neg ip x)
  | None =>
      match s with
      | String "." rest =>
          match digitpart rest with
          | Some (fp, k, rest') =>
              x ← exponent rest'; Some (of_decimal neg fp (x - k))
          | None => None
          end
      | _ => None
      end
  end.

(** [float(value)] on a [str]: [None] is [ValueError]. *)
Definition float (value : string) : option pyfloat :=
  let '(neg, body) := opt_sign (strip value) in
  let l := lower body in
  if String.eqb l "inf" || String.eqb l "infinity" then Some (Inf neg)
  else if String.eqb l "nan" then Some NaN
  else decimal neg body.

(** [x < b] and [x > b] for a float [x] and an integer [b]. *)
Definition float_lt (x : pyfloat) (b : Z) : bool :=
  match x with
  | Finite neg m e =>
      let v := if neg then - m else m in
      if 0 <=? e then v * 2 ^ e <? b else v <? b * 2 ^ (- e)
  | Inf neg => neg
  | NaN => false
  end.

Definition float_gt (x : pyfloat) (b : Z) : bool :=
  match x with
  | Finite neg m e =>
      let v := if neg then - m else m in
      if 0 <=? e then b <? v * 2 ^ e else b * 2 ^ (- e) <? v
  | Inf neg => negb neg
  | NaN => false
  end.

End Py.

(* ===================================================================== *)
(** ** Regular expressions ([re.match]) *)
(* ===================================================================== *)

Module Re.

(** A compiled pattern.  [Class neg ranges] is a bracket expression
    ([[a-z0-9]], negated when [neg]); [Bol] and [Eol] are the anchors
    [^] and [$]. *)
Inductive regex : Type :=
  | Eps
  | Chr (c : ascii)
  | Class (neg : bool) (ranges : list (ascii * ascii))
  | Seq (r1 r2 : regex)
  | Alt (r1 r2 : regex)
  | Star (r : regex)
  | Bol
  | Eol.

Definition in_range (c : ascii) (rg : ascii * ascii) : bool :=
  ((N_of_ascii (fst rg) <=? N_of_ascii c) &&
   (N_of_ascii c <=? N_of_ascii (snd rg)))%N.

Definition in_class (neg : bool) (ranges : list (ascii * ascii)) (c : ascii)
  : bool :=
  xorb neg (existsb (in_range c) ranges).

(** [r+] and [r{2,}]. *)
Definition Plus (r : regex) : regex := Seq r (Star r).
Definition AtLeast2 (r : regex) : regex := Seq r (Seq r (Star r)).

(** Backtracking matcher in continuation-passing style: [go total r s k]
    tries every way to match [r] at the front of [s] and hands the rest
    to [k].  [total] is the length of the whole subject, which tells
    [^] whether it stands at the start.  An iteration of [*] that
    consumes nothing is cut, as in [re]. *)
Fixpoint go (total : nat) (r : regex) (s : string) (k : string -> bool)
  : bool :=
  match r with
  | Eps => k s
  | Chr c =>
      match s with
      | String c' s' => Ascii.eqb c c' && k s'
      | EmptyString => false
      end
  | Class neg ranges =>
      match s with
      | String c' s' => in_class neg ranges c' && k s'
      | EmptyString => false
      end
  | Seq r1 r2 => go total r1 s (fun s' => go total r2 s' k)
  | Alt r1 r2 => go total r1 s k || go total r2 s k
  | Star r1 =>
      (fix star (fuel : nat) (s : string) {struct fuel} : bool :=
         match fuel with
         | O => k s
         | S fuel' =>
             go total r1 s (fun s' =>
               (String.length s' <? String.length s)%nat && star fuel' s')
             || k s
         end) (String.length s) s
  | Bol => (String.length s =? total)%nat && k s
  | Eol =>
      match s with
      | EmptyString => k s
      | String "010" EmptyString => k s
      | _ => false
      end
  end.

(** [re.match(pattern, value)] is not [None]. *)
Definition match_ (pattern : regex) (value : string) : bool :=
  go (String.length value) pattern value (fun _ => true).

End Re.

(* ===================================================================== *)
(** ** Dictionaries in insertion order *)
(* ===================================================================== *)

Module Dict.

Definition dict (V : Type) : Type := list (string * V).

(** [d.get(k)]. *)
Fixpoint get {V : Type} (d : dict V) (k : string) : option V :=
  match d with
  | (k', v) :: d' => if String.eqb k k' then Some v else get d' k
  | [] => None
  end.

(** [k in d]. *)
Definition contains {V : Type} (d : dict V) (k : string) : bool :=
  match get d k with Some _ => true | None => false end.

(** [d[k] = v]: a key already present keeps its position. *)
Fixpoint set {V : Type} (k : string) (v : V) (d : dict V) : dict V :=
  match d with
  | (k', v') :: d' =>
      if String.eqb k k' then (k', v) :: d' else (k', v') :: set k v d'
  | [] => [(k, v)]
  end.

(** [{key(x): val(x) for x in xs}]. *)
Definition comprehension {A V : Type} (key : A -> string) (val : A -> V)
    (xs : list A) : dict V :=
  fold_left (fun d x => set (key x) (val x) d) xs [].

(** [{k: v for k, v in d.items() if k != key}]. *)
Definition without {V : Type} (key : string) (d : dict V) : dict V :=
  List.filter (fun kv => negb (String.eqb (fst kv) key)) d.

Definition keys {V : Type} (d : dict V) : list string := map fst d.

End Dict.

(* ===================================================================== *)
(** ** The manifest schema ([shared/schema.py]) *)
(* ===================================================================== *)

Module Schema.

(** [InputField.type]. *)
Inductive FieldType : Type :=
  | TString | TInteger | TBoolean | TPassword | TSelect | TEmail | TPort.

(** [InputValidation]: a rule is present when its key is in the
    [validation] mapping.  Numeric bounds are the integers the manifests
    write ([min_value: 1]). *)
Record InputValidation : Type := {
  pattern : option Re.regex;
  min_length : option Z;
  max_length : option Z;
  min_value : option Z;
  max_value : option Z;
  allowed_values : option (list string)
}.

(** The empty mapping [{}]. *)
Definition no_validation : InputValidation :=
  {| pattern := None; min_length := None; max_length := None;
     min_value := None; max_value := None; allowed_values := None |}.

(** [InputField]; [required], [validation] and [visible_if] are [None]
    when the manifest leaves the key out. *)
Record InputField : Type := {
  name : string;
  type : FieldType;
  label : string;
  required : option bool;
  default : option string;
  validation : option InputValidation;
  visible_if : option (Dict.dict string)
}.

(** The part of [AppManifest] that the validators and the executor
    read. *)
Record Manifest : Type := {
  id : string;
  inputs : option (list InputField);
  install_script : option string;
  timeout_seconds : option Z
}.

(** [field.get('required', True)]. *)
Definition get_required (field : InputField) : bool :=
  match required field with Some b => b | None => true end.

(** [field.get('validation', {})]. *)
Definition get_validation (field : InputField) : InputValidation :=
  match validation field with Some v => v | None => no_validation end.

(** [manifest.get('inputs', [])]. *)
Definition get_inputs (manifest : Manifest) : list InputField :=
  match inputs manifest with Some l => l | None => [] end.

End Schema.

(** Early return: [check e ;; k] returns the error [e] reports, and goes on
    with [k] when there is none. *)
Definition or_else {E : Type} (e k : option E) : option E :=
  match e with Some err => Some err | None => k end.
Notation "e ;;; k" := (or_else e k) (at level 68, right associativity).

(* ===================================================================== *)
(** ** [hashlib.sha256] and [hmac] *)
(* ===================================================================== *)

Module Bytes.

(** [bytes]: a list of numbers in [0, 255]. *)
Definition bytes : Type := list Z.

(** [str.encode()]: UTF-8, one byte per character on ASCII text. *)
Definition encode (s : string) : bytes :=
  map (fun c => Z.of_N (N_of_ascii c)) (list_ascii_of_string s).

Definition hex_digit (n : Z) : ascii :=
  if n <? 10 then ascii_of_N (Z.to_N (48 + n))
  else ascii_of_N (Z.to_N (87 + n)).

(** [bytes.hex()]: lowercase hexadecimal text. *)
Fixpoint hex (b : bytes) : string :=
  match b with
  | x :: b' => String (hex_digit (x / 16)) (String (hex_digit (x mod 16)) (hex b'))
  | [] => EmptyString
  end.

End Bytes.

Module Sha256.
Import Bytes.

Definition w32 (x : Z) : Z := x mod 2 ^ 32.
Definition add32 (x y : Z) : Z := w32 (x + y).
Definition rotr (x n : Z) : Z :=
  Z.lor (Z.shiftr x n) (w32 (Z.shiftl x (32 - n))).
Definition not32 (x : Z) : Z := 2 ^ 32 - 1 - x.

(** The constants of FIPS 180-4: the first 32 bits of the fractional
    parts of the cube roots ([K]) and of the square roots ([H0]) of the
    first primes. *)
Definition is_prime (n : Z) : bool :=
  forallb (fun d => negb (n mod Z.of_nat d =? 0)) (seq 2 (Z.to_nat n - 2)).

Definition primes : list Z :=
  List.filter is_prime (map Z.of_nat (seq 2 310)).

Fixpoint cube_root_go (bits : nat) (x r : Z) : Z :=
  match bits with
  | O => r
  | S b =>
      let r' := r + 2 ^ Z.of_nat b in
      cube_root_go b x (if r' * r' * r' <=? x then r' else r)
  end.

Definition cube_root (x : Z) : Z := cube_root_go 40 x 0.

Definition K : list Z :=
  Eval vm_compute in map (fun p => w32 (cube_root (p * 2 ^ 96))) primes.

Definition H0 : list Z :=
  Eval vm_compute in map (fun p => w32 (Z.sqrt (p * 2 ^ 64))) (firstn 8 primes).

Definition ssig0 (x : Z) : Z :=
  Z.lxor (Z.lxor (rotr x 7) (rotr x 18)) (Z.shiftr x 3).
Definition ssig1 (x : Z) : Z :=
  Z.lxor (Z.lxor (rotr x 17) (rotr x 19)) (Z.shiftr x 10).
Definition bsig0 (x : Z) : Z :=
  Z.lxor (Z.lxor (rotr x 2) (rotr x 13)) (rotr x 22).
Definition bsig1 (x : Z) : Z :=
  Z.lxor (Z.lxor (rotr x 6) (rotr x 11)) (rotr x 25).
Definition ch (x y z : Z) : Z :=
  Z.lxor (Z.land x y) (Z.land (not32 x) z).
Definition maj (x y z : Z) : Z :=
  Z.lxor (Z.lxor (Z.land x y) (Z.land x z)) (Z.land y z).

(** Big-endian 32-bit words of a block. *)
Fixpoint words (b : bytes) : list Z :=
  match b with
  | b0 :: b1 :: b2 :: b3 :: rest =>
      (((b0 * 256 + b1) * 256 + b2) * 256 + b3) :: words rest
  | _ => []
  end.

Definition word_bytes (w : Z) : bytes :=
  [w / 2 ^ 24; (w / 2 ^ 16) mod 256; (w / 2 ^ 8) mod 256; w mod 256].

(** The message schedule, newest word first: [rev_w] holds
    [w[i-1], w[i-2], ...]. *)
Fixpoint schedule (n : nat) (rev_w : list Z) : list Z :=
  match n with
  | O => rev_w
  | S n' =>
      let w := add32 (add32 (nth 15 rev_w 0) (ssig0 (nth 14 rev_w 0)))
                     (add32 (nth 6 rev_w 0) (ssig1 (nth 1 rev_w 0))) in
      schedule n' (w :: rev_w)
  end.

Definition round (st : list Z) (kw : Z * Z) : list Z :=
  match st with
  | [a; b; c; d; e; f; g; h] =>
      let t1 := add32 (add32 (add32 h (bsig1 e)) (add32 (ch e f g) (fst kw)))
                      (snd kw) in
      let t2 := add32 (bsig0 a) (maj a b c) in
      [add32 t1 t2; a; b; c; add32 d t1; e; f; g]
  | _ => st
  end.

Definition zip_add (xs ys : list Z) : list Z :=
  map (fun p => add32 (fst p) (snd p)) (combine xs ys).

(** One application of the compression function. *)
Definition compress (h : list Z) (block : bytes) : list Z :=
  let w := rev (schedule 48 (rev (words block))) in
  zip_add h (fold_left round (combine K w) h).

(** The padding: [0x80], zeros, and the bit length on 8 bytes. *)
Definition pad (msg : bytes) : bytes :=
  let len := Z.of_nat (length msg) in
  let zeros := Z.to_nat ((55 - len) mod 64) in
  let bits := 8 * len in
  msg ++ [0x80] ++ repeat 0 zeros
      ++ map (fun i => (bits / 2 ^ (8 * i)) mod 256) [7; 6; 5; 4; 3; 2; 1; 0].

Fixpoint blocks (n : nat) (h : list Z) (b : bytes) : list Z :=
  match n with
  | O => h
  | S n' => blocks n' (compress h (firstn 64 b)) (skipn 64 b)
  end.

(** [hashlib.sha256(msg).digest()]. *)
Definition digest (msg : bytes) : bytes :=
  let p := pad msg in
  concat (map word_bytes (blocks (length p / 64) H0 p)).

Definition hexdigest (msg : bytes) : string := hex (digest msg).

End Sha256.

Module Hmac.
Import Bytes.

Definition block_size : nat := 64.

(** The key block: a key longer than a block is hashed first, then the
    key is filled with zeros. *)
Definition key_block (key : bytes) : bytes :=
  let k := if (block_size <? length key)%nat then Sha256.digest key else key in
  k ++ repeat 0 (block_size - length k).

Definition xor_with (c : Z) (b : bytes) : bytes := map (Z.lxor c) b.

(** [hmac.new(key, msg, hashlib.sha256).digest()]. *)
Definition digest (key msg : bytes) : bytes :=
  let k := key_block key in
  Sha256.digest (xor_with 0x5c k ++ Sha256.digest (xor_with 0x36 k ++ msg)).

(** [hmac.new(key, msg, hashlib.sha256).hexdigest()]. *)
Definition hexdigest (key msg : bytes) : string := hex (digest key msg).

Definition is_ascii (s : string) : bool :=
  forallb (fun c => (N_of_ascii c <? 128)%N) (list_ascii_of_string s).

(** [hmac.compare_digest(a, b)] on two [str]: equality, in constant
    time; [TypeError] when one of them is not ASCII. *)
Definition compare_digest (a b : string) : Py.exn + bool :=
  if is_ascii a && is_ascii b then inr (String.eqb a b)
  else inl (Py.TypeError
              "comparing strings with non-ASCII characters is not supported").

End Hmac.

(* ===================================================================== *)
(** ** Jobs and their canonical serialisation ([json.dumps]) *)
(* ===================================================================== *)

Module Json.
Import Bytes.

(** The values of the job wire shape: a string, or the [inputs] mapping
    from names to strings. *)
Inductive value : Type :=
  | JS (s : string)
  | JD (d : Dict.dict string).

(** A job as it travels: a [dict] from field names to values. *)
Definition Job : Type := Dict.dict value.

(** The double-quote character and the one-character string made of it. *)
Definition dquote_char : ascii := "034"%char.
Definition dquote : string := String dquote_char EmptyString.

(** [ensure_ascii] escaping of one character. *)
Definition escape_char (c : ascii) : string :=
  match c with
  | "034"%char => "\" +:+ dquote
  | "\"%char => "\\"
  | "010"%char => "\n"
  | "013"%char => "\r"
  | "009"%char => "\t"
  | "008"%char => "\b"
  | "012"%char => "\f"
  | _ =>
      let n := Z.of_N (N_of_ascii c) in
      if (32 <=? n) && (n <=? 126) then String c EmptyString
      else "\u00" +:+ String (hex_digit (n / 16))
                        (String (hex_digit (n mod 16)) EmptyString)
  end.

Fixpoint escape (s : string) : string :=
  match s with
  | String c s' => escape_char c +:+ escape s'
  | EmptyString => EmptyString
  end.

Definition dumps_str (s : string) : string := dquote +:+ escape s +:+ dquote.

(** [sorted(d.items())]: insertion by key. *)
Fixpoint insert_item {V : Type} (kv : string * V) (l : list (string * V))
  : list (string * V) :=
  match l with
  | x :: l' =>
      if String.leb (fst kv) (fst x) then kv :: l else x :: insert_item kv l'
  | [] => [kv]
  end.

Definition sorted_items {V : Type} (d : Dict.dict V) : list (string * V) :=
  fold_right insert_item [] d.

Definition dumps_dict {V : Type} (dumps_value : V -> string)
    (d : Dict.dict V) : string :=
  "{" +:+ Py.join ", "
            (map (fun kv => dumps_str (fst kv) +:+ ": " +:+ dumps_value (snd kv))
                 (sorted_items d))
      +:+ "}".

Definition dumps_value (v : value) : string :=
  match v with
  | JS s => dumps_str s
  | JD d => dumps_dict dumps_str d
  end.

(** [json.dumps(job, sort_keys=True)]. *)
Definition dumps (job : Job) : string := dumps_dict dumps_value job.

(** [str(v)]; the rendering of a mapping is written for plain keys and
    values. *)
Definition py_str (v : value) : string :=
  match v with
  | JS s => s
  | JD d =>
      "{" +:+ Py.join ", "
                (map (fun kv => "'" +:+ fst kv +:+ "': '" +:+ snd kv +:+ "'") d)
          +:+ "}"
  end.

(** The signature both sides compute:
    [job_copy = {k: v for k, v in job.items() if k != 'signature'}],
    [payload = json.dumps(job_copy, sort_keys=True).encode()],
    [hmac.new(SECRET_KEY.encode(), payload, hashlib.sha256).hexdigest()]. *)
Definition sign (SECRET_KEY : string) (job : Job) : string :=
  let job_copy := Dict.without "signature" job in
  let payload := encode (dumps job_copy) in
  Hmac.hexdigest (encode SECRET_KEY) payload.

End Json.

(* ===================================================================== *)
(** ** The control plane ([panel/app.py]) *)
(* ===================================================================== *)

Module Panel.
Import Schema.

(** [^[a-zA-Z0-9._%+-]+@[a-zA-Z0-9.-]+\.[a-zA-Z]{2,}$] *)
Definition email_pattern : Re.regex :=
  let local := Re.Class false
    [("a","z"); ("A","Z"); ("0","9"); (".","."); ("_","_"); ("%","%");
     ("+","+"); ("-","-")]%char in
  let host := Re.Class false
    [("a","z"); ("A","Z"); ("0","9"); (".","."); ("-","-")]%char in
  let alpha := Re.Class false [("a","z"); ("A","Z")]%char in
  Re.Seq Re.Bol (Re.Seq (Re.Plus local) (Re.Seq (Re.Chr "@")
    (Re.Seq (Re.Plus host) (Re.Seq (Re.Chr ".")
      (Re.Seq (Re.AtLeast2 alpha) Re.Eol))))).

(** The type checks of [validate_field]: the error returned, if any. *)
Definition type_validation (field : InputField) (value : string)
  : option string :=
  match type field with
  | TInteger =>
      match Py.int value with
      | Some int_val => None
      | None => Some (label field +:+ " must be an integer")
      end
  | TPort =>
      match Py.int value with
      | Some port =>
          if negb ((1 <=? port) && (port <=? 65535))
          then Some (label field +:+ " must be between 1 and 65535")
          else None
      | None => Some (label field +:+ " must be a valid port number")
      end
  | TEmail =>
      if negb (Re.match_ email_pattern value)
      then Some (label field +:+ " must be a valid email") else None
  | TBoolean =>
      if negb (Py.str_in (Py.lower value)
                 ["true"; "false"; "1"; "0"; "yes"; "no"])
      then Some (label field +:+ " must be true or false") else None
  | TString | TPassword | TSelect => None
  end.

Definition check_pattern (field : InputField) (v : InputValidation)
    (value : string) : option string :=
  match pattern v with
  | Some p =>
      if negb (Re.match_ p value)
      then Some (label field +:+ " format is invalid") else None
  | None => None
  end.

Definition check_min_length (field : InputField) (v : InputValidation)
    (value : string) : option string :=
  match min_length v with
  | Some n =>
      if Py.len value <? n
      then Some (label field +:+ " must be at least " +:+ pretty n
                   +:+ " characters")
      else None
  | None => None
  end.

Definition check_max_length (field : InputField) (v : InputValidation)
    (value : string) : option string :=
  match max_length v with
  | Some n =>
      if n <? Py.len value
      then Some (label field +:+ " must be at most " +:+ pretty n
                   +:+ " characters")
      else None
  | None => None
  end.

(** [try: if float(value) < min_value: return ... except ValueError: pass] *)
Definition check_min_value (field : InputField) (v : InputValidation)
    (value : string) : option string :=
  match min_value v with
  | Some b =>
      match Py.float value with
      | Some x =>
          if Py.float_lt x b
          then Some (label field +:+ " must be at least " +:+ pretty b)
          else None
      | None => None
      end
  | None => None
  end.

Definition check_max_value (field : InputField) (v : InputValidation)
    (value : string) : option string :=
  match max_value v with
  | Some b =>
      match Py.float value with
      | Some x =>
          if Py.float_gt x b
          then Some (label field +:+ " must be at most " +:+ pretty b)
          else None
      | None => None
      end
  | None => None
  end.

Definition check_allowed_values (field : InputField) (v : InputValidation)
    (value : string) : option string :=
  match allowed_values v with
  | Some allowed =>
      if negb (Py.str_in value allowed)
      then Some (label field +:+ " must be one of: "
                   +:+ Py.join ", " allowed)
      else None
  | None => None
  end.

(** The validation rules of [validate_field], in the order of the
    source. *)
Definition validation_rules (field : InputField) (value : string)
  : option string :=
  let validation := get_validation field in
  check_pattern field validation value ;;;
  check_min_length field validation value ;;;
  check_max_length field validation value ;;;
  check_min_value field validation value ;;;
  check_max_value field validation value ;;;
  check_allowed_values field validation value.

(** [not value]. *)
Definition is_empty (value : string) : bool := String.eqb value "".

(** [InputValidator.validate_field]. *)
Definition validate_field (field : InputField) (value : string)
  : bool * option string :=
  if get_required field && is_empty value
  then (false, Some (label field +:+ " is required"))
  else if is_empty value then (true, None)
  else
    match type_validation field value ;;; validation_rules field value with
    | Some error => (false, Some error)
    | None => (true, None)
    end.

(** [all(inputs.get(k) == v for k, v in visible_if.items())]. *)
Definition condition_met (visible_if : Dict.dict string)
    (inputs : Dict.dict string) : bool :=
  forallb (fun kv =>
    match Dict.get inputs (fst kv) with
    | Some actual => String.eqb actual (snd kv)
    | None => false
    end) visible_if.

(** The [continue] of [validate_inputs]: the field is skipped. *)
Definition skipped (field : InputField) (inputs : Dict.dict string) : bool :=
  match visible_if field with
  | Some (c :: cs) => negb (condition_met (c :: cs) inputs)
  | Some [] | None => false
  end.

(** [inputs.get(field['name'], '')]. *)
Definition get_value (inputs : Dict.dict string) (field : InputField)
  : string :=
  match Dict.get inputs (name field) with Some v => v | None => "" end.

(** The loop of [validate_inputs], with the [errors] list it appends
    to. *)
Fixpoint validate_loop (fields : list InputField)
    (inputs : Dict.dict string) (errors : list string) : list string :=
  match fields with
  | field :: rest =>
      if skipped field inputs then validate_loop rest inputs errors
      else
        match validate_field field (get_value inputs field) with
        | (false, Some error) => validate_loop rest inputs (errors ++ [error])
        | _ => validate_loop rest inputs errors
        end
  | [] => errors
  end.

(** [InputValidator.validate_inputs]. *)
Definition validate_inputs (manifest : Manifest)
    (inputs : Dict.dict string) : bool * list string :=
  let errors := validate_loop (get_inputs manifest) inputs [] in
  ((length errors =? 0)%nat, errors).

(** [JobManager.create_job]: the signed job that is stored and pushed on
    the agent's queue.  [job_id] is the fresh [uuid4] and [created_at]
    the clock reading. *)
Definition create_job (SECRET_KEY : string) (job_id created_at : string)
    (app_id : string) (inputs : Dict.dict string)
    (server_id user_id : string) : Json.Job :=
  let job :=
    [("job_id", Json.JS job_id); ("app_id", Json.JS app_id);
     ("inputs", Json.JD inputs); ("server_id", Json.JS server_id);
     ("user_id", Json.JS user_id); ("created_at", Json.JS created_at);
     ("status", Json.JS "queued")] in
  let signature := Json.sign SECRET_KEY job in
  Dict.set "signature" (Json.JS signature) job.

End Panel.

(* ===================================================================== *)
(** ** The agent ([agent/daemon.py]) *)
(* ===================================================================== *)

Module Agent.
Import Schema Json.
Import Py.

Definition INSTALLERS_PATH : string := "/opt/provisioning/installers".

(** [str(a / b / c)] on paths. *)
Definition path (segments : list string) : string :=
  match segments with
  | a :: rest => Py.path_str (fold_left Py.path_join rest a)
  | [] => "."
  end.

Inductive Signal : Type := SIGTERM | SIGKILL.

(** What the executor does to the operating system, in order.
    [Popen] stands for a process that was started. *)
Inductive Event : Type :=
  | Chmod (script_path : string)
  | Popen (script_path : string) (env : gmap string string)
  | Wait (timeout : Z)
  | Killpg (sig : Signal)
  | Sleep (seconds : Z).

(** A launched installer: it exits after [run_seconds] with
    [returncode]; [read_log] is what reading the job's log back gives,
    the captured text or an exception. *)
Record Process : Type := {
  run_seconds : Z;
  returncode : Z;
  read_log : exn + string
}.

(** The surroundings of the agent: its configuration, the installer
    tree, what launching a script does, and the clock.  [popen] is the
    outcome, for the job at hand, of opening the log file of the job for
    writing and of [subprocess.Popen] on the script with the log as its
    output: the process that was started, or the exception that either
    of the two raised. *)
Record World : Type := {
  SECRET_KEY : string;
  environ : gmap string string;
  exists_ : string -> bool;
  safe_load : string -> exn + Manifest;
  chmod : string -> option exn;
  popen : string -> gmap string string -> exn + Process;
  utcnow : nat -> string
}.

(** The [JobResult] record. *)
Record Result : Type := {
  job_id : value;
  status : string;
  exit_code : Z;
  output : string;
  started_at : string;
  completed_at : option string;
  error : option string
}.

Definition set_error (r : Result) (e : string) : Result :=
  {| job_id := job_id r; status := status r; exit_code := exit_code r;
     output := output r; started_at := started_at r;
     completed_at := completed_at r; error := Some e |}.

Definition set_completed_at (r : Result) (t : string) : Result :=
  {| job_id := job_id r; status := status r; exit_code := exit_code r;
     output := output r; started_at := started_at r;
     completed_at := Some t; error := error r |}.

Definition set_outcome (r : Result) (code : Z) (out : string) : Result :=
  {| job_id := job_id r;
     status := if code =? 0 then "success" else "failed";
     exit_code := code; output := out; started_at := started_at r;
     completed_at := completed_at r; error := error r |}.

(** The executor's state: clock readings taken, the events so far, and
    [self.current_process]. *)
Record State : Type := {
  ticks : nat;
  trace : list Event;
  current_process : option Process
}.

Definition initial : State :=
  {| ticks := 0; trace := []; current_process := None |}.

(** Computations that read and change the state and may raise. *)
Definition M (A : Type) : Type := State -> (exn + A) * State.

Definition ret {A : Type} (a : A) : M A := fun st => (inr a, st).
Definition raise {A : Type} (e : exn) : M A := fun st => (inl e, st).
Definition bind {A B : Type} (m : M A) (k : A -> M B) : M B :=
  fun st =>
    match m st with
    | (inr a, st') => k a st'
    | (inl e, st') => (inl e, st')
    end.
Definition lift {A : Type} (r : exn + A) : M A :=
  match r with inr a => ret a | inl e => raise e end.

(** [try: m except Exception as e: handler e]. *)
Definition try_except {A : Type} (m : M A) (handler : exn -> M A) : M A :=
  fun st =>
    match m st with
    | (inr a, st') => (inr a, st')
    | (inl e, st') => handler e st'
    end.

Definition emit (ev : Event) : M unit :=
  fun st => (inr tt, {| ticks := ticks st; trace := trace st ++ [ev];
                        current_process := current_process st |}).

Definition set_current_process (p : option Process) : M unit :=
  fun st => (inr tt, {| ticks := ticks st; trace := trace st;
                        current_process := p |}).

Section Executor.
Context (w : World).

Local Notation "x <- m ;; k" := (bind m (fun x => k))
  (at level 100, m at next level, right associativity).
Local Notation "m ;; k" := (bind m (fun _ => k))
  (at level 100, right associativity).

(** [datetime.utcnow().isoformat()]. *)
Definition now : M string :=
  fun st => (inr (utcnow w (ticks st)),
             {| ticks := S (ticks st); trace := trace st;
                current_process := current_process st |}).

(** [JobExecutor.validate_signature]. *)
Definition validate_signature (job : Job) : exn + bool :=
  let received_sig :=
    match Dict.get job "signature" with Some v => v | None => JS "" end in
  let expected_sig := sign (SECRET_KEY w) job in
  match received_sig with
  | JS s => Hmac.compare_digest s expected_sig
  | JD _ => inl (TypeError
      "unsupported operand types(s) or combination of types: 'dict' and 'str'")
  end.

(** [self.installers_path / app_id / 'manifest.yml']. *)
Definition manifest_path (app_id : value) : exn + string :=
  match app_id with
  | JS s => inr (path [INSTALLERS_PATH; s; "manifest.yml"])
  | JD _ => inl (TypeError
      "unsupported operand type(s) for /: 'PosixPath' and 'dict'")
  end.

(** [JobExecutor.validate_installer]. *)
Definition validate_installer (app_id : value) : exn + bool :=
  match manifest_path app_id with
  | inr p => inr (exists_ w p)
  | inl e => inl e
  end.

(** [JobExecutor.load_manifest]. *)
Definition load_manifest (app_id : value) : exn + Manifest :=
  match manifest_path app_id with
  | inr p => safe_load w p
  | inl e => inl e
  end.

(** [name in inputs]: a key of the mapping; on a [str], a substring. *)
Definition py_in (name : string) (inputs : value) : bool :=
  match inputs with
  | JD d => Dict.contains d name
  | JS s => Py.substring_of name s
  end.

(** [inputs[name]]. *)
Definition getitem (inputs : value) (name : string) : exn + string :=
  match inputs with
  | JD d =>
      match Dict.get d name with
      | Some v => inr v
      | None => inl (KeyError name)
      end
  | JS _ => inl (TypeError "string indices must be integers, not 'str'")
  end.

(** The checks on one supplied value: the error returned, if any. *)
Definition type_validation (name : string) (field : InputField)
    (value : string) : option string :=
  match type field with
  | TInteger =>
      match Py.int value with
      | Some _ => None
      | None => Some ("Invalid integer: " +:+ name)
      end
  | TPort =>
      match Py.int value with
      | Some port =>
          if negb ((1 <=? port) && (port <=? 65535))
          then Some ("Port out of range: " +:+ name) else None
      | None => Some ("Invalid port: " +:+ name)
      end
  | _ => None
  end.

Definition check_pattern (name : string) (v : InputValidation)
    (value : string) : option string :=
  match pattern v with
  | Some p =>
      if negb (Re.match_ p value)
      then Some ("Pattern mismatch: " +:+ name) else None
  | None => None
  end.

Definition check_min_length (name : string) (v : InputValidation)
    (value : string) : option string :=
  match min_length v with
  | Some n =>
      if Py.len value <? n then Some ("Value too short: " +:+ name)
      else None
  | None => None
  end.

Definition check_max_length (name : string) (v : InputValidation)
    (value : string) : option string :=
  match max_length v with
  | Some n =>
      if n <? Py.len value then Some ("Value too long: " +:+ name)
      else None
  | None => None
  end.

Definition check_value (name : string) (field : InputField)
    (value : string) : option string :=
  let validation := get_validation field in
  type_validation name field value ;;;
  check_pattern name validation value ;;;
  check_min_length name validation value ;;;
  check_max_length name validation value.

(** The loop of [validate_inputs] over [manifest_inputs.items()]. *)
Fixpoint validate_loop (items : list (string * InputField))
    (inputs : value) : exn + (bool * option string) :=
  match items with
  | (name, field) :: rest =>
      if get_required field && negb (py_in name inputs)
      then inr (false, Some ("Required field missing: " +:+ name))
      else if py_in name inputs then
        match getitem inputs name with
        | inr value =>
            match check_value name field value with
            | Some error => inr (false, Some error)
            | None => validate_loop rest inputs
            end
        | inl e => inl e
        end
      else validate_loop rest inputs
  | [] => inr (true, None)
  end.

(** [JobExecutor.validate_inputs]. *)
Definition validate_inputs (manifest : Manifest) (inputs : value)
  : exn + (bool * option string) :=
  let manifest_inputs :=
    Dict.comprehension name (fun inp => inp) (get_inputs manifest) in
  validate_loop manifest_inputs inputs.

(** [JobExecutor.prepare_environment]. *)
Definition prepare_environment (inputs : value) (manifest : Manifest)
  : exn + gmap string string :=
  match inputs with
  | JD d =>
      let env := environ w in
      let env :=
        fold_left (fun env kv => <[Py.upper (fst kv) := snd kv]> env) d env in
      let env := <["PROVISIONING_JOB" := "true"]> env in
      let env := <["DEBIAN_FRONTEND" := "noninteractive"]> env in
      inr env
  | JS _ => inl (AttributeError "'str' object has no attribute 'items'")
  end.

(** [self.current_process.wait(timeout=timeout)]. *)
Definition wait (p : Process) (timeout : Z) : M Z :=
  emit (Wait timeout) ;;
  if run_seconds p <=? timeout then ret (returncode p)
  else raise (TimeoutExpired "timed out").

(** [JobExecutor.execute_script].  The inner [try] holds the wait
    alone; [waited] is [None] when its handler returned 124. *)
Definition execute_script (app_id script_name : string)
    (env : gmap string string) (timeout : Z) (job_id : value)
  : M (Z * string) :=
  let script_path := path [INSTALLERS_PATH; app_id; script_name] in
  if negb (exists_ w script_path)
  then ret (1, "Script not found: " +:+ script_path)
  else
    emit (Chmod script_path) ;;
    lift (match chmod w script_path with
          | Some e => inl e | None => inr tt end) ;;
    try_except
      (p <- lift (popen w script_path env) ;;
       emit (Popen script_path env) ;;
       set_current_process (Some p) ;;
       waited <-
         try_except
           (exit_code <- wait p timeout ;;
            ret (Some exit_code))
           (fun e =>
              match e with
              | TimeoutExpired _ =>
                  emit (Killpg SIGTERM) ;;
                  emit (Sleep 5) ;;
                  emit (Killpg SIGKILL) ;;
                  ret None
              | _ => raise e
              end) ;;
       match waited with
       | Some exit_code =>
           set_current_process None ;;
           output <- lift (read_log p) ;;
           ret (exit_code, output)
       | None => ret (124, "Execution timed out")
       end)
      (fun e => ret (1, exn_str e)).

(** [job[key]]. *)
Definition job_getitem (job : Job) (key : string) : exn + value :=
  match Dict.get job key with
  | Some v => inr v
  | None => inl (KeyError key)
  end.

(** [manifest.get('timeout_seconds', 600)] and
    [manifest.get('install_script', 'install.sh')]. *)
Definition get_timeout (manifest : Manifest) : Z :=
  match timeout_seconds manifest with Some t => t | None => 600 end.

Definition get_install_script (manifest : Manifest) : string :=
  match install_script manifest with Some s => s | None => "install.sh" end.

(** The lines after [execute_script]: exit code, output, status, and
    the error of a non-zero exit. *)
Definition record_outcome (result : Result) (exit_code : Z)
    (output : string) : Result :=
  let result := set_outcome result exit_code output in
  if negb (exit_code =? 0)
  then set_error result ("Script exited with code " +:+ pretty exit_code)
  else result.

(** [f'Input validation failed: {error}']. *)
Definition validation_failed (error : option string) : string :=
  "Input validation failed: "
    +:+ match error with Some e => e | None => "None" end.

(** The body of the [try] block of [execute_job].  It ends with the
    [result] to return, or raises; an exception carries the [result]
    as it stands when it is raised. *)
Definition try_body (job : Job) (app_id inputs : value) (result : Result)
  : State -> ((exn * Result) + Result) * State :=
  fun st =>
    match validate_signature job with
    | inl e => (inl (e, result), st)
    | inr false => (inr (set_error result "Invalid signature"), st)
    | inr true =>
    match validate_installer app_id with
    | inl e => (inl (e, result), st)
    | inr false =>
        (inr (set_error result
                ("Installer not whitelisted: " +:+ py_str app_id)), st)
    | inr true =>
    match load_manifest app_id with
    | inl e => (inl (e, result), st)
    | inr manifest =>
    match validate_inputs manifest inputs with
    | inl e => (inl (e, result), st)
    | inr (false, error) =>
        (inr (set_error result (validation_failed error)), st)
    | inr (true, _) =>
    match prepare_environment inputs manifest with
    | inl e => (inl (e, result), st)
    | inr env =>
    let timeout := get_timeout manifest in
    let script_name := get_install_script manifest in
    match execute_script (py_str app_id) script_name env timeout
            (job_id result) st with
    | (inr (exit_code, output), st') =>
        (inr (record_outcome result exit_code output), st')
    | (inl e, st') => (inl (e, result), st')
    end end end end end end.

(** [JobExecutor.execute_job]. *)
Definition execute_job (job : Job) : M Result :=
  job_id <- lift (job_getitem job "job_id") ;;
  app_id <- lift (job_getitem job "app_id") ;;
  inputs <- lift (job_getitem job "inputs") ;;
  started <- now ;;
  let result :=
    {| job_id := job_id; status := "failed"; exit_code := 1;
       output := ""; started_at := started; completed_at := None;
       error := None |} in
  fun st =>
    let '(r, st) := try_body job app_id inputs result st in
    let result :=
      match r with
      | inr result => result
      | inl (e, result) => set_error result (exn_str e)
      end in
    (* finally *)
    (completed <- now ;;
     ret (set_completed_at result completed)) st.

End Executor.

(** The broker as the agent sees it: its own job queue, the keyed
    result store and what was sent on the update channels.  Records
    stand for their JSON text; expiry is not tracked. *)
Record Broker : Type := {
  queue : list Job;
  store : gmap string Result;
  published : list (string * Result)
}.

(** [AgentDaemon.publish_result]. *)
Definition publish_result (result : Result) (b : Broker) : Broker :=
  let result_key := "job:" +:+ py_str (job_id result) +:+ ":result" in
  let channel := "job:" +:+ py_str (job_id result) +:+ ":updates" in
  {| queue := queue b;
     store := <[result_key := result]> (store b);
     published := published b ++ [(channel, result)] |}.

(** One turn of the loop of [AgentDaemon.run]: [poll_jobs] takes the
    job at the head of the queue, [execute_job] runs it and
    [publish_result] stores the result.  An exception that leaves
    [execute_job] ends the loop. *)
Definition run_once (w : World) (b : Broker) (st : State)
  : (exn + Broker) * State :=
  match queue b with
  | job :: rest =>
      let b := {| queue := rest; store := store b;
                  published := published b |} in
      match execute_job w job st with
      | (inr result, st') => (inr (publish_result result b), st')
      | (inl e, st') => (inl e, st')
      end
  | [] => (inr b, st)
  end.

End Agent.

(* ===================================================================== *)
(** ** Manifests, jobs and surroundings used as concrete inputs *)
(* ===================================================================== *)

Module Fixtures.
Import Schema.

Definition plain_field (n : string) (t : FieldType) (l : string)
    (req : option bool) : InputField :=
  {| name := n; type := t; label := l; required := req; default := None;
     validation := None; visible_if := None |}.

(** The field of [test_validate_port]. *)
Definition port_field : InputField :=
  plain_field "port" TPort "Port" (Some true).

(** The manifest of [test_visible_if_condition]. *)
Definition enable_ssl : InputField :=
  {| name := "enable_ssl"; type := TBoolean; label := "Enable SSL";
     required := Some false; default := Some "false";
     validation := None; visible_if := None |}.

Definition ssl_port : InputField :=
  {| name := "ssl_port"; type := TPort; label := "SSL Port";
     required := Some true; default := None; validation := None;
     visible_if := Some [("enable_ssl", "true")] |}.

Definition ssl_manifest : Manifest :=
  {| id := "nginx"; inputs := Some [enable_ssl; ssl_port];
     install_script := Some "install.sh"; timeout_seconds := Some 600 |}.

Definition port_manifest : Manifest :=
  {| id := "nginx"; inputs := Some [port_field];
     install_script := None; timeout_seconds := None |}.

(** An optional port field that carries every kind of rule. *)
Definition guarded_port : InputField :=
  {| name := "port"; type := TPort; label := "Port";
     required := Some false; default := None;
     validation := Some
       {| pattern := Some (Re.Plus (Re.Class false [("0", "9")]%char));
          min_length := Some 2; max_length := Some 5;
          min_value := Some 1024; max_value := Some 65535;
          allowed_values := Some ["8080"; "8443"] |};
     visible_if := None |}.

(** A required string field with a length rule, numeric bounds and a
    list of allowed values. *)
Definition mode_field : InputField :=
  {| name := "mode"; type := TSelect; label := "Mode";
     required := Some true; default := None;
     validation := Some
       {| pattern := None; min_length := Some 3; max_length := None;
          min_value := Some 1; max_value := Some 100;
          allowed_values := Some ["dev"; "staging"; "production"] |};
     visible_if := None |}.

Definition mode_manifest : Manifest :=
  {| id := "app"; inputs := Some [mode_field; port_field];
     install_script := None; timeout_seconds := None |}.

(** An agent host on which only the nginx installer is present and
    whose installer would run for [seconds] seconds. *)
Definition nginx_dir : string := "/opt/provisioning/installers/nginx".

Definition host (seconds code : Z) (log : string) : Agent.World :=
  {| Agent.SECRET_KEY := "change-me-in-production";
     Agent.environ := {["PATH" := "/usr/bin:/bin"]};
     Agent.exists_ := fun p =>
       String.eqb p (nginx_dir +:+ "/manifest.yml")
       || String.eqb p (nginx_dir +:+ "/install.sh");
     Agent.safe_load := fun _ => inr ssl_manifest;
     Agent.chmod := fun _ => None;
     Agent.popen := fun _ _ =>
       inr {| Agent.run_seconds := seconds; Agent.returncode := code;
              Agent.read_log := inr log |};
     Agent.utcnow := fun n => "2024-01-01T00:00:0" +:+ pretty n |}.

(** An installer that sleeps past the timeout of 600 seconds. *)
Definition slow_host : Agent.World := host 4000 0 "".

(** A job as the control plane creates it. *)
Definition ssl_job : Json.Job :=
  Panel.create_job "change-me-in-production" "job-1" "2024-01-01T00:00:00"
    "nginx" [("enable_ssl", "true"); ("ssl_port", "443")]
    "agent-001" "admin".


(** The same host configured with another secret. *)
Definition rekeyed (key : string) (w : Agent.World) : Agent.World :=
  {| Agent.SECRET_KEY := key; Agent.environ := Agent.environ w;
     Agent.exists_ := Agent.exists_ w; Agent.safe_load := Agent.safe_load w;
     Agent.chmod := Agent.chmod w; Agent.popen := Agent.popen w;
     Agent.utcnow := Agent.utcnow w |}.

(** The default secret followed by one NUL character. *)
Definition padded_secret : string :=
  "change-me-in-production" +:+ String "000"%char EmptyString.

(** The job of [test_signature_verification], and the same job for
    another application. *)
Definition nginx_job : Json.Job :=
  [("job_id", Json.JS "123"); ("app_id", Json.JS "nginx");
   ("inputs", Json.JD [])].


(** The broker with that one job queued for the agent. *)
Definition one_job_queued : Agent.Broker :=
  {| Agent.queue := [ssl_job]; Agent.store := ∅; Agent.published := [] |}.

Definition ssl_env : gmap string string :=
  <["DEBIAN_FRONTEND" := "noninteractive"]>
    (<["PROVISIONING_JOB" := "true"]>
      (<["SSL_PORT" := "443"]>
        (<["ENABLE_SSL" := "true"]> {["PATH" := "/usr/bin:/bin"]}))).

End Fixtures.

(* ===================================================================== *)
(** ** Reference definitions for the properties *)
(* ===================================================================== *)

Module Spec.
Import Schema.

(** The validation rules of a field without its numeric bounds. *)
Definition without_bounds (v : InputValidation) : InputValidation :=
  {| pattern := pattern v; min_length := min_length v;
     max_length := max_length v; min_value := None; max_value := None;
     allowed_values := allowed_values v |}.

Definition drop_numeric_bounds (field : InputField) : InputField :=
  {| name := name field; type := type field; label := label field;
     required := required field; default := default field;
     validation := option_map without_bounds (validation field);
     visible_if := visible_if field |}.

(** After the specification of the validator: all applicable checks
    run, and every failing check on a field yields one error message.
    The checks are those of the control plane, in its order. *)
Definition all_field_errors (field : InputField) (value : string)
  : list string :=
  if get_required field && Panel.is_empty value
  then [label field +:+ " is required"]
  else if Panel.is_empty value then []
  else
    let validation := get_validation field in
    option_list (Panel.type_validation field value)
    ++ option_list (Panel.check_pattern field validation value)
    ++ option_list (Panel.check_min_length field validation value)
    ++ option_list (Panel.check_max_length field validation value)
    ++ option_list (Panel.check_min_value field validation value)
    ++ option_list (Panel.check_max_value field validation value)
    ++ option_list (Panel.check_allowed_values field validation value).

(** The complete error set of a call: all failing checks of all fields
    that are not hidden. *)
Definition all_errors (manifest : Manifest) (inputs : Dict.dict string)
  : list string :=
  flat_map (fun field =>
    if Panel.skipped field inputs then []
    else all_field_errors field (Panel.get_value inputs field))
    (get_inputs manifest).

(** The first failing check of each field that is not hidden. *)
Definition first_errors (fields : list InputField)
    (inputs : Dict.dict string) : list string :=
  omap (fun field =>
    if Panel.skipped field inputs then None
    else head (all_field_errors field (Panel.get_value inputs field)))
    fields.

(** What the agent has to say about one declared field, given the
    supplied mapping. *)
Definition agent_field_error (inputs : Dict.dict string)
    (item : string * InputField) : option string :=
  let '(field_name, field) := item in
  match Dict.get inputs field_name with
  | Some value => Agent.check_value field_name field value
  | None =>
      if get_required field
      then Some ("Required field missing: " +:+ field_name) else None
  end.

(** 32-bit words and bytes. *)
Definition is_word (x : Z) : Prop := 0 <= x < 2 ^ 32.
Definition is_byte (x : Z) : Prop := 0 <= x < 256.

(** All the texts of [n] hexadecimal digits: what a digest of [n / 2]
    bytes can look like. *)
Definition hex_chars : list ascii :=
  map (fun k => Bytes.hex_digit (Z.of_nat k)) (seq 0 16).

Fixpoint all_hex (n : nat) : list string :=
  match n with
  | O => [EmptyString]
  | S k => flat_map (fun c => map (String c) (all_hex k)) hex_chars
  end.

(** The secret, or the job_id, number [n]: its decimal digits. *)
Definition numbered (n : nat) : string := pretty n.







(** The order in which [json.dumps] puts the items of a mapping. *)
Definition key_le {V : Type} (a b : string * V) : Prop :=
  String.le (fst a) (fst b).




(** One reading of the clock. *)
Definition tick (st : Agent.State) : Agent.State :=
  {| Agent.ticks := S (Agent.ticks st); Agent.trace := Agent.trace st;
     Agent.current_process := Agent.current_process st |}.

(** The [result] dict as [execute_job] first builds it. *)
Definition fresh_result (w : Agent.World) (job_id : Json.value)
    (st : Agent.State) : Agent.Result :=
  {| Agent.job_id := job_id; Agent.status := "failed"; Agent.exit_code := 1;
     Agent.output := ""; Agent.started_at := Agent.utcnow w (Agent.ticks st);
     Agent.completed_at := None; Agent.error := None |}.

(** Every stage before the sandbox let the job through. *)
Definition checks_passed (w : Agent.World) (job : Json.Job)
    (app_id inputs : Json.value) (manifest : Manifest)
    (env : gmap string string) : Prop :=
  Agent.validate_signature w job = inr true /\
  Agent.validate_installer w app_id = inr true /\
  Agent.load_manifest w app_id = inr manifest /\
  (exists error, Agent.validate_inputs manifest inputs = inr (true, error)) /\
  Agent.prepare_environment w inputs manifest = inr env.

(** The job carries the three keys [execute_job] reads first. *)
Definition has_keys (job : Json.Job) (job_id app_id inputs : Json.value)
  : Prop :=
  Dict.get job "job_id" = Some job_id /\
  Dict.get job "app_id" = Some app_id /\
  Dict.get job "inputs" = Some inputs.

End Spec.

(* ===================================================================== *)
(** ** The seeded manifests ([generate_apps.py]) *)
(* ===================================================================== *)

Module Seed.
Import Schema.

(** An entry of the [apps] table. *)
Record App : Type := {
  app_id : string;
  app_name : string;
  desc : string;
  cat : string;
  port : Z
}.

(** [^[a-z0-9\-\.]+$] *)
Definition domain_pattern : Re.regex :=
  Re.Seq Re.Bol
    (Re.Seq (Re.Plus (Re.Class false
               [("a","z"); ("0","9"); ("-","-"); (".",".")]%char))
       Re.Eol).

Definition domain_field : InputField :=
  {| name := "domain"; type := TString; label := "Domain Name";
     required := Some true; default := None;
     validation := Some
       {| pattern := Some domain_pattern; min_length := None;
          max_length := Some 253; min_value := None; max_value := None;
          allowed_values := None |};
     visible_if := None |}.

Definition admin_email_field : InputField :=
  {| name := "admin_email"; type := TEmail; label := "Admin Email";
     required := Some true; default := None; validation := None;
     visible_if := None |}.

(** The field appended [if app["port"] > 0]. *)
Definition port_field (app : App) : InputField :=
  {| name := "port"; type := TPort; label := "Port";
     required := Some false; default := Some (pretty (port app));
     validation := Some
       {| pattern := None; min_length := None; max_length := None;
          min_value := Some 1; max_value := Some 65535;
          allowed_values := None |};
     visible_if := None |}.

(** The manifest written for one entry of the table: the keys that the
    validators and the executor read. *)
Definition manifest (app : App) : Manifest :=
  {| id := app_id app;
     inputs := Some ([domain_field; admin_email_field]
                       ++ (if 0 <? port app then [port_field app] else []));
     install_script := Some "install.sh";
     timeout_seconds := Some 1200 |}.

End Seed.

(* ===================================================================== *)
(** ** The manifest registry of the control plane ([panel/app.py]) *)
(* ===================================================================== *)

Module Registry.
Import Schema.

(** A manifest as the registry holds it: the mapping that
    [yaml.safe_load] returned.  Next to the keys of [Schema.Manifest] the
    listing reads [name], [description], [category] and [tags]; a key
    that the file leaves out is [None]. *)
Record Entry : Type := {
  manifest : Manifest;
  name : option string;
  description : option string;
  category : option string;
  tags : option (list string)
}.

(** One entry of [installers_path.iterdir()].  [load] is the outcome of
    [yaml.safe_load(f)] followed by [manifest['id']]: an exception when
    the file does not parse or has no [id]. *)
Record AppDir : Type := {
  is_dir : bool;
  has_manifest : bool;
  load : Py.exn + Entry
}.

(** [self.manifests]. *)
Definition registry : Type := Dict.dict Entry.

(** The loop of [load_all]; a manifest that fails to load is reported
    and left out. *)
Fixpoint load_loop (dirs : list AppDir) (manifests : registry) : registry :=
  match dirs with
  | app_dir :: rest =>
      if is_dir app_dir then
        if has_manifest app_dir then
          match load app_dir with
          | inr m => load_loop rest (Dict.set (id (manifest m)) m manifests)
          | inl e => load_loop rest manifests
          end
        else load_loop rest manifests
      else load_loop rest manifests
  | [] => manifests
  end.

(** [ManifestRegistry.load_all] on the directory listing; [None] when
    [installers_path] does not exist. *)
Definition load_all (installers : option (list AppDir)) : registry :=
  match installers with
  | Some dirs => load_loop dirs []
  | None => []
  end.

(** [ManifestRegistry.get]. *)
Definition get (r : registry) (app_id : string) : option Entry :=
  Dict.get r app_id.

(** [ManifestRegistry.list_all]. *)
Definition list_all (r : registry) : list Entry := map snd r.

(** An optional text that is neither [None] nor empty. *)
Definition truthy (s : option string) : bool :=
  match s with
  | Some s => negb (String.eqb s "")
  | None => false
  end.

(** [query in m['name'].lower() or query in m['description'].lower()]. *)
Definition matches_query (query : string) (m : Entry) : Py.exn + bool :=
  match name m with
  | Some n =>
      if Py.substring_of query (Py.lower n) then inr true
      else
        match description m with
        | Some d => inr (Py.substring_of query (Py.lower d))
        | None => inl (Py.KeyError "description")
        end
  | None => inl (Py.KeyError "name")
  end.

(** [[m for m in results if test(m)]] for a test that can raise. *)
Fixpoint comprehension_if {A : Type} (test : A -> Py.exn + bool)
    (results : list A) : Py.exn + list A :=
  match results with
  | m :: rest =>
      match test m with
      | inr keep =>
          match comprehension_if test rest with
          | inr l => inr (if keep then m :: l else l)
          | inl e => inl e
          end
      | inl e => inl e
      end
  | [] => inr []
  end.

(** [m.get('category') == category]. *)
Definition in_category (wanted : string) (m : Entry) : bool :=
  match category m with
  | Some c => String.eqb c wanted
  | None => false
  end.

(** [any(tag in m.get('tags', []) for tag in tags)]. *)
Definition any_tag (wanted : list string) (m : Entry) : bool :=
  existsb (fun tag =>
    Py.str_in tag (match tags m with Some l => l | None => [] end)) wanted.

(** [if query: query = query.lower(); results = [...]]. *)
Definition by_query (query : option string) (results : list Entry)
  : Py.exn + list Entry :=
  match query with
  | Some q =>
      if truthy query
      then comprehension_if (matches_query (Py.lower q)) results
      else inr results
  | None => inr results
  end.

(** [if category: results = [...]]. *)
Definition by_category (category : option string) (results : list Entry)
  : list Entry :=
  match category with
  | Some c =>
      if truthy category then List.filter (in_category c) results
      else results
  | None => results
  end.

(** [if tags: results = [...]]. *)
Definition by_tags (tags : option (list string)) (results : list Entry)
  : list Entry :=
  match tags with
  | Some (t :: ts) => List.filter (any_tag (t :: ts)) results
  | Some [] | None => results
  end.

(** [ManifestRegistry.search]. *)
Definition search (r : registry) (query category : option string)
    (tags : option (list string)) : Py.exn + list Entry :=
  match by_query query (list_all r) with
  | inr results => inr (by_tags tags (by_category category results))
  | inl e => inl e
  end.

End Registry.

(* ===================================================================== *)
(** ** The key-value server ([redis]) *)
(* ===================================================================== *)

Module Redis.

(** The patterns of [SCAN ... MATCH]: [*] stands for any text, [?] for
    one character, [[...]] for one character of a set ([[^...]] for one
    outside it), and a backslash takes the next character literally. *)
Inductive token : Type :=
  | Lit (c : ascii)
  | AnyChar
  | AnyString
  | OneOf (neg : bool) (ranges : list (ascii * ascii)).

Definition range (a b : ascii) : ascii * ascii :=
  if (N_of_ascii a <=? N_of_ascii b)%N then (a, b) else (b, a).

(** The inside of a bracket expression, up to the closing bracket. *)
Fixpoint parse_set (p : string) (ranges : list (ascii * ascii))
  : list (ascii * ascii) * string :=
  match p with
  | EmptyString => (ranges, EmptyString)
  | String c rest =>
      if Ascii.eqb c "\" then
        match rest with
        | String c' rest' => parse_set rest' (ranges ++ [(c', c')])
        | EmptyString => (ranges ++ [(c, c)], EmptyString)
        end
      else if Ascii.eqb c "]" then (ranges, rest)
      else
        match rest with
        | String "-" (String c' rest') =>
            parse_set rest' (ranges ++ [range c c'])
        | _ => parse_set rest (ranges ++ [(c, c)])
        end
  end.

Fixpoint parse (fuel : nat) (p : string) : list token :=
  match fuel, p with
  | S fuel', String c rest =>
      if Ascii.eqb c "*" then AnyString :: parse fuel' rest
      else if Ascii.eqb c "?" then AnyChar :: parse fuel' rest
      else if Ascii.eqb c "[" then
        let '(neg, rest) :=
          match rest with
          | String "^" rest' => (true, rest')
          | _ => (false, rest)
          end in
        let '(ranges, rest) := parse_set rest [] in
        OneOf neg ranges :: parse fuel' rest
      else if Ascii.eqb c "\" then
        match rest with
        | String c' rest' => Lit c' :: parse fuel' rest'
        | EmptyString => [Lit c]
        end
      else Lit c :: parse fuel' rest
  | _, _ => []
  end.

Fixpoint match_tokens (ts : list token) (s : string) : bool :=
  match ts with
  | [] => String.eqb s ""
  | AnyString :: ts' =>
      (fix from (s : string) : bool :=
         match_tokens ts' s ||
         match s with
         | String _ s' => from s'
         | EmptyString => false
         end) s
  | Lit c :: ts' =>
      match s with
      | String c' s' => Ascii.eqb c c' && match_tokens ts' s'
      | EmptyString => false
      end
  | AnyChar :: ts' =>
      match s with
      | String _ s' => match_tokens ts' s'
      | EmptyString => false
      end
  | OneOf neg ranges :: ts' =>
      match s with
      | String c' s' => Re.in_class neg ranges c' && match_tokens ts' s'
      | EmptyString => false
      end
  end.

Definition glob (pattern s : string) : bool :=
  match_tokens (parse (String.length pattern) pattern) s.

(** [redis.ResponseError], a [redis.RedisError]. *)
Inductive error : Type := ResponseError (message : string).

Definition wrongtype : error :=
  ResponseError
    "WRONGTYPE Operation against a key holding the wrong kind of value".

Section Store.
Context {P Q : Type}.

(** A key holds a string, with the instant at which it expires if it
    has one, or a list.  [P] is what the strings stand for and [Q] what
    the list items stand for. *)
Inductive entry : Type :=
  | Str (value : P) (expires : option Z)
  | Lst (items : list Q).

(** The keyspace and the messages sent on the channels. *)
Record db : Type := {
  keys : gmap string entry;
  published : list (string * P)
}.

Definition with_keys (d : db) (ks : gmap string entry) : db :=
  {| keys := ks; published := published d |}.

(** A key is gone from the instant at which it expires. *)
Definition live (now : Z) (e : entry) : bool :=
  match e with
  | Str _ (Some t) => now <? t
  | _ => true
  end.

Definition lookup (now : Z) (d : db) (key : string) : option entry :=
  match keys d !! key with
  | Some e => if live now e then Some e else None
  | None => None
  end.

(** [GET]. *)
Definition get (now : Z) (d : db) (key : string) : error + option P :=
  match lookup now d key with
  | Some (Str v _) => inr (Some v)
  | Some (Lst _) => inl wrongtype
  | None => inr None
  end.

(** [SET] and [SETEX]. *)
Definition set (d : db) (key : string) (v : P) : db :=
  with_keys d (<[key := Str v None]> (keys d)).

Definition setex (now : Z) (d : db) (key : string) (seconds : Z) (v : P)
  : db :=
  with_keys d (<[key := Str v (Some (now + seconds))]> (keys d)).

(** [DEL]: the number of keys removed. *)
Definition delete (now : Z) (d : db) (key : string) : db * Z :=
  match lookup now d key with
  | Some _ => (with_keys d (base.delete key (keys d)), 1)
  | None => (d, 0)
  end.

(** [RPUSH]. *)
Definition rpush (now : Z) (d : db) (key : string) (item : Q)
  : error + db :=
  match lookup now d key with
  | Some (Lst items) =>
      inr (with_keys d (<[key := Lst (items ++ [item])]> (keys d)))
  | Some (Str _ _) => inl wrongtype
  | None => inr (with_keys d (<[key := Lst [item]]> (keys d)))
  end.

(** [BLPOP] on one key: the head of the list, or [None] when the
    timeout passes; a list that becomes empty is removed. *)
Definition blpop (now : Z) (d : db) (key : string)
  : error + (db * option (string * Q)) :=
  match lookup now d key with
  | Some (Lst (item :: rest)) =>
      let ks :=
        match rest with
        | [] => base.delete key (keys d)
        | _ :: _ => <[key := Lst rest]> (keys d)
        end in
      inr (with_keys d ks, Some (key, item))
  | Some (Lst []) => inr (d, None)
  | Some (Str _ _) => inl wrongtype
  | None => inr (d, None)
  end.

(** [scan_iter(match=pattern)]: the keys that match, in an order that
    the server does not specify. *)
Definition scan_iter (now : Z) (d : db) (pattern : string) : list string :=
  List.filter
    (fun key =>
       glob pattern key &&
       match lookup now d key with Some _ => true | None => false end)
    (map fst (map_to_list (keys d))).

(** [PUBLISH]. *)
Definition publish (d : db) (channel : string) (message : P) : db :=
  {| keys := keys d; published := published d ++ [(channel, message)] |}.

End Store.

Arguments entry : clear implicits.
Arguments db : clear implicits.

End Redis.

(* ===================================================================== *)
(** ** Jobs and installed applications of the control plane
       ([panel/app.py]) *)
(* ===================================================================== *)

Module Control.

(** The record kept for an installed application. *)
Record Installation : Type := {
  app_id : string;
  server_id : string;
  job_id : string;
  inputs : Dict.dict string;
  installed_at : string
}.

(** What the strings of the keyspace stand for: the JSON text of a job,
    of a result or of an installation record.  The lists are the job
    queues of the agents. *)
Inductive payload : Type :=
  | PJob (job : Json.Job)
  | PResult (result : Agent.Result)
  | PInstalled (data : Installation).

Definition db : Type := Redis.db payload Json.Job.

Definition installed_key (server_id app_id : string) : string :=
  "installed:" +:+ server_id +:+ ":" +:+ app_id.

Definition job_key (job_id : string) : string := "job:" +:+ job_id.

Definition result_key (job_id : string) : string :=
  "job:" +:+ job_id +:+ ":result".

Definition queue_key (server_id : string) : string :=
  "agent:" +:+ server_id +:+ ":jobs".

(** [InstalledAppsManager.mark_installed]. *)
Definition mark_installed (installed_at : string)
    (app_id server_id job_id : string) (inputs : Dict.dict string) (d : db)
  : db :=
  let key := installed_key server_id app_id in
  let data :=
    {| app_id := app_id; server_id := server_id; job_id := job_id;
       inputs := inputs; installed_at := installed_at |} in
  Redis.set d key (PInstalled data).

(** The loop [for key in ...: data = self.redis.get(key); if data: ...]
    of [list_installed]. *)
Fixpoint read_all (now : Z) (d : db) (keys : list string)
    (apps : list payload) : Redis.error + list payload :=
  match keys with
  | key :: rest =>
      match Redis.get now d key with
      | inr (Some data) => read_all now d rest (apps ++ [data])
      | inr None => read_all now d rest apps
      | inl e => inl e
      end
  | [] => inr apps
  end.

(** [InstalledAppsManager.list_installed]. *)
Definition list_installed (now : Z) (server_id : string) (d : db)
  : Redis.error + list payload :=
  read_all now d
    (Redis.scan_iter now d ("installed:" +:+ server_id +:+ ":*")) [].

(** [InstalledAppsManager.uninstall]. *)
Definition uninstall (now : Z) (app_id server_id : string) (d : db)
  : bool * db :=
  let key := installed_key server_id app_id in
  let '(d, removed) := Redis.delete now d key in
  (0 <? removed, d).

(** [JobManager.create_job]; [job_id] is the fresh [uuid4] and
    [created_at] the reading of the clock. *)
Definition create_job (SECRET_KEY : string) (now : Z)
    (job_id created_at : string) (app_id : string)
    (inputs : Dict.dict string) (server_id user_id : string) (d : db)
  : (Redis.error + string) * db :=
  let job :=
    Panel.create_job SECRET_KEY job_id created_at app_id inputs server_id
      user_id in
  let d := Redis.setex now d (job_key job_id) 86400 (PJob job) in
  match Redis.rpush now d (queue_key server_id) job with
  | inr d => (inr job_id, d)
  | inl e => (inl e, d)
  end.

(** [JobManager.get_job] and [JobManager.get_job_result]. *)
Definition get_job (now : Z) (job_id : string) (d : db)
  : Redis.error + option payload :=
  Redis.get now d (job_key job_id).

Definition get_job_result (now : Z) (job_id : string) (d : db)
  : Redis.error + option payload :=
  Redis.get now d (result_key job_id).

(** [job.get(key)] on what [json.loads] returned, when it is a text. *)
Definition get_str (p : payload) (key : string) : option string :=
  match p with
  | PJob job =>
      match Dict.get job key with
      | Some (Json.JS s) => Some s
      | _ => None
      end
  | PResult result =>
      if String.eqb key "job_id" then
        match Agent.job_id result with
        | Json.JS s => Some s
        | Json.JD _ => None
        end
      else if String.eqb key "status" then Some (Agent.status result)
      else if String.eqb key "output" then Some (Agent.output result)
      else if String.eqb key "started_at"
      then Some (Agent.started_at result)
      else if String.eqb key "completed_at"
      then Agent.completed_at result
      else if String.eqb key "error" then Agent.error result
      else None
  | PInstalled data =>
      if String.eqb key "app_id" then Some (app_id data)
      else if String.eqb key "server_id" then Some (server_id data)
      else if String.eqb key "job_id" then Some (job_id data)
      else if String.eqb key "installed_at" then Some (installed_at data)
      else None
  end.

(** [wanted and job.get(key) != wanted]. *)
Definition filtered_out (wanted : option string) (job : payload)
    (key : string) : bool :=
  match wanted with
  | Some w =>
      Registry.truthy wanted &&
      negb (match get_str job key with
            | Some s => String.eqb s w
            | None => false
            end)
  | None => false
  end.

Fixpoint list_loop (now : Z) (user_id server_id : option string) (d : db)
    (keys : list string) (jobs : list payload)
  : Redis.error + list payload :=
  match keys with
  | key :: rest =>
      if negb (Py.substring_of ":result" key) then
        match Redis.get now d key with
        | inr (Some job) =>
            if filtered_out user_id job "user_id"
            then list_loop now user_id server_id d rest jobs
            else if filtered_out server_id job "server_id"
            then list_loop now user_id server_id d rest jobs
            else list_loop now user_id server_id d rest (jobs ++ [job])
        | inr None => list_loop now user_id server_id d rest jobs
        | inl e => inl e
        end
      else list_loop now user_id server_id d rest jobs
  | [] => inr jobs
  end.

(** [JobManager.list_jobs]. *)
Definition list_jobs (now : Z) (user_id server_id : option string) (d : db)
  : Redis.error + list payload :=
  list_loop now user_id server_id d (Redis.scan_iter now d "job:*") [].

(** The body of [request.json] for an installation. *)
Record InstallRequest : Type := {
  request_inputs : option (Dict.dict string);
  request_server_id : option string;
  request_user_id : option string
}.

(** The JSON bodies of the responses. *)
Inductive Body : Type :=
  | Failure (error : string)
  | ValidationFailure (error : string) (errors : list string)
  | JobCreated (job_id : string) (message : string)
  | Done (message : string)
  | JobStatus (job : payload) (result : option payload).

Definition Response : Type := (Body * Z)%type.

(** A view is a function of the keyspace; an exception of the server
    leaves the view (status 500). *)
Definition View : Type := db -> (Redis.error + Response) * db.

(** [login_required]. *)
Definition login_required (session : option string) (f : View) : View :=
  fun d =>
    match session with
    | None => (inr (Failure "Authentication required", 401), d)
    | Some _ => f d
    end.

(** [install_app], with the readings of [uuid4] and of the clock that
    it makes. *)
Definition install_app (registry : Registry.registry) (SECRET_KEY : string)
    (session : option string) (now : Z)
    (job_id created_at installed_at : string)
    (app_id : string) (data : InstallRequest) : View :=
  login_required session (fun d =>
    match Registry.get registry app_id with
    | None => (inr (Failure "Application not found", 404), d)
    | Some manifest =>
        let inputs :=
          match request_inputs data with Some i => i | None => [] end in
        let server_id := request_server_id data in
        let user_id :=
          match request_user_id data with
          | Some u => u
          | None => "anonymous"
          end in
        match server_id with
        | Some server_id =>
            if negb (Registry.truthy (Some server_id))
            then (inr (Failure "server_id is required", 400), d)
            else
              let '(valid, errors) :=
                Panel.validate_inputs (Registry.manifest manifest) inputs in
              if negb valid
              then (inr (ValidationFailure "Input validation failed" errors,
                         400), d)
              else
                match create_job SECRET_KEY now job_id created_at app_id
                        inputs server_id user_id d with
                | (inr job_id, d) =>
                    let d :=
                      mark_installed installed_at app_id server_id job_id
                        inputs d in
                    (inr (JobCreated job_id "Installation job created", 201),
                     d)
                | (inl e, d) => (inl e, d)
                end
        | None => (inr (Failure "server_id is required", 400), d)
        end
    end).

(** [request.args.get('server_id', 'agent-001')]. *)
Definition server_arg (server_id : option string) : string :=
  match server_id with Some s => s | None => "agent-001" end.

(** [uninstall_app]. *)
Definition uninstall_app (session : option string) (now : Z)
    (app_id : string) (server_id : option string) : View :=
  login_required session (fun d =>
    match uninstall now app_id (server_arg server_id) d with
    | (true, d) =>
        (inr (Done ("Application " +:+ app_id +:+ " uninstalled"), 200), d)
    | (false, d) => (inr (Failure "Application not found", 404), d)
    end).

(** [get_job], the view. *)
Definition get_job_view (session : option string) (now : Z)
    (job_id : string) : View :=
  login_required session (fun d =>
    match get_job now job_id d with
    | inr (Some job) =>
        match get_job_result now job_id d with
        | inr result => (inr (JobStatus job result, 200), d)
        | inl e => (inl e, d)
        end
    | inr None => (inr (Failure "Job not found", 404), d)
    | inl e => (inl e, d)
    end).

End Control.

(* ===================================================================== *)
(** ** The agent daemon on the shared keyspace ([agent/daemon.py]) *)
(* ===================================================================== *)

Module Daemon.

(** [AgentDaemon]: the flag of the loop, the executor and the
    connection. *)
Record State : Type := {
  running : bool;
  executor : Agent.State;
  redis : Control.db
}.

Section Daemon.
Context (w : Agent.World) (AGENT_ID : string).

(** [AgentDaemon.shutdown].  The signal goes to the process group of
    [current_process] whenever that attribute is set; what [os.killpg]
    raises is dropped. *)
Definition shutdown (st : State) : State :=
  {| running := false;
     executor :=
       match Agent.current_process (executor st) with
       | Some _ =>
           {| Agent.ticks := Agent.ticks (executor st);
              Agent.trace :=
                Agent.trace (executor st) ++ [Agent.Killpg Agent.SIGTERM];
              Agent.current_process := Agent.current_process (executor st) |}
       | None => executor st
       end;
     redis := redis st |}.

(** [AgentDaemon.poll_jobs].  A [RedisError] is logged and gives
    [None]; the [KeyError] of [job['job_id']] is not caught. *)
Definition poll_jobs (now : Z) (d : Control.db)
  : (Py.exn + option Json.Job) * Control.db :=
  match Redis.blpop now d (Control.queue_key AGENT_ID) with
  | inr (d, Some (_, job)) =>
      match Dict.get job "job_id" with
      | Some _ => (inr (Some job), d)
      | None => (inl (Py.KeyError "job_id"), d)
      end
  | inr (d, None) => (inr None, d)
  | inl e => (inr None, d)
  end.

(** [AgentDaemon.publish_result]. *)
Definition publish_result (now : Z) (result : Agent.Result)
    (d : Control.db) : Control.db :=
  let result_key :=
    "job:" +:+ Json.py_str (Agent.job_id result) +:+ ":result" in
  let d := Redis.setex now d result_key 3600 (Control.PResult result) in
  let channel :=
    "job:" +:+ Json.py_str (Agent.job_id result) +:+ ":updates" in
  Redis.publish d channel (Control.PResult result).

(** One turn of the loop of [AgentDaemon.run]: [poll_jobs] at the
    instant [now], then [execute_job] and [publish_result] at the
    instant [later].  An exception ends the loop and the process. *)
Definition turn (now later : Z) (st : State) : option Py.exn * State :=
  match poll_jobs now (redis st) with
  | (inr (Some job), d) =>
      match Agent.execute_job w job (executor st) with
      | (inr result, ex) =>
          (None, {| running := running st; executor := ex;
                    redis := publish_result later result d |})
      | (inl e, ex) =>
          (Some e, {| running := running st; executor := ex; redis := d |})
      end
  | (inr None, d) =>
      (None, {| running := running st; executor := executor st;
                redis := d |})
  | (inl e, d) =>
      (Some e, {| running := running st; executor := executor st;
                  redis := d |})
  end.

(** [AgentDaemon.run] over the instants of its turns. *)
Fixpoint run (instants : list (Z * Z)) (st : State) : option Py.exn * State :=
  match instants with
  | (now, later) :: rest =>
      if running st then
        match turn now later st with
        | (None, st) => run rest st
        | (Some e, st) => (Some e, st)
        end
      else (None, st)
  | [] => (None, st)
  end.

End Daemon.

End Daemon.

(* ===================================================================== *)
(** ** The keyspace that the control plane and the agents share *)
(* ===================================================================== *)

Module Keyspace.

Definition empty : Control.db :=
  {| Redis.keys := ∅; Redis.published := [] |}.

(** What a key may hold: a job queue under [agent:], a job or a result
    under [job:] (a result under a key that contains [:result]), an
    installation record under [installed:]. *)
Definition kind_ok (key : string)
    (e : Redis.entry Control.payload Json.Job) : bool :=
  match e with
  | Redis.Lst _ => String.prefix "agent:" key
  | Redis.Str (Control.PJob _) _ => String.prefix "job:" key
  | Redis.Str (Control.PResult _) _ =>
      String.prefix "job:" key && Py.substring_of ":result" key
  | Redis.Str (Control.PInstalled _) _ => String.prefix "installed:" key
  end.

Definition well_typed (d : Control.db) : Prop :=
  forall key e, Redis.keys d !! key = Some e -> kind_ok key e = true.

(** The jobs that wait for the agent [server_id], the next one first. *)
Definition queue (now : Z) (d : Control.db) (server_id : string)
  : list Json.Job :=
  match Redis.lookup now d (Control.queue_key server_id) with
  | Some (Redis.Lst items) => items
  | _ => []
  end.

(** The keyspace as the agent [AGENT_ID] sees it: its queue, the results
    stored and the results sent; [Agent.run_once] is a turn of the loop
    on this view. *)
Definition results (d : Control.db) : gmap string Agent.Result :=
  omap (fun e =>
          match e with
          | Redis.Str (Control.PResult r) _ => Some r
          | _ => None
          end) (Redis.keys d).

Definition messages (d : Control.db) : list (string * Agent.Result) :=
  omap (fun m =>
          match snd m with
          | Control.PResult r => Some (fst m, r)
          | _ => None
          end) (Redis.published d).

Definition view (AGENT_ID : string) (d : Control.db) : Agent.Broker :=
  {| Agent.queue := queue 0 d AGENT_ID;
     Agent.store := results d;
     Agent.published := messages d |}.

(** A text without the special characters of the patterns. *)
Definition plain (s : string) : bool :=
  forallb (fun c => negb (existsb (Ascii.eqb c) ["*"; "?"; "["; "\"]%char))
    (list_ascii_of_string s).

End Keyspace.

(* ===================================================================== *)
(** ** A scenario: one application, one request *)
(* ===================================================================== *)

Module Scenario.

(** The registry of a control plane whose installers directory holds
    the nginx manifest of [Fixtures] and a directory that fails to
    load. *)
Definition nginx : Registry.Entry :=
  {| Registry.manifest := Fixtures.ssl_manifest;
     Registry.name := Some "Nginx";
     Registry.description := Some "High-performance web server";
     Registry.category := Some "web-servers";
     Registry.tags := Some ["web-servers"; "proxy"] |}.

Definition registry : Registry.registry :=
  Registry.load_all
    (Some [{| Registry.is_dir := true; Registry.has_manifest := true;
              Registry.load := inl (Py.YAMLError "could not parse") |};
           {| Registry.is_dir := true; Registry.has_manifest := true;
              Registry.load := inr nginx |}]).

(** A request to install nginx with SSL on [agent-001]. *)
Definition request : Control.InstallRequest :=
  {| Control.request_inputs :=
       Some [("enable_ssl", "true"); ("ssl_port", "443")];
     Control.request_server_id := Some "agent-001";
     Control.request_user_id := None |}.

(** A queue that holds one job without [app_id]. *)
Definition broken_job : Json.Job := [("job_id", Json.JS "job-9")].

Definition broken_queue : Control.db :=
  Redis.with_keys Keyspace.empty
    (<[Control.queue_key "agent-001" := Redis.Lst [broken_job]]> ∅).

(** An agent whose secret is not that of the control plane. *)
Definition other_secret : Agent.World :=
  {| Agent.SECRET_KEY := "another-secret";
     Agent.environ := Agent.environ Fixtures.slow_host;
     Agent.exists_ := Agent.exists_ Fixtures.slow_host;
     Agent.safe_load := Agent.safe_load Fixtures.slow_host;
     Agent.chmod := Agent.chmod Fixtures.slow_host;
     Agent.popen := Agent.popen Fixtures.slow_host;
     Agent.utcnow := Agent.utcnow Fixtures.slow_host |}.

End Scenario.

(* ===================================================================== *)
(** ** The validator of the manifest model ([shared/schema.py]) *)
(* ===================================================================== *)

Module AppManifest.

(** The characters of [[a-zA-Z0-9_\-\.]]. *)
Definition safe : list (ascii * ascii) :=
  [("a","z"); ("A","Z"); ("0","9"); ("_","_"); ("-","-"); (".",".")]%char.

(** [^[a-zA-Z0-9_\-\.]+\.sh$] *)
Definition script_pattern : Re.regex :=
  Re.Seq Re.Bol
    (Re.Seq (Re.Plus (Re.Class false safe))
       (Re.Seq (Re.Chr ".") (Re.Seq (Re.Chr "s") (Re.Seq (Re.Chr "h")
          Re.Eol)))).

(** [AppManifest.validate_script_path]. *)
Definition validate_script_path (v : string) : Py.exn + string :=
  if negb (Re.match_ script_pattern v)
  then inl (Py.ValueError "Script must be a .sh file with safe characters")
  else inr v.

(** A text made of safe characters. *)
Definition all_safe (s : string) : bool :=
  forallb (Re.in_class false safe) (list_ascii_of_string s).

End AppManifest.

(* ===================================================================== *)
(** * Properties *)
(* ===================================================================== *)

Import Schema.

(** ** The built-ins on known values *)

Example int_values :
  Py.int "80" = Some 80 /\ Py.int "  -1_000 " = Some (-1000) /\
  Py.int "0007" = Some 7 /\ Py.int "not-a-port" = None /\
  Py.int "1__0" = None /\ Py.int "_1" = None /\ Py.int "1_" = None /\
  Py.int "" = None /\ Py.int "+ 1" = None /\ Py.int "1." = None /\
  Py.int "0x10" = None /\ Py.int "1e5" = None.
Proof. repeat split; reflexivity. Qed.

(** A literal of 4300 digits is read, one of 4301 digits is not. *)
Example int_digit_cap :
  let ones (n : Z) : string :=
    string_of_list_ascii (repeat "1"%char (Z.to_nat n)) in
  Py.int (ones 4300) <> None /\ Py.int (ones 4301) = None.
Proof. vm_compute. repeat split. discriminate. Qed.

(** Paths as [pathlib] writes them: a segment that starts with a slash
    takes the place of what stands before it, empty and [.] components
    are dropped, [..] is kept. *)
Example path_values :
  Agent.path [Agent.INSTALLERS_PATH; "nginx"; "manifest.yml"]
    = "/opt/provisioning/installers/nginx/manifest.yml" /\
  Agent.path [Agent.INSTALLERS_PATH; "/etc"; "manifest.yml"]
    = "/etc/manifest.yml" /\
  Agent.path [Agent.INSTALLERS_PATH; "nginx"; "/bin/sh"] = "/bin/sh" /\
  Agent.path [Agent.INSTALLERS_PATH; "../x"; "install.sh"]
    = "/opt/provisioning/installers/../x/install.sh" /\
  Agent.path [Agent.INSTALLERS_PATH; ""; "manifest.yml"]
    = "/opt/provisioning/installers/manifest.yml" /\
  Agent.path [Agent.INSTALLERS_PATH; "a//b/./c/"; "manifest.yml"]
    = "/opt/provisioning/installers/a/b/c/manifest.yml" /\
  Agent.path [Agent.INSTALLERS_PATH; "//x"; "m"] = "//x/m" /\
  Agent.path [Agent.INSTALLERS_PATH; "///x"; "m"] = "/x/m" /\
  Agent.path [""; ""] = ".".
Proof. vm_compute. repeat split. Qed.

Example float_values :
  Py.float "0.5" = Some (Py.Finite false (2 ^ 52) (-53)) /\
  Py.float "0.1" = Some (Py.Finite false 7205759403792794 (-56)) /\
  Py.float "0.99999999999999999999" = Some (Py.Finite false (2 ^ 53) (-53)) /\
  Py.float "1." = Some (Py.Finite false (2 ^ 52) (-52)) /\
  Py.float "1_0.5e1" = Some (Py.Finite false (105 * 2 ^ 46) (-46)) /\
  Py.float "5e-324" = Some (Py.Finite false 1 (-1074)) /\
  Py.float "1.7976931348623157e308" = Some (Py.Finite false (2 ^ 53 - 1) 971) /\
  Py.float "1e400" = Some (Py.Inf false) /\
  Py.float "-Infinity" = Some (Py.Inf true) /\
  Py.float "nan" = Some Py.NaN /\
  Py.float "abc" = None /\ Py.float "." = None /\ Py.float "1e" = None /\
  Py.float "1_.0" = None /\ Py.float "1._0" = None /\ Py.float "+ 1" = None /\
  Py.float "infinit" = None /\ Py.float "0x10" = None.
Proof. vm_compute. repeat split; reflexivity. Qed.

Example sha256_vectors :
  Sha256.hexdigest (Bytes.encode "abc")
    = "ba7816bf8f01cfea414140de5dae2223b00361a396177a9cb410ff61f20015ad" /\
  Sha256.hexdigest (Bytes.encode "")
    = "e3b0c44298fc1c149afbf4c8996fb92427ae41e4649b934ca495991b7852b855" /\
  Sha256.hexdigest
      (Bytes.encode "abcdbcdecdefdefgefghfghighijhijkijkljklmklmnlmnomnopnopq")
    = "248d6a61d20638b8e5c026930c3e6039a33ce45964ff2167f6ecedd419db06c1".
Proof. vm_compute. repeat split; reflexivity. Qed.

Example sha256_constants :
  length Sha256.K = 64%nat /\
  nth 0 Sha256.K 0 = 0x428a2f98 /\ nth 63 Sha256.K 0 = 0xc67178f2 /\
  nth 0 Sha256.H0 0 = 0x6a09e667 /\ nth 7 Sha256.H0 0 = 0x5be0cd19.
Proof. repeat split; reflexivity. Qed.

Example hmac_vector :
  Hmac.hexdigest (Bytes.encode "Jefe")
      (Bytes.encode "what do ya want for nothing?")
    = "5bdcc146bf60754e6a042426089575c75a003f089d2739839dec58b964ec3843".
Proof. vm_compute. reflexivity. Qed.

Example dumps_nginx_job :
  let q s := Json.dquote +:+ s +:+ Json.dquote in
  Json.dumps Fixtures.nginx_job
    = "{" +:+ q "app_id" +:+ ": " +:+ q "nginx" +:+ ", " +:+ q "inputs"
          +:+ ": {}, " +:+ q "job_id" +:+ ": " +:+ q "123" +:+ "}".
Proof. vm_compute. reflexivity. Qed.

Example escape_values :
  Json.escape ("x\y" +:+ String "127" (String "001" (String "010" EmptyString)))
    = "x\\y\u007f\u0001\n".
Proof. vm_compute. reflexivity. Qed.

Example email_values :
  Panel.validate_field (Fixtures.plain_field "email" TEmail "Email" None)
      "user@example.com" = (true, None) /\
  Panel.validate_field (Fixtures.plain_field "email" TEmail "Email" None)
      "invalid-email" = (false, Some "Email must be a valid email").
Proof. vm_compute. split; reflexivity. Qed.

(** ** The control-plane validator *)

Lemma is_empty_false (value : string) :
  value <> "" -> Panel.is_empty value = false.
Proof. intros H. unfold Panel.is_empty. by apply String.eqb_neq. Qed.

Lemma or_else_None {E : Type} (a b : option E) :
  (a ;;; b) = None <-> a = None /\ b = None.
Proof. destruct a, b; simpl; intuition congruence. Qed.

(** A non-empty value is accepted exactly when no check reports. *)
Lemma validate_field_nonempty (field : InputField) (value : string) :
  value <> "" ->
  Panel.validate_field field value =
    match Panel.type_validation field value ;;;
          Panel.validation_rules field value with
    | Some error => (false, Some error)
    | None => (true, None)
    end.
Proof.
  intros H. unfold Panel.validate_field.
  rewrite (is_empty_false _ H), andb_false_r. reflexivity.
Qed.

Lemma validate_field_accepts (field : InputField) (value : string) :
  value <> "" ->
  fst (Panel.validate_field field value) = true ->
  Panel.type_validation field value = None /\
  Panel.validation_rules field value = None.
Proof.
  intros H. rewrite (validate_field_nonempty _ _ H).
  destruct (_ ;;; _) eqn:E; simpl; [discriminate|].
  intros _. by apply or_else_None.
Qed.

Lemma panel_port_type (field : InputField) (value : string) :
  type field = TPort ->
  Panel.type_validation field value = None <->
  exists port, Py.int value = Some port /\ 1 <= port <= 65535.
Proof.
  intros T. unfold Panel.type_validation. rewrite T.
  destruct (Py.int value) as [port|].
  - destruct (1 <=? port) eqn:E1, (port <=? 65535) eqn:E2; simpl; split;
      try discriminate; try (intros _; exists port; split; [done|lia]);
      intros (p & Hp & ?); injection Hp as <-; first [reflexivity | lia].
  - split; [discriminate|]. intros (? & ? & ?); discriminate.
Qed.

(** ** The agent validator *)

Lemma agent_port_type (name : string) (field : InputField) (value : string) :
  type field = TPort ->
  Agent.type_validation name field value = None <->
  exists port, Py.int value = Some port /\ 1 <= port <= 65535.
Proof.
  intros T. unfold Agent.type_validation. rewrite T.
  destruct (Py.int value) as [port|].
  - destruct (1 <=? port) eqn:E1, (port <=? 65535) eqn:E2; simpl; split;
      try discriminate; try (intros _; exists port; split; [done|lia]);
      intros (p & Hp & ?); injection Hp as <-; first [reflexivity | lia].
  - split; [discriminate|]. intros (? & ? & ?); discriminate.
Qed.

(** When the agent's loop accepts, every declared field that was supplied
    passed its checks. *)
Lemma agent_loop_accepts (items : list (string * InputField))
    (d : Dict.dict string) (name : string) (field : InputField)
    (value : string) :
  In (name, field) items ->
  Dict.get d name = Some value ->
  Agent.validate_loop items (Json.JD d) = inr (true, None) ->
  Agent.check_value name field value = None.
Proof.
  intros Hin Hget. induction items as [|[n f] items IH]; [destruct Hin|].
  simpl. unfold Dict.contains.
  destruct Hin as [Heq|Hin].
  - injection Heq as -> ->. rewrite Hget. simpl. rewrite andb_false_r.
    destruct (Agent.check_value name field value); [discriminate|reflexivity].
  - destruct (get_required f && _); [discriminate|].
    destruct (Dict.get d n) as [v|]; [|by apply IH].
    destruct (Agent.check_value n f v); [discriminate|by apply IH].
Qed.

(** C7. Port type checking: a value that the control-plane validator
    accepts for a field of type port parses as an integer in [1, 65535],
    for every value of a required field and every non-empty value of an
    optional one (the empty string stands for no value there); so does
    every value supplied for a declared port field in inputs that the
    agent validator accepts; without further rules the control-plane
    validator accepts exactly those values.  Both validators accept "80"
    and reject "99999" and "not-a-port". *)
Theorem C7_port_bounds :
  (forall (field : InputField) (value : string),
     type field = TPort -> value <> "" \/ get_required field = true ->
     fst (Panel.validate_field field value) = true ->
     exists port, Py.int value = Some port /\ 1 <= port <= 65535) /\
  (forall (field : InputField) (value : string),
     type field = TPort -> value <> "" -> validation field = None ->
     (exists port, Py.int value = Some port /\ 1 <= port <= 65535) ->
     Panel.validate_field field value = (true, None)) /\
  (forall (manifest : Manifest) (inputs : Dict.dict string)
          (field_name : string) (field : InputField) (value : string),
     In (field_name, field)
        (Dict.comprehension name (fun inp => inp) (get_inputs manifest)) ->
     type field = TPort ->
     Dict.get inputs field_name = Some value ->
     Agent.validate_inputs manifest (Json.JD inputs) = inr (true, None) ->
     exists port, Py.int value = Some port /\ 1 <= port <= 65535) /\
  Panel.validate_field Fixtures.port_field "80" = (true, None) /\
  Panel.validate_field Fixtures.port_field "99999"
    = (false, Some "Port must be between 1 and 65535") /\
  Panel.validate_field Fixtures.port_field "not-a-port"
    = (false, Some "Port must be a valid port number") /\
  Agent.validate_inputs Fixtures.port_manifest (Json.JD [("port", "80")])
    = inr (true, None) /\
  Agent.validate_inputs Fixtures.port_manifest (Json.JD [("port", "99999")])
    = inr (false, Some "Port out of range: port") /\
  Agent.validate_inputs Fixtures.port_manifest (Json.JD [("port", "not-a-port")])
    = inr (false, Some "Invalid port: port").
Proof.
  split; [|split; [|split]].
  - intros field value T Hne Hok.
    assert (Hne' : value <> "").
    { destruct Hne as [Hne|Hreq]; [exact Hne|]. intros ->.
      unfold Panel.validate_field in Hok. rewrite Hreq in Hok. discriminate. }
    apply (panel_port_type field value T).
    by apply validate_field_accepts.
  - intros field value T Hne Hv Hport.
    rewrite (validate_field_nonempty _ _ Hne).
    apply (panel_port_type field value T) in Hport. rewrite Hport. simpl.
    unfold Panel.validation_rules, get_validation. rewrite Hv. reflexivity.
  - intros manifest inputs n field value Hin T Hget Hok.
    apply (agent_port_type n field value T).
    pose proof (agent_loop_accepts _ _ _ _ _ Hin Hget Hok) as Hc.
    unfold Agent.check_value in Hc. by apply or_else_None in Hc as [? _].
  - repeat split; vm_compute; reflexivity.
Qed.

Lemma C7_port_bounds_witness :
  exists port, Py.int "443" = Some port /\ 1 <= port <= 65535.
Proof.
  destruct C7_port_bounds as (Hpanel & _).
  apply (Hpanel Fixtures.ssl_port "443");
    [reflexivity | left; discriminate | reflexivity].
Defined.

(** ** Values that are not numbers, and empty values *)

(** C8. Numeric-bound quirk: when the supplied value does not parse as a
    float, the min_value and max_value checks report nothing, and the
    field is validated exactly as if it declared no numeric bounds: the
    required check, the type check, the pattern, the length bounds and the
    allowed values apply unchanged. *)
Theorem C8_non_numeric_skips_bounds (field : InputField) (value : string) :
  Py.float value = None ->
  Panel.check_min_value field (get_validation field) value = None /\
  Panel.check_max_value field (get_validation field) value = None /\
  Panel.validate_field field value
    = Panel.validate_field (Spec.drop_numeric_bounds field) value.
Proof.
  intros Hf.
  assert (Hmin : forall v, Panel.check_min_value field v value = None).
  { intros v. unfold Panel.check_min_value. rewrite Hf. by destruct (min_value v). }
  assert (Hmax : forall v, Panel.check_max_value field v value = None).
  { intros v. unfold Panel.check_max_value. rewrite Hf. by destruct (max_value v). }
  split; [apply Hmin|]. split; [apply Hmax|].
  unfold Panel.validate_field, Panel.validation_rules.
  rewrite !Hmin, !Hmax.
  unfold Panel.check_min_value, Panel.check_max_value, get_validation,
    get_required, Spec.drop_numeric_bounds.
  destruct field as [n t l r df [v|] vi]; simpl; reflexivity.
Qed.

Lemma C8_non_numeric_skips_bounds_witness :
  Panel.validate_field Fixtures.mode_field "qa"
    = (false, Some "Mode must be at least 3 characters") /\
  Panel.validate_field Fixtures.mode_field "testing"
    = (false, Some "Mode must be one of: dev, staging, production") /\
  Panel.validate_field Fixtures.mode_field "staging" = (true, None).
Proof.
  split; [|split].
  - destruct (C8_non_numeric_skips_bounds Fixtures.mode_field "qa")
      as (_ & _ & ->); [reflexivity|]. vm_compute. reflexivity.
  - destruct (C8_non_numeric_skips_bounds Fixtures.mode_field "testing")
      as (_ & _ & ->); [reflexivity|]. vm_compute. reflexivity.
  - destruct (C8_non_numeric_skips_bounds Fixtures.mode_field "staging")
      as (_ & _ & ->); [reflexivity|]. vm_compute. reflexivity.
Defined.

(** C10. Empty-optional shortcut of the control-plane validator: for a
    field with required = false an empty value is accepted whatever type
    and rules the field declares, and in [validate_inputs] such a field
    adds no error when its value is the empty string or is left out. *)
Theorem C10_empty_optional_shortcut (field : InputField) :
  required field = Some false ->
  Panel.validate_field field "" = (true, None) /\
  forall (rest : list InputField) (inputs : Dict.dict string)
         (errors : list string),
    Dict.get inputs (name field) = None \/
    Dict.get inputs (name field) = Some "" ->
    Panel.validate_loop (field :: rest) inputs errors
      = Panel.validate_loop rest inputs errors.
Proof.
  intros Hreq.
  assert (H : Panel.validate_field field "" = (true, None)).
  { unfold Panel.validate_field, get_required. rewrite Hreq. reflexivity. }
  split; [exact H|].
  intros rest inputs errors Hget. simpl.
  destruct (Panel.skipped field inputs); [reflexivity|].
  assert (Panel.get_value inputs field = "") as ->.
  { unfold Panel.get_value. by destruct Hget as [-> | ->]. }
  rewrite H. reflexivity.
Qed.

Lemma C10_empty_optional_shortcut_witness :
  Panel.validate_field Fixtures.guarded_port "" = (true, None) /\
  Panel.validate_field Fixtures.guarded_port "80"
    = (false, Some "Port must be at least 1024").
Proof.
  split.
  - apply (C10_empty_optional_shortcut Fixtures.guarded_port). reflexivity.
  - vm_compute. reflexivity.
Defined.

(** ** One error per field *)

Lemma head_option_list_app {A : Type} (a : option A) (l : list A) :
  head (option_list a ++ l) = (a ;;; head l).
Proof. by destruct a. Qed.

(** [validate_field] reports the first of the failing checks. *)
Lemma validate_field_first_error (field : InputField) (value : string) :
  Panel.validate_field field value =
    match head (Spec.all_field_errors field value) with
    | Some error => (false, Some error)
    | None => (true, None)
    end.
Proof.
  unfold Panel.validate_field, Spec.all_field_errors.
  destruct (get_required field && Panel.is_empty value); [reflexivity|].
  destruct (Panel.is_empty value); [reflexivity|].
  unfold Panel.validation_rules.
  rewrite !head_option_list_app.
  by destruct (Panel.check_allowed_values _ _ _).
Qed.

Lemma validate_loop_first_errors (fields : list InputField)
    (inputs : Dict.dict string) (errors : list string) :
  Panel.validate_loop fields inputs errors
    = errors ++ Spec.first_errors fields inputs.
Proof.
  revert errors. induction fields as [|field rest IH]; intros errors; simpl.
  { by rewrite app_nil_r. }
  unfold Spec.first_errors in *. simpl.
  destruct (Panel.skipped field inputs); simpl; [apply IH|].
  rewrite validate_field_first_error.
  destruct (head _) as [error|]; simpl; [|apply IH].
  rewrite IH, <- app_assoc. reflexivity.
Qed.

Lemma agent_loop_first_error (items : list (string * InputField))
    (inputs : Dict.dict string) :
  Agent.validate_loop items (Json.JD inputs) =
    inr match head (omap (Spec.agent_field_error inputs) items) with
        | Some error => (false, Some error)
        | None => (true, None)
        end.
Proof.
  induction items as [|[field_name field] rest IH]; [reflexivity|].
  simpl. unfold Dict.contains.
  destruct (Dict.get inputs field_name) as [value|]; simpl.
  - rewrite andb_false_r.
    destruct (Agent.check_value field_name field value); [reflexivity|apply IH].
  - rewrite andb_true_r. destruct (get_required field); [reflexivity|apply IH].
Qed.

Lemma first_errors_nil (manifest : Manifest) (inputs : Dict.dict string) :
  Spec.first_errors (get_inputs manifest) inputs = [] <->
  Spec.all_errors manifest inputs = [].
Proof.
  unfold Spec.all_errors, Spec.first_errors.
  induction (get_inputs manifest) as [|field rest IH]; simpl; [done|].
  destruct (Panel.skipped field inputs); simpl; [exact IH|].
  destruct (Spec.all_field_errors field _) as [|e es]; simpl; [exact IH|].
  split; discriminate.
Qed.

(** C3, as amended. The control-plane validator goes through all fields
    and reports, for each field that is not hidden, the first failing
    check only (in the order required, type, pattern, minimum length,
    maximum length, minimum value, maximum value, allowed values); it
    succeeds exactly when no field has a failing check.  The agent
    validator stops at the first declared field that has a failing check
    and returns that one error. *)
Theorem C3_first_error_per_field (manifest : Manifest)
    (inputs : Dict.dict string) :
  Panel.validate_inputs manifest inputs
    = (bool_decide (Spec.first_errors (get_inputs manifest) inputs = []),
       Spec.first_errors (get_inputs manifest) inputs) /\
  (fst (Panel.validate_inputs manifest inputs) = true <->
   Spec.all_errors manifest inputs = []) /\
  Agent.validate_inputs manifest (Json.JD inputs) =
    inr match head (omap (Spec.agent_field_error inputs)
                      (Dict.comprehension name (fun inp => inp)
                         (get_inputs manifest))) with
        | Some error => (false, Some error)
        | None => (true, None)
        end.
Proof.
  assert (Hp : Panel.validate_inputs manifest inputs
    = (bool_decide (Spec.first_errors (get_inputs manifest) inputs = []),
       Spec.first_errors (get_inputs manifest) inputs)).
  { unfold Panel.validate_inputs. rewrite validate_loop_first_errors. simpl.
    f_equal. by destruct (Spec.first_errors _ _). }
  split; [exact Hp|]. split; [|apply agent_loop_first_error].
  rewrite Hp. simpl. rewrite bool_decide_eq_true.
  apply first_errors_nil.
Qed.

(** C3, as stated, fails: a value that violates two rules of its field
    yields one error from the control plane, and of two invalid fields the
    agent reports one. *)
Lemma C3_counterexample :
  Spec.all_errors Fixtures.mode_manifest [("mode", "qa"); ("port", "0")]
    = ["Mode must be at least 3 characters";
       "Mode must be one of: dev, staging, production";
       "Port must be between 1 and 65535"] /\
  Panel.validate_inputs Fixtures.mode_manifest [("mode", "qa"); ("port", "0")]
    = (false, ["Mode must be at least 3 characters";
               "Port must be between 1 and 65535"]) /\
  Agent.validate_inputs Fixtures.mode_manifest
      (Json.JD [("mode", "qa"); ("port", "0")])
    = inr (false, Some "Value too short: mode").
Proof. repeat split; vm_compute; reflexivity. Qed.

(** ** Conditional visibility *)

(** The control plane skips a field when one of its [visible_if]
    conditions does not hold: the field is neither required nor
    validated. *)
Lemma panel_hidden_field_skipped (field : InputField)
    (conditions : Dict.dict string) (key expected : string)
    (rest : list InputField) (inputs : Dict.dict string)
    (errors : list string) :
  visible_if field = Some conditions ->
  In (key, expected) conditions ->
  Dict.get inputs key <> Some expected ->
  Panel.validate_loop (field :: rest) inputs errors
    = Panel.validate_loop rest inputs errors.
Proof.
  intros Hv Hin Hne. simpl.
  assert (Panel.skipped field inputs = true) as ->; [|reflexivity].
  unfold Panel.skipped. rewrite Hv.
  destruct conditions as [|c cs]; [destruct Hin|].
  apply negb_true_iff, not_true_is_false. intros Hall.
  unfold Panel.condition_met in Hall. rewrite forallb_forall in Hall.
  specialize (Hall _ Hin). simpl in Hall.
  destruct (Dict.get inputs key) as [actual|]; [|discriminate].
  apply String.eqb_eq in Hall. congruence.
Qed.

(** C4. On the manifest with [enable_ssl] and [ssl_port], the control
    plane accepts enable_ssl = "false", rejects enable_ssl = "true" alone
    and accepts it together with ssl_port = "443"; the agent agrees on the
    last two but rejects enable_ssl = "false", because its validator never
    reads [visible_if]. *)
Theorem C4_agent_ignores_visible_if :
  Panel.validate_inputs Fixtures.ssl_manifest [("enable_ssl", "false")]
    = (true, []) /\
  Panel.validate_inputs Fixtures.ssl_manifest [("enable_ssl", "true")]
    = (false, ["SSL Port is required"]) /\
  Panel.validate_inputs Fixtures.ssl_manifest
      [("enable_ssl", "true"); ("ssl_port", "443")]
    = (true, []) /\
  Agent.validate_inputs Fixtures.ssl_manifest
      (Json.JD [("enable_ssl", "false")])
    = inr (false, Some "Required field missing: ssl_port") /\
  Agent.validate_inputs Fixtures.ssl_manifest
      (Json.JD [("enable_ssl", "true")])
    = inr (false, Some "Required field missing: ssl_port") /\
  Agent.validate_inputs Fixtures.ssl_manifest
      (Json.JD [("enable_ssl", "true"); ("ssl_port", "443")])
    = inr (true, None).
Proof. repeat split; vm_compute; reflexivity. Qed.

(** ** Job execution *)

Section Execution.
Context (w : Agent.World).

(** [execute_job] on a job that has its three keys: the [try] body, the
    [except] clause and the [finally] clause. *)
Lemma execute_job_eq (job : Json.Job) (job_id app_id inputs : Json.value)
    (st : Agent.State) :
  Spec.has_keys job job_id app_id inputs ->
  Agent.execute_job w job st =
    let '(r, st1) :=
      Agent.try_body w job app_id inputs (Spec.fresh_result w job_id st)
        (Spec.tick st) in
    let result :=
      match r with
      | inr result => result
      | inl (e, result) => Agent.set_error result (Py.exn_str e)
      end in
    (inr (Agent.set_completed_at result (Agent.utcnow w (Agent.ticks st1))),
     Spec.tick st1).
Proof.
  intros (H1 & H2 & H3).
  unfold Agent.execute_job, Agent.bind, Agent.lift, Agent.job_getitem.
  rewrite H1, H2, H3. simpl.
  destruct (Agent.try_body _ _ _ _ _ _) as [r st1]. reflexivity.
Qed.


Local Ltac early :=
  left; eexists; split; [reflexivity|]; solve [eauto].

(** The outcomes of the [try] body: it returns early or raises without
    touching the state, or every check passed and the outcome is that of
    [execute_script]. *)
Lemma try_body_cases (job : Json.Job) (app_id inputs : Json.value)
    (result : Agent.Result) (st : Agent.State) :
  (exists r,
     Agent.try_body w job app_id inputs result st = (r, st) /\
     ((exists msg, r = inr (Agent.set_error result msg)) \/
      (exists e, r = inl (e, result)))) \/
  (exists manifest env,
     Spec.checks_passed w job app_id inputs manifest env /\
     Agent.try_body w job app_id inputs result st =
       match Agent.execute_script w (Json.py_str app_id)
               (Agent.get_install_script manifest) env
               (Agent.get_timeout manifest) (Agent.job_id result) st with
       | (inr (exit_code, output), st') =>
           (inr (Agent.record_outcome result exit_code output), st')
       | (inl e, st') => (inl (e, result), st')
       end).
Proof.
  unfold Agent.try_body, Spec.checks_passed.
  destruct (Agent.validate_signature w job) as [e|[|]] eqn:Hsig; try early.
  destruct (Agent.validate_installer w app_id) as [e|[|]] eqn:Hwl; try early.
  destruct (Agent.load_manifest w app_id) as [e|manifest] eqn:Hm; try early.
  destruct (Agent.validate_inputs manifest inputs) as [e|[[|] error]] eqn:Hv;
    try early.
  destruct (Agent.prepare_environment w inputs manifest) as [e|env] eqn:He;
    try early.
  right. exists manifest, env. rewrite Hv, He. eauto 10.
Qed.

Lemma record_outcome_status (result : Agent.Result) (code : Z)
    (out : string) :
  Agent.status (Agent.record_outcome result code out)
    = (if code =? 0 then "success" else "failed") /\
  Agent.exit_code (Agent.record_outcome result code out) = code /\
  Agent.output (Agent.record_outcome result code out) = out /\
  Agent.job_id (Agent.record_outcome result code out) = Agent.job_id result.
Proof.
  unfold Agent.record_outcome, Agent.set_outcome, Agent.set_error.
  destruct (code =? 0); simpl; repeat split; reflexivity.
Qed.

(** C9. Totality of job execution: on a job that has the keys job_id,
    app_id and inputs, [execute_job] does not raise, whatever the
    surroundings do; it returns a result whose job_id is the job's, whose
    status is success or failed, and whose completed_at is set. *)
Theorem C9_execute_job_total (job : Json.Job)
    (job_id app_id inputs : Json.value) (st : Agent.State) :
  Spec.has_keys job job_id app_id inputs ->
  exists (r : Agent.Result) (st' : Agent.State),
    Agent.execute_job w job st = (inr r, st') /\
    Agent.job_id r = job_id /\
    (Agent.status r = "success" \/ Agent.status r = "failed") /\
    exists t, Agent.completed_at r = Some t.
Proof.
  intros Hk. rewrite (execute_job_eq _ _ _ _ _ Hk).
  destruct (try_body_cases job app_id inputs
              (Spec.fresh_result w job_id st) (Spec.tick st))
    as [(r & -> & [[msg ->]|[e ->]]) | (manifest & env & _ & ->)].
  - eexists _, _. split; [reflexivity|]. simpl. eauto.
  - eexists _, _. split; [reflexivity|]. simpl. eauto.
  - destruct (Agent.execute_script _ _ _ _ _ _ _) as [[e|[code out]] st1].
    + eexists _, _. split; [reflexivity|]. simpl. eauto.
    + eexists _, _. split; [reflexivity|]. simpl.
      destruct (record_outcome_status (Spec.fresh_result w job_id st) code out)
        as (-> & _ & _ & ->).
      split; [reflexivity|]. split; [|eauto].
      destruct (code =? 0); auto.
Qed.


(** An event is recorded only after every check let the job through. *)
Lemma launch_requires_checks (job : Json.Job)
    (job_id app_id inputs : Json.value) (st st' : Agent.State)
    (r : Agent.Result) :
  Spec.has_keys job job_id app_id inputs ->
  Agent.execute_job w job st = (inr r, st') ->
  Agent.trace st' <> Agent.trace st ->
  exists manifest env, Spec.checks_passed w job app_id inputs manifest env.
Proof.
  intros Hk Hrun Htr. rewrite (execute_job_eq _ _ _ _ _ Hk) in Hrun.
  destruct (try_body_cases job app_id inputs
              (Spec.fresh_result w job_id st) (Spec.tick st))
    as [(r0 & Hb & _) | (manifest & env & Hpass & _)]; [|eauto].
  rewrite Hb in Hrun. injection Hrun as _ <-. by destruct Htr.
Qed.

Lemma try_body_passed (job : Json.Job) (app_id inputs : Json.value)
    (manifest : Manifest) (env : gmap string string)
    (result : Agent.Result) (st : Agent.State) :
  Spec.checks_passed w job app_id inputs manifest env ->
  Agent.try_body w job app_id inputs result st =
    match Agent.execute_script w (Json.py_str app_id)
            (Agent.get_install_script manifest) env
            (Agent.get_timeout manifest) (Agent.job_id result) st with
    | (inr (exit_code, output), st') =>
        (inr (Agent.record_outcome result exit_code output), st')
    | (inl e, st') => (inl (e, result), st')
    end.
Proof.
  intros (Hsig & Hwl & Hm & (error & Hv) & He).
  unfold Agent.try_body. rewrite Hsig, Hwl, Hm, Hv, He. reflexivity.
Qed.

(** The sandbox on an installer that runs past the timeout: SIGTERM to
    the process group, five seconds of grace, SIGKILL, exit code 124. *)
Lemma execute_script_timeout (app_id script_name : string)
    (env : gmap string string) (timeout : Z) (job_id : Json.value)
    (p : Agent.Process) (st : Agent.State) :
  let script_path :=
    Agent.path [Agent.INSTALLERS_PATH; app_id; script_name] in
  Agent.exists_ w script_path = true ->
  Agent.chmod w script_path = None ->
  Agent.popen w script_path env = inr p ->
  timeout < Agent.run_seconds p ->
  Agent.execute_script w app_id script_name env timeout job_id st =
    (inr (124, "Execution timed out"),
     {| Agent.ticks := Agent.ticks st;
        Agent.trace := Agent.trace st ++
          [Agent.Chmod script_path; Agent.Popen script_path env;
           Agent.Wait timeout; Agent.Killpg Agent.SIGTERM; Agent.Sleep 5;
           Agent.Killpg Agent.SIGKILL];
        Agent.current_process := Some p |}).
Proof.
  intros script_path Hex Hch Hp Hlt.
  unfold Agent.execute_script. fold script_path. rewrite Hex, Hch. simpl.
  unfold Agent.try_except, Agent.bind, Agent.emit, Agent.lift,
    Agent.set_current_process, Agent.wait, Agent.bind, Agent.emit. simpl.
  rewrite Hp. simpl.
  assert ((Agent.run_seconds p <=? timeout) = false) as -> by lia.
  simpl. rewrite <- !app_assoc. reflexivity.
Qed.

(** C2, as amended. When an installer runs past its timeout the
    sandbox returns exit code 124 after SIGTERM to the process group, a
    grace period of five seconds and SIGKILL, and the result of the job
    has exit code 124, status failed, output "Execution timed out" and
    error "Script exited with code 124". *)
Theorem C2_timeout_is_reported_as_failed (job : Json.Job)
    (job_id app_id inputs : Json.value) (manifest : Manifest)
    (env : gmap string string) (p : Agent.Process) (st : Agent.State) :
  let script_path :=
    Agent.path [Agent.INSTALLERS_PATH; Json.py_str app_id;
                Agent.get_install_script manifest] in
  Spec.has_keys job job_id app_id inputs ->
  Spec.checks_passed w job app_id inputs manifest env ->
  Agent.exists_ w script_path = true ->
  Agent.chmod w script_path = None ->
  Agent.popen w script_path env = inr p ->
  Agent.get_timeout manifest < Agent.run_seconds p ->
  exists (r : Agent.Result) (st' : Agent.State),
    Agent.execute_job w job st = (inr r, st') /\
    Agent.exit_code r = 124 /\
    Agent.status r = "failed" /\
    Agent.output r = "Execution timed out" /\
    Agent.error r = Some "Script exited with code 124" /\
    Agent.trace st' = Agent.trace st ++
      [Agent.Chmod script_path; Agent.Popen script_path env;
       Agent.Wait (Agent.get_timeout manifest);
       Agent.Killpg Agent.SIGTERM; Agent.Sleep 5;
       Agent.Killpg Agent.SIGKILL].
Proof.
  intros script_path Hk Hpass Hex Hch Hp Hlt.
  rewrite (execute_job_eq _ _ _ _ _ Hk).
  rewrite (try_body_passed _ _ _ _ _ _ _ Hpass).
  rewrite (execute_script_timeout _ _ _ _ _ p _ Hex Hch Hp Hlt).
  eexists _, _. split; [reflexivity|]. simpl. repeat split; reflexivity.
Qed.

End Execution.

(** C2, as stated, fails: for an installer that runs past its timeout of
    600 seconds, the result that the agent stores under the job's key has
    exit code 124 and status failed; it is not timeout. *)
Lemma C2_counterexample :
  exists (b : Agent.Broker) (st : Agent.State) (r : Agent.Result),
    Agent.run_once Fixtures.slow_host Fixtures.one_job_queued Agent.initial
      = (inr b, st) /\
    Agent.store b !! "job:job-1:result" = Some r /\
    Agent.exit_code r = 124 /\
    Agent.status r = "failed" /\
    Agent.status r <> "timeout" /\
    Agent.trace st =
      [Agent.Chmod "/opt/provisioning/installers/nginx/install.sh";
       Agent.Popen "/opt/provisioning/installers/nginx/install.sh"
         Fixtures.ssl_env;
       Agent.Wait 600; Agent.Killpg Agent.SIGTERM; Agent.Sleep 5;
       Agent.Killpg Agent.SIGKILL].
Proof.
  eexists _, _, _. split; [vm_compute; reflexivity|].
  split; [vm_compute; reflexivity|].
  repeat split; try (vm_compute; reflexivity). discriminate.
Qed.

Lemma ssl_job_has_keys :
  Spec.has_keys Fixtures.ssl_job (Json.JS "job-1") (Json.JS "nginx")
    (Json.JD [("enable_ssl", "true"); ("ssl_port", "443")]).
Proof. repeat split. Qed.

Lemma ssl_job_passes :
  Spec.checks_passed Fixtures.slow_host Fixtures.ssl_job (Json.JS "nginx")
    (Json.JD [("enable_ssl", "true"); ("ssl_port", "443")])
    Fixtures.ssl_manifest Fixtures.ssl_env.
Proof.
  unfold Spec.checks_passed.
  split; [vm_compute; reflexivity|]. split; [vm_compute; reflexivity|].
  split; [reflexivity|]. split; [exists None; vm_compute; reflexivity|].
  vm_compute. reflexivity.
Qed.

Lemma C2_timeout_is_reported_as_failed_witness :
  exists (r : Agent.Result) (st' : Agent.State),
    Agent.execute_job Fixtures.slow_host Fixtures.ssl_job Agent.initial
      = (inr r, st') /\
    Agent.exit_code r = 124 /\
    Agent.status r = "failed" /\
    Agent.output r = "Execution timed out" /\
    Agent.error r = Some "Script exited with code 124" /\
    Agent.trace st' = Agent.trace Agent.initial ++
      [Agent.Chmod "/opt/provisioning/installers/nginx/install.sh";
       Agent.Popen "/opt/provisioning/installers/nginx/install.sh"
         Fixtures.ssl_env;
       Agent.Wait 600; Agent.Killpg Agent.SIGTERM; Agent.Sleep 5;
       Agent.Killpg Agent.SIGKILL].
Proof.
  apply (C2_timeout_is_reported_as_failed Fixtures.slow_host Fixtures.ssl_job
           (Json.JS "job-1") (Json.JS "nginx")
           (Json.JD [("enable_ssl", "true"); ("ssl_port", "443")])
           Fixtures.ssl_manifest Fixtures.ssl_env
           {| Agent.run_seconds := 4000; Agent.returncode := 0;
              Agent.read_log := inr "" |} Agent.initial).
  - exact ssl_job_has_keys.
  - exact ssl_job_passes.
  - reflexivity.
  - reflexivity.
  - reflexivity.
  - reflexivity.
Defined.

Lemma C9_execute_job_total_witness :
  exists (r : Agent.Result) (st' : Agent.State),
    Agent.execute_job Fixtures.slow_host Fixtures.ssl_job Agent.initial
      = (inr r, st') /\
    Agent.job_id r = Json.JS "job-1" /\
    (Agent.status r = "success" \/ Agent.status r = "failed") /\
    exists t, Agent.completed_at r = Some t.
Proof.
  apply (C9_execute_job_total Fixtures.slow_host Fixtures.ssl_job
           (Json.JS "job-1") (Json.JS "nginx")
           (Json.JD [("enable_ssl", "true"); ("ssl_port", "443")])
           Agent.initial).
  exact ssl_job_has_keys.
Defined.



(** ** The environment of the installer *)

Section Environment.
Context (w : Agent.World).

Local Abbreviation put_inputs :=
  (fold_left (fun (env : gmap string string) (kv : string * string) =>
                <[Py.upper (fst kv) := snd kv]> env)).

(** A variable of the environment after the loop over the inputs was
    there before, or is an upper-cased input name with its value. *)
Lemma inputs_env_origin (d : Dict.dict string) (env : gmap string string)
    (k v : string) :
  put_inputs d env !! k = Some v ->
  env !! k = Some v \/ exists name, In (name, v) d /\ Py.upper name = k.
Proof.
  revert env. induction d as [|[name value] d IH]; intros env; simpl.
  { auto. }
  intros H. apply IH in H as [H|(n & Hin & Hn)]; [|right; eauto].
  destruct (decide (Py.upper name = k)) as [<-|Hne].
  - rewrite lookup_insert_eq in H. injection H as ->. right. eauto.
  - rewrite lookup_insert_ne in H by done. auto.
Qed.

(** A binding survives the loop when no input takes its name. *)
Lemma inputs_env_keep (d : Dict.dict string) (env : gmap string string)
    (k v : string) :
  env !! k = Some v ->
  ~ In k (map (fun kv => Py.upper (fst kv)) d) ->
  put_inputs d env !! k = Some v.
Proof.
  revert env. induction d as [|[name value] d IH]; intros env H Hnot; simpl.
  { exact H. }
  simpl in Hnot. apply IH; [|tauto].
  rewrite lookup_insert_ne; [exact H|tauto].
Qed.

(** A name that no input takes is bound after the loop as it was
    before, or not at all. *)
Lemma inputs_env_other (d : Dict.dict string) (env : gmap string string)
    (k : string) :
  ~ In k (map (fun kv => Py.upper (fst kv)) d) ->
  put_inputs d env !! k = env !! k.
Proof.
  revert env. induction d as [|[name value] d IH]; intros env Hnot; simpl.
  { reflexivity. }
  simpl in Hnot. rewrite IH by tauto. apply lookup_insert_ne. tauto.
Qed.

(** Of the inputs that share an upper-cased name, the last one is
    bound. *)
Lemma inputs_env_last (d1 d2 : Dict.dict string) (env : gmap string string)
    (name v : string) :
  ~ In (Py.upper name) (map (fun kv => Py.upper (fst kv)) d2) ->
  put_inputs (d1 ++ (name, v) :: d2) env !! Py.upper name = Some v.
Proof.
  intros Hnot. rewrite fold_left_app. cbn [fold_left fst snd].
  rewrite inputs_env_other by exact Hnot. apply lookup_insert_eq.
Qed.

(** An input whose upper-cased name no other input shares is bound to
    its value. *)
Lemma inputs_env_bound (d : Dict.dict string) (env : gmap string string)
    (name v : string) :
  List.NoDup (map (fun kv => Py.upper (fst kv)) d) ->
  In (name, v) d ->
  put_inputs d env !! Py.upper name = Some v.
Proof.
  revert env. induction d as [|[n value] d IH]; intros env Hnd Hin.
  { destruct Hin. }
  simpl in *. inversion Hnd as [|? ? Hfresh Hnd']; subst.
  destruct Hin as [Heq|Hin]; [|by apply IH].
  injection Heq as -> ->.
  apply inputs_env_keep; [apply lookup_insert_eq|exact Hfresh].
Qed.

(** C6, as amended. The environment handed to the installer is the
    agent's own process environment, over which every supplied input is
    set under its upper-cased name, and then the two metadata variables
    PROVISIONING_JOB = true and DEBIAN_FRONTEND = noninteractive.  So
    every variable of it is a metadata variable, an upper-cased supplied
    input name with its value, or a variable inherited from the agent's
    process; and a supplied input is bound to its value when no other
    input and no metadata variable has the same upper-cased name.  It is
    a copy of the process environment: under a name that is neither a
    metadata name nor the upper-cased name of an input, the installer
    finds what the agent's process has, a variable with its value or
    none.  And of the inputs with the same upper-cased name the last one
    is bound. *)
Theorem C6_environment_construction (d : Dict.dict string)
    (manifest : Manifest) :
  exists env : gmap string string,
    Agent.prepare_environment w (Json.JD d) manifest = inr env /\
    env !! "PROVISIONING_JOB" = Some "true" /\
    env !! "DEBIAN_FRONTEND" = Some "noninteractive" /\
    (forall k v, env !! k = Some v ->
       (k = "PROVISIONING_JOB" /\ v = "true") \/
       (k = "DEBIAN_FRONTEND" /\ v = "noninteractive") \/
       (exists name, In (name, v) d /\ Py.upper name = k) \/
       Agent.environ w !! k = Some v) /\
    (forall name v,
       In (name, v) d ->
       List.NoDup (map (fun kv => Py.upper (fst kv)) d) ->
       Py.upper name <> "PROVISIONING_JOB" ->
       Py.upper name <> "DEBIAN_FRONTEND" ->
       env !! Py.upper name = Some v) /\
    (forall k,
       k <> "PROVISIONING_JOB" -> k <> "DEBIAN_FRONTEND" ->
       ~ In k (map (fun kv => Py.upper (fst kv)) d) ->
       env !! k = Agent.environ w !! k) /\
    (forall d1 name v d2,
       d = d1 ++ (name, v) :: d2 ->
       ~ In (Py.upper name) (map (fun kv => Py.upper (fst kv)) d2) ->
       Py.upper name <> "PROVISIONING_JOB" ->
       Py.upper name <> "DEBIAN_FRONTEND" ->
       env !! Py.upper name = Some v).
Proof.
  eexists. split; [reflexivity|].
  split; [by rewrite lookup_insert_ne, lookup_insert_eq|].
  split; [by rewrite lookup_insert_eq|]. split; [|split; [|split]].
  - intros k v H.
    destruct (decide (k = "DEBIAN_FRONTEND")) as [->|N1].
    { rewrite lookup_insert_eq in H. injection H as <-. auto. }
    rewrite lookup_insert_ne in H by done.
    destruct (decide (k = "PROVISIONING_JOB")) as [->|N2].
    { rewrite lookup_insert_eq in H. injection H as <-. auto. }
    rewrite lookup_insert_ne in H by done.
    apply inputs_env_origin in H as [H|H]; auto.
  - intros name v Hin Hnd N1 N2.
    rewrite !lookup_insert_ne by done.
    by apply inputs_env_bound.
  - intros k N1 N2 Hnot.
    rewrite !lookup_insert_ne by done.
    by apply inputs_env_other.
  - intros d1 name v d2 -> Hnot N1 N2.
    rewrite !lookup_insert_ne by done.
    by apply inputs_env_last.
Qed.

End Environment.

(** C6, as stated, fails: the installer also receives the variables of
    the agent's own process, here PATH, which is neither an input nor a
    metadata variable; and an input named like a metadata variable is not
    bound to its value. *)
Lemma C6_counterexample :
  exists env : gmap string string,
    Agent.prepare_environment Fixtures.slow_host
      (Json.JD [("debian_frontend", "dialog")]) Fixtures.ssl_manifest
      = inr env /\
    env !! "PATH" = Some "/usr/bin:/bin" /\
    "PATH" <> Py.upper "debian_frontend" /\
    "PATH" <> "PROVISIONING_JOB" /\ "PATH" <> "DEBIAN_FRONTEND" /\
    env !! Py.upper "debian_frontend" <> Some "dialog".
Proof.
  eexists. split; [reflexivity|].
  split; [vm_compute; reflexivity|].
  repeat split; discriminate.
Qed.

Lemma C6_environment_construction_witness :
  exists env : gmap string string,
    Agent.prepare_environment Fixtures.slow_host
      (Json.JD [("enable_ssl", "true"); ("ssl_port", "443")])
      Fixtures.ssl_manifest = inr env /\
    env !! "SSL_PORT" = Some "443" /\
    env !! "PATH" = Some "/usr/bin:/bin".
Proof.
  destruct (C6_environment_construction Fixtures.slow_host
              [("enable_ssl", "true"); ("ssl_port", "443")]
              Fixtures.ssl_manifest)
    as (env & Henv & _ & _ & _ & Hbound & Hcopy & _).
  exists env. split; [exact Henv|]. split.
  - apply (Hbound "ssl_port" "443").
    + right. left. reflexivity.
    + repeat constructor; simpl; intuition discriminate.
    + discriminate.
    + discriminate.
  - rewrite (Hcopy "PATH"); [reflexivity|discriminate|discriminate|].
    simpl. intuition discriminate.
Defined.

(** Two inputs whose names differ in case only: the later one is
    bound. *)
Example later_input_is_bound :
  exists env : gmap string string,
    Agent.prepare_environment Fixtures.slow_host
      (Json.JD [("Port", "80"); ("port", "8080")]) Fixtures.ssl_manifest
      = inr env /\
    env !! "PORT" = Some "8080".
Proof. eexists. split; [reflexivity|]. vm_compute. reflexivity. Qed.

(** ** Canonical serialisation *)

Section Canonical.
Context {V : Type}.

Local Abbreviation key_le := (@Spec.key_le V).

Local Instance key_le_trans : Transitive key_le.
Proof. intros a b c. unfold Spec.key_le. apply transitivity. Qed.








End Canonical.









(** ** Digests are hexadecimal ASCII text *)

Local Abbreviation is_word := Spec.is_word.
Local Abbreviation is_byte := Spec.is_byte.

Lemma add32_word (x y : Z) : is_word (Sha256.add32 x y).
Proof.
  unfold Spec.is_word, Sha256.add32, Sha256.w32. apply Z.mod_pos_bound. lia.
Qed.

Lemma compress_words (h : list Z) (block : Bytes.bytes) :
  Forall is_word (Sha256.compress h block).
Proof.
  unfold Sha256.compress, Sha256.zip_add. apply Forall_forall.
  intros x Hx. apply list_elem_of_In, in_map_iff in Hx as (p & <- & _).
  apply add32_word.
Qed.

Lemma blocks_words (n : nat) (h : list Z) (b : Bytes.bytes) :
  Forall is_word h -> Forall is_word (Sha256.blocks n h b).
Proof.
  revert h b. induction n as [|n IH]; intros h b Hh; simpl; [exact Hh|].
  apply IH, compress_words.
Qed.

Lemma H0_words : Forall is_word Sha256.H0.
Proof. unfold Sha256.H0, Spec.is_word. repeat constructor; lia. Qed.

Lemma word_bytes_range (w : Z) :
  is_word w -> Forall is_byte (Sha256.word_bytes w).
Proof.
  unfold Spec.is_word, Spec.is_byte, Sha256.word_bytes. intros Hw.
  repeat constructor; try (apply Z.mod_pos_bound; lia).
  - apply Z.div_pos; lia.
  - apply Z.div_lt_upper_bound; lia.
Qed.

Lemma digest_bytes (msg : Bytes.bytes) : Forall is_byte (Sha256.digest msg).
Proof.
  unfold Sha256.digest.
  pose proof (blocks_words (length (Sha256.pad msg) / 64) Sha256.H0
                (Sha256.pad msg) H0_words) as H.
  induction H as [|w ws Hw H IH]; [constructor|].
  cbn [map concat].
  apply Forall_app. split; [by apply word_bytes_range|exact IH].
Qed.

Lemma hex_digit_ascii (n : Z) :
  0 <= n < 16 -> (N_of_ascii (Bytes.hex_digit n) <? 128)%N = true.
Proof.
  intros Hn.
  assert (H : forallb (fun k => (N_of_ascii (Bytes.hex_digit (Z.of_nat k)) <? 128)%N)
                (seq 0 16) = true) by reflexivity.
  rewrite forallb_forall in H. specialize (H (Z.to_nat n)).
  rewrite Z2Nat.id in H by lia. apply H, in_seq. lia.
Qed.

Lemma hex_ascii (b : Bytes.bytes) :
  Forall is_byte b -> Hmac.is_ascii (Bytes.hex b) = true.
Proof.
  unfold Hmac.is_ascii. induction 1 as [|x b Hx H IH]; [reflexivity|].
  unfold Spec.is_byte in Hx. simpl. rewrite IH.
  rewrite !hex_digit_ascii; [reflexivity| |].
  - apply Z.mod_pos_bound. lia.
  - split; [apply Z.div_pos; lia|apply Z.div_lt_upper_bound; lia].
Qed.

Lemma sign_ascii (key : string) (job : Json.Job) :
  Hmac.is_ascii (Json.sign key job) = true.
Proof. apply hex_ascii, digest_bytes. Qed.

(** ** The payload determines the content *)

Lemma append_assoc (a b c : string) : (a +:+ b) +:+ c = a +:+ b +:+ c.
Proof.
  induction a as [|x a IH]; [reflexivity|].
  change (String x ((a +:+ b) +:+ c) = String x (a +:+ b +:+ c)).
  by rewrite IH.
Qed.




Section Items.
Context {V C : Type} (dumps_v : V -> string) (canon_v : V -> C).
Hypothesis prefix_v : forall (v1 v2 : V) (r1 r2 : string),
  dumps_v v1 +:+ r1 = dumps_v v2 +:+ r2 -> canon_v v1 = canon_v v2 /\ r1 = r2.

Local Abbreviation item :=
  (fun kv : string * V => Json.dumps_str (fst kv) +:+ ": " +:+ dumps_v (snd kv)).
Local Abbreviation canon_item :=
  (fun kv : string * V => (fst kv, canon_v (snd kv))).

(** What follows the first item of a mapping. *)
Local Abbreviation tail := (fun (l : list (string * V)) (r : string) =>
  match l with
  | [] => "}" +:+ r
  | _ :: _ => ", " +:+ Py.join ", " (map item l) +:+ "}" +:+ r
  end).



End Items.





(** ** Counting signatures *)

Lemma length_all_hex (n : nat) : length (Spec.all_hex n) = (16 ^ n)%nat.
Proof.
  induction n as [|n IH]; [reflexivity|].
  cbn [Spec.all_hex]. rewrite Nat.pow_succ_r'.
  assert (H : forall l : list ascii,
            length (flat_map (fun c => map (String c) (Spec.all_hex n)) l)
            = (length l * 16 ^ n)%nat).
  { induction l as [|c l IHl]; [reflexivity|].
    cbn [flat_map]. rewrite length_app, length_map, IHl, IH. simpl. lia. }
  rewrite H. reflexivity.
Qed.

Lemma hex_digit_in (n : Z) :
  0 <= n < 16 -> In (Bytes.hex_digit n) Spec.hex_chars.
Proof.
  intros Hn. unfold Spec.hex_chars. apply in_map_iff.
  exists (Z.to_nat n). rewrite Z2Nat.id by lia. split; [reflexivity|].
  apply in_seq. lia.
Qed.

Lemma hex_in_all_hex (b : Bytes.bytes) :
  Forall is_byte b -> In (Bytes.hex b) (Spec.all_hex (2 * length b)).
Proof.
  induction 1 as [|x b Hx H IH]; [by left|].
  unfold Spec.is_byte in Hx.
  replace (2 * length (x :: b))%nat with (S (S (2 * length b))) by (simpl; lia).
  cbn [Bytes.hex Spec.all_hex].
  apply in_flat_map. exists (Bytes.hex_digit (x / 16)). split.
  { apply hex_digit_in. split; [apply Z.div_pos|apply Z.div_lt_upper_bound]; lia. }
  apply in_map, in_flat_map. exists (Bytes.hex_digit (x mod 16)). split.
  { apply hex_digit_in, Z.mod_pos_bound. lia. }
  apply in_map, IH.
Qed.

Lemma length_round (st : list Z) (kw : Z * Z) :
  length (Sha256.round st kw) = length st.
Proof.
  destruct st as [|a [|b [|c [|d [|e [|f [|g [|h [|i st]]]]]]]]]; reflexivity.
Qed.

Lemma length_compress (h : list Z) (block : Bytes.bytes) :
  length (Sha256.compress h block) = length h.
Proof.
  unfold Sha256.compress, Sha256.zip_add.
  rewrite length_map, length_combine.
  assert (H : forall l st, length (fold_left Sha256.round l st) = length st).
  { induction l as [|kw l IH]; intros st; simpl; [reflexivity|].
    by rewrite IH, length_round. }
  rewrite H. lia.
Qed.

Lemma length_blocks (n : nat) (h : list Z) (b : Bytes.bytes) :
  length (Sha256.blocks n h b) = length h.
Proof.
  revert h b. induction n as [|n IH]; intros h b; simpl; [reflexivity|].
  by rewrite IH, length_compress.
Qed.

Lemma length_digest (msg : Bytes.bytes) : length (Sha256.digest msg) = 32%nat.
Proof.
  unfold Sha256.digest.
  assert (H : forall ws, length (concat (map Sha256.word_bytes ws))
                         = (4 * length ws)%nat).
  { induction ws as [|w ws IH]; [reflexivity|].
    cbn [map concat]. rewrite length_app, IH. simpl. lia. }
  rewrite H, length_blocks. reflexivity.
Qed.

(** A signature is one of the [16 ^ 64] texts of 64 hexadecimal digits. *)
Lemma sign_in_all_hex (key : string) (job : Json.Job) :
  In (Json.sign key job) (Spec.all_hex 64).
Proof.
  unfold Json.sign, Hmac.hexdigest, Hmac.digest.
  change 64%nat with (2 * 32)%nat. rewrite <- (length_digest
    (Hmac.xor_with 92 (Hmac.key_block (Bytes.encode key)) ++
     Sha256.digest
       (Hmac.xor_with 54 (Hmac.key_block (Bytes.encode key)) ++
        Bytes.encode (Json.dumps (Dict.without "signature" job))))).
  apply hex_in_all_hex, digest_bytes.
Qed.

(** A list of strings has no repetition, or two of its positions hold the
    same string. *)
Lemma repeated_or_NoDup (l : list string) :
  List.NoDup l \/
  exists i j x, (i < j)%nat /\ nth_error l i = Some x /\ nth_error l j = Some x.
Proof.
  induction l as [|x l [IH|(i & j & y & Hij & Hi & Hj)]].
  - left. constructor.
  - destruct (in_dec string_dec x l) as [Hin|Hnin].
    + right. apply In_nth_error in Hin as [j Hj].
      exists O, (S j), x. split; [lia|]. by split.
    + left. by constructor.
  - right. exists (S i), (S j), y. split; [lia|]. by split.
Qed.

(** More than [length codomain] values taken in [codomain] cannot all
    differ. *)
Lemma pigeonhole (f : nat -> string) (n : nat) (codomain : list string) :
  (forall i, In (f i) codomain) ->
  (length codomain < n)%nat ->
  exists i j, (i < j < n)%nat /\ f i = f j.
Proof.
  intros Hin Hlen.
  destruct (repeated_or_NoDup (map f (seq 0 n)))
    as [Hnd|(i & j & x & Hij & Hi & Hj)].
  - exfalso.
    assert (length (map f (seq 0 n)) <= length codomain)%nat as H.
    { apply NoDup_incl_length; [exact Hnd|].
      intros y Hy. apply in_map_iff in Hy as (k & <- & _). apply Hin. }
    rewrite length_map, length_seq in H. lia.
  - assert (Hjn : (j < n)%nat).
    { assert (Hb : nth_error (map f (seq 0 n)) j <> None) by congruence.
      apply nth_error_Some in Hb. by rewrite length_map, length_seq in Hb. }
    exists i, j. split; [lia|].
    rewrite nth_error_map, nth_error_seq in Hi, Hj.
    destruct (Nat.ltb_spec i n), (Nat.ltb_spec j n); try lia.
    simpl in Hi, Hj. congruence.
Qed.

(** Under every secret two jobs that differ in their job_id have the same
    signature, and every job has the same signature under two different
    secrets; the secrets and job ids can be taken among the decimal
    numerals. *)
Lemma signatures_collide (key : string) (job : Json.Job) :
  (exists id1 id2 : string,
     id1 <> id2 /\
     Json.sign key (Dict.set "job_id" (Json.JS id1) job)
       = Json.sign key (Dict.set "job_id" (Json.JS id2) job)) /\
  (exists key1 key2 : string,
     key1 <> key2 /\ Json.sign key1 job = Json.sign key2 job).
Proof.
  split.
  - destruct (pigeonhole
                (fun n => Json.sign key
                            (Dict.set "job_id" (Json.JS (Spec.numbered n)) job))
                (S (16 ^ 64)) (Spec.all_hex 64)) as (i & j & Hij & Heq).
    + intros i. apply sign_in_all_hex.
    + rewrite length_all_hex. lia.
    + exists (Spec.numbered i), (Spec.numbered j). split; [|exact Heq].
      unfold Spec.numbered. intros H%(inj pretty). lia.
  - destruct (pigeonhole (fun n => Json.sign (Spec.numbered n) job)
                (S (16 ^ 64)) (Spec.all_hex 64)) as (i & j & Hij & Heq).
    + intros i. apply sign_in_all_hex.
    + rewrite length_all_hex. lia.
    + exists (Spec.numbered i), (Spec.numbered j). split; [|exact Heq].
      unfold Spec.numbered. intros H%(inj pretty). lia.
Qed.

(** ** Signing and verification *)

Lemma get_set_eq {V : Type} (k : string) (v : V) (d : Dict.dict V) :
  Dict.get (Dict.set k v d) k = Some v.
Proof.
  induction d as [|[k' v'] d IH]; simpl.
  - by rewrite String.eqb_refl.
  - destruct (String.eqb k k') eqn:E; simpl; rewrite E; [reflexivity|exact IH].
Qed.

(** The signature does not depend on the [signature] field. *)
Lemma without_set {V : Type} (k : string) (v : V) (d : Dict.dict V) :
  Dict.without k (Dict.set k v d) = Dict.without k d.
Proof.
  unfold Dict.without. induction d as [|[k' v'] d IH]; simpl.
  - by rewrite String.eqb_refl.
  - destruct (String.eqb k k') eqn:E; simpl.
    + by rewrite String.eqb_sym, E.
    + by rewrite IH.
Qed.

Lemma sign_set_signature (key : string) (v : Json.value) (job : Json.Job) :
  Json.sign key (Dict.set "signature" v job) = Json.sign key job.
Proof. unfold Json.sign. by rewrite without_set. Qed.

Lemma set_set {V : Type} (k : string) (v1 v2 : V) (d : Dict.dict V) :
  Dict.set k v2 (Dict.set k v1 d) = Dict.set k v2 d.
Proof.
  induction d as [|[k' v'] d IH]; simpl.
  - by rewrite String.eqb_refl.
  - destruct (String.eqb k k') eqn:E; simpl; rewrite E; [reflexivity|].
    by rewrite IH.
Qed.

Lemma get_set_ne {V : Type} (k k' : string) (v : V) (d : Dict.dict V) :
  k <> k' -> Dict.get (Dict.set k v d) k' = Dict.get d k'.
Proof.
  intros Hne.
  assert (Hf : String.eqb k' k = false) by (apply String.eqb_neq; congruence).
  induction d as [|[k0 v0] d IH]; simpl.
  - by rewrite Hf.
  - destruct (String.eqb k k0) eqn:E; simpl; [|by rewrite IH].
    apply String.eqb_eq in E as <-. by rewrite Hf.
Qed.

Lemma without_set_ne {V : Type} (k k' : string) (v : V) (d : Dict.dict V) :
  k <> k' ->
  Dict.without k' (Dict.set k v d) = Dict.set k v (Dict.without k' d).
Proof.
  intros Hne.
  assert (Hf : String.eqb k k' = false) by (by apply String.eqb_neq).
  unfold Dict.without. induction d as [|[k0 v0] d IH]; simpl.
  - by rewrite Hf.
  - destruct (String.eqb k k0) eqn:E; simpl.
    + apply String.eqb_eq in E as <-. rewrite Hf. simpl.
      by rewrite String.eqb_refl.
    + rewrite IH. destruct (negb (String.eqb k0 k')); simpl; [|reflexivity].
      by rewrite E.
Qed.

(** Changing the job_id of a signed job gives the job that carries the
    old signature next to the new job_id. *)
Lemma sign_reissued (key : string) (id1 id2 sig : Json.value) (job : Json.Job) :
  Json.sign key
    (Dict.set "job_id" id2 (Dict.set "signature" sig (Dict.set "job_id" id1 job)))
  = Json.sign key (Dict.set "job_id" id2 job).
Proof.
  unfold Json.sign.
  rewrite !(without_set_ne "job_id" "signature") by discriminate.
  by rewrite without_set, !(without_set_ne "job_id" "signature"), set_set
    by discriminate.
Qed.

Section Verification.
Context (w : Agent.World).

(** Verification compares the received signature with the digest of
    the other fields. *)
Lemma validate_signature_eqb (job : Json.Job) (sig : string) :
  Dict.get job "signature" = Some (Json.JS sig) ->
  Hmac.is_ascii sig = true ->
  Agent.validate_signature w job
    = inr (String.eqb sig (Json.sign (Agent.SECRET_KEY w) job)).
Proof.
  intros Hget Hsig. unfold Agent.validate_signature, Hmac.compare_digest.
  by rewrite Hget, Hsig, sign_ascii.
Qed.

Lemma validate_signed (key : string) (job : Json.Job) :
  Agent.validate_signature w
      (Dict.set "signature" (Json.JS (Json.sign key job)) job)
    = inr (String.eqb (Json.sign key job)
             (Json.sign (Agent.SECRET_KEY w) job)).
Proof.
  rewrite (validate_signature_eqb _ (Json.sign key job)).
  - by rewrite sign_set_signature.
  - apply get_set_eq.
  - apply sign_ascii.
Qed.


Lemma other_secret_rejected_iff (key : string) (job : Json.Job) :
  Agent.validate_signature w
    (Dict.set "signature" (Json.JS (Json.sign key job)) job) = inr false
  <-> Json.sign key job <> Json.sign (Agent.SECRET_KEY w) job.
Proof.
  rewrite validate_signed.
  destruct (String.eqb_spec (Json.sign key job)
              (Json.sign (Agent.SECRET_KEY w) job)) as [E|E].
  - split; [discriminate|]. intros H. by destruct H.
  - split; [by intros _|reflexivity].
Qed.

End Verification.

(** Signatures that are equal verify.  A secret and the same secret
    followed by a NUL character give every job the same signature (the
    key is padded with zero bytes), so a job signed with the first
    verifies under the second.  And there are more jobs and more secrets
    than signatures: under the default secret two jobs that differ in
    their job_id share a signature, so that the signed first one still
    verifies after its job_id is changed to the second; and two
    different secrets made of decimal digits verify each other's
    signature of the test job.  The counting argument names no such
    pair. *)
Lemma equal_signatures_verify :
  ("change-me-in-production" <> Fixtures.padded_secret /\
   Agent.validate_signature
     (Fixtures.rekeyed Fixtures.padded_secret Fixtures.slow_host)
     (Panel.create_job "change-me-in-production" "job-1"
        "2024-01-01T00:00:00" "nginx"
        [("enable_ssl", "true"); ("ssl_port", "443")] "agent-001" "admin")
     = inr true) /\
  (exists id1 id2 : string,
     id1 <> id2 /\
     let job := Dict.set "job_id" (Json.JS id1) Fixtures.nginx_job in
     let signed :=
       Dict.set "signature"
         (Json.JS (Json.sign "change-me-in-production" job)) job in
     Agent.validate_signature Fixtures.slow_host
       (Dict.set "job_id" (Json.JS id2) signed) = inr true) /\
  (exists key1 key2 : string,
     key1 <> key2 /\
     Agent.validate_signature (Fixtures.rekeyed key2 Fixtures.slow_host)
       (Dict.set "signature"
          (Json.JS (Json.sign key1 Fixtures.nginx_job)) Fixtures.nginx_job)
       = inr true).
Proof.
  split; [split; [discriminate|vm_compute; reflexivity]|].
  destruct (signatures_collide "change-me-in-production" Fixtures.nginx_job)
    as ((id1 & id2 & Hid & Hsig) & (key1 & key2 & Hkey & Hsig')).
  split.
  - exists id1, id2. split; [exact Hid|]. cbv zeta.
    rewrite (validate_signature_eqb _ _
               (Json.sign "change-me-in-production"
                  (Dict.set "job_id" (Json.JS id1) Fixtures.nginx_job))).
    + change (Agent.SECRET_KEY Fixtures.slow_host)
        with "change-me-in-production".
      by rewrite sign_reissued, Hsig, String.eqb_refl.
    + rewrite get_set_ne by discriminate. apply get_set_eq.
    + apply sign_ascii.
  - exists key1, key2. split; [exact Hkey|].
    rewrite validate_signed.
    change (Agent.SECRET_KEY (Fixtures.rekeyed key2 Fixtures.slow_host))
      with key2.
    by rewrite Hsig', String.eqb_refl.
Qed.



(* ===================================================================== *)
(** * Further properties of the code *)
(* ===================================================================== *)

(** ** The new models on known values *)

(** The patterns of the server, on the examples of its manual. *)
Example glob_values :
  Redis.glob "h?llo" "hello" = true /\ Redis.glob "h?llo" "hllo" = false /\
  Redis.glob "h*llo" "hllo" = true /\ Redis.glob "h*llo" "heeeello" = true /\
  Redis.glob "h[ae]llo" "hallo" = true /\
  Redis.glob "h[ae]llo" "hillo" = false /\
  Redis.glob "h[^e]llo" "hbllo" = true /\
  Redis.glob "h[^e]llo" "hello" = false /\
  Redis.glob "h[a-b]llo" "hbllo" = true /\
  Redis.glob "h[a-b]llo" "hcllo" = false /\
  Redis.glob "job:*" "job:1:result" = true /\
  Redis.glob "job:*" "agent:1:jobs" = false /\
  Redis.glob "h\*llo" "h*llo" = true /\ Redis.glob "h\*llo" "hello" = false.
Proof. vm_compute. repeat split. Qed.

(** The searches of the test suite, on the registry of the scenario. *)
Example search_values :
  Registry.search Scenario.registry None (Some "web-servers") None
    = inr [Scenario.nginx] /\
  Registry.search Scenario.registry None None (Some ["database"]) = inr [] /\
  Registry.search Scenario.registry (Some "WEB") None (Some []) 
    = inr [Scenario.nginx] /\
  Registry.get Scenario.registry "nginx" = Some Scenario.nginx /\
  Registry.get Scenario.registry "mysql" = None.
Proof. vm_compute. repeat split. Qed.

(** Script names. *)
Example script_names :
  AppManifest.validate_script_path "install.sh" = inr "install.sh" /\
  AppManifest.validate_script_path "../install.sh"
    = inl (Py.ValueError "Script must be a .sh file with safe characters") /\
  AppManifest.validate_script_path "install.sh; rm"
    = inl (Py.ValueError "Script must be a .sh file with safe characters") /\
  AppManifest.validate_script_path ".sh"
    = inl (Py.ValueError "Script must be a .sh file with safe characters").
Proof. vm_compute. repeat split. Qed.

(** ** The sandbox, case by case *)

Section Sandbox.
Context (w : Agent.World).

Local Abbreviation with_trace := (fun (st : Agent.State)
    (events : list Agent.Event) (cp : option Agent.Process) =>
  {| Agent.ticks := Agent.ticks st;
     Agent.trace := Agent.trace st ++ events;
     Agent.current_process := cp |}).

(** Every way [execute_script] can end. *)
Lemma execute_script_cases (app_id script_name : string)
    (env : gmap string string) (timeout : Z) (job_id : Json.value)
    (st : Agent.State) :
  let script_path :=
    Agent.path [Agent.INSTALLERS_PATH; app_id; script_name] in
  let run := Agent.execute_script w app_id script_name env timeout job_id st in
  (Agent.exists_ w script_path = false /\
   run = (inr (1, "Script not found: " +:+ script_path), st)) \/
  (Agent.exists_ w script_path = true /\
   ((exists e, Agent.chmod w script_path = Some e /\
      run = (inl e, with_trace st [Agent.Chmod script_path]
                      (Agent.current_process st))) \/
    (Agent.chmod w script_path = None /\
     ((exists e, Agent.popen w script_path env = inl e /\
         run = (inr (1, Py.exn_str e),
                with_trace st [Agent.Chmod script_path]
                  (Agent.current_process st))) \/
      (exists p, Agent.popen w script_path env = inr p /\
         ((timeout < Agent.run_seconds p /\
           run = (inr (124, "Execution timed out"),
                  with_trace st
                    [Agent.Chmod script_path; Agent.Popen script_path env;
                     Agent.Wait timeout; Agent.Killpg Agent.SIGTERM;
                     Agent.Sleep 5; Agent.Killpg Agent.SIGKILL] (Some p))) \/
          (Agent.run_seconds p <= timeout /\
           ((exists output, Agent.read_log p = inr output /\
               run = (inr (Agent.returncode p, output),
                      with_trace st
                        [Agent.Chmod script_path;
                         Agent.Popen script_path env;
                         Agent.Wait timeout] None)) \/
            (exists e, Agent.read_log p = inl e /\
               run = (inr (1, Py.exn_str e),
                      with_trace st
                        [Agent.Chmod script_path;
                         Agent.Popen script_path env;
                         Agent.Wait timeout] None)))))))))).
Proof.
  intros script_path run. subst run. unfold Agent.execute_script.
  fold script_path.
  destruct (Agent.exists_ w script_path) eqn:Hex; [right|left; by split].
  split; [reflexivity|]. simpl.
  unfold Agent.try_except, Agent.bind, Agent.emit, Agent.lift,
    Agent.set_current_process, Agent.wait, Agent.bind, Agent.emit,
    Agent.ret, Agent.raise.
  destruct (Agent.chmod w script_path) as [e|] eqn:Hch; simpl.
  { left. exists e. by split. }
  right. split; [reflexivity|].
  destruct (Agent.popen w script_path env) as [e|p] eqn:Hp; simpl.
  { left. exists e. by split. }
  right. exists p. split; [reflexivity|].
  destruct (Agent.run_seconds p <=? timeout) eqn:Hle; simpl.
  - right. split; [lia|].
    destruct (Agent.read_log p) as [e|output]; simpl.
    + right. exists e. split; [reflexivity|]. by rewrite <- !app_assoc.
    + left. exists output. split; [reflexivity|]. by rewrite <- !app_assoc.
  - left. split; [lia|]. by rewrite <- !app_assoc.
Qed.


(** X2. An installer that exits within the timeout: its exit code and its
    captured output are returned as they are, no signal is sent, and
    [current_process] is reset. *)
Theorem execute_script_completes (app_id script_name : string)
    (env : gmap string string) (timeout : Z) (job_id : Json.value)
    (p : Agent.Process) (output : string) (st : Agent.State) :
  let script_path :=
    Agent.path [Agent.INSTALLERS_PATH; app_id; script_name] in
  Agent.exists_ w script_path = true ->
  Agent.chmod w script_path = None ->
  Agent.popen w script_path env = inr p ->
  Agent.run_seconds p <= timeout ->
  Agent.read_log p = inr output ->
  exists st',
    Agent.execute_script w app_id script_name env timeout job_id st
      = (inr (Agent.returncode p, output), st') /\
    Agent.trace st' = Agent.trace st ++
      [Agent.Chmod script_path; Agent.Popen script_path env;
       Agent.Wait timeout] /\
    Agent.current_process st' = None /\
    forall sig, ~ In (Agent.Killpg sig) (Agent.trace st) ->
                ~ In (Agent.Killpg sig) (Agent.trace st').
Proof.
  intros script_path Hex Hch Hp Hle Hlog.
  pose proof (execute_script_cases app_id script_name env timeout job_id st)
    as H. cbv zeta in H. fold script_path in H.
  destruct H as [[Hex' _] | [_ [(e & Hch' & _) | [_
    [(e & Hp' & _) | (p' & Hp' & [[Hlt _] | [_
      [(out & Hlog' & H) | (e & Hlog' & _)]]])]]]]]; try congruence.
  { assert (p' = p) as -> by congruence. lia. }
  assert (p' = p) as -> by congruence.
  assert (out = output) as -> by congruence.
  eexists. split; [exact H|]. simpl. repeat split.
  intros sig Hno Hin. apply in_app_or in Hin as [Hin|Hin]; [by apply Hno|].
  simpl in Hin. intuition discriminate.
Qed.

End Sandbox.

Lemma execute_script_completes_witness :
  exists st',
    Agent.execute_script (Fixtures.host 30 3 "done") "nginx" "install.sh"
      Fixtures.ssl_env 600 (Json.JS "job-1") Agent.initial
      = (inr (3, "done"), st') /\
    Agent.current_process st' = None.
Proof.
  destruct (execute_script_completes (Fixtures.host 30 3 "done") "nginx"
              "install.sh" Fixtures.ssl_env 600 (Json.JS "job-1")
              {| Agent.run_seconds := 30; Agent.returncode := 3;
                 Agent.read_log := inr "done" |} "done" Agent.initial)
    as (st' & Hrun & _ & Hcp & _); try reflexivity.
  - vm_compute. discriminate.
  - exists st'. by split.
Defined.

(** ** What a result says *)

Section Results.
Context (w : Agent.World).

(** X3. The result of a job tells one story: a job that has its three keys
    gets a result whose status is success exactly when the exit code is
    0, and exactly when no error is recorded; and success is reported
    only for a job that passed every check and whose installer was
    launched. *)
Theorem result_is_consistent (job : Json.Job)
    (job_id app_id inputs : Json.value) (st : Agent.State) :
  Spec.has_keys job job_id app_id inputs ->
  exists (r : Agent.Result) (st' : Agent.State),
    Agent.execute_job w job st = (inr r, st') /\
    (Agent.status r = "success" <-> Agent.exit_code r = 0) /\
    (Agent.status r = "success" <-> Agent.error r = None) /\
    (Agent.status r = "success" ->
     exists manifest env script_path,
       Spec.checks_passed w job app_id inputs manifest env /\
       In (Agent.Popen script_path env) (Agent.trace st')).
Proof.
  intros Hk. rewrite (execute_job_eq w _ _ _ _ _ Hk).
  destruct (try_body_cases w job app_id inputs
              (Spec.fresh_result w job_id st) (Spec.tick st))
    as [(r0 & -> & [[msg ->] | [e ->]]) | (manifest & env & Hpass & ->)].
  - eexists _, _. split; [reflexivity|]. simpl. intuition discriminate.
  - eexists _, _. split; [reflexivity|]. simpl. intuition discriminate.
  - pose proof (execute_script_cases w (Json.py_str app_id)
                  (Agent.get_install_script manifest) env
                  (Agent.get_timeout manifest)
                  (Agent.job_id (Spec.fresh_result w job_id st))
                  (Spec.tick st)) as H. cbv zeta in H.
    destruct H as [[_ ->] | [_ [(e & _ & ->) | [_
      [(e & _ & ->) | (p & _ & [[_ ->] | [_
        [(out & _ & ->) | (e & _ & ->)]]])]]]]];
      eexists _, _; (split; [reflexivity|]); simpl;
      try (intuition discriminate).
    unfold Agent.record_outcome, Agent.set_outcome, Agent.set_error.
    destruct (Agent.returncode p =? 0) eqn:E; simpl.
    + split; [split; [lia|reflexivity]|]. split; [done|].
      intros _. eexists manifest, env, _. split; [exact Hpass|].
      apply in_or_app. right. right. left. reflexivity.
    + split; [split; [discriminate|lia]|]. split; [|discriminate].
      split; discriminate.
Qed.

End Results.

Lemma result_is_consistent_witness :
  exists (r : Agent.Result) (st' : Agent.State),
    Agent.execute_job Fixtures.slow_host Fixtures.ssl_job Agent.initial
      = (inr r, st') /\
    (Agent.status r = "success" <-> Agent.exit_code r = 0) /\
    (Agent.status r = "success" <-> Agent.error r = None) /\
    (Agent.status r = "success" ->
     exists manifest env script_path,
       Spec.checks_passed Fixtures.slow_host Fixtures.ssl_job
         (Json.JS "nginx")
         (Json.JD [("enable_ssl", "true"); ("ssl_port", "443")])
         manifest env /\
       In (Agent.Popen script_path env) (Agent.trace st')).
Proof.
  apply (result_is_consistent Fixtures.slow_host Fixtures.ssl_job
           (Json.JS "job-1") (Json.JS "nginx")
           (Json.JD [("enable_ssl", "true"); ("ssl_port", "443")])
           Agent.initial).
  exact ssl_job_has_keys.
Defined.

(** ** The signature field *)





(** ** Shutting down *)

(** After a job that started on an idle executor, [current_process] is
    set only when the installer was killed at its timeout. *)
Lemma handle_after_job (w : Agent.World) (job : Json.Job)
    (job_id app_id inputs : Json.value) (st : Agent.State) :
  Spec.has_keys job job_id app_id inputs ->
  Agent.current_process st = None ->
  exists r st',
    Agent.execute_job w job st = (inr r, st') /\
    (Agent.current_process st' = None \/
     exists p events,
       Agent.current_process st' = Some p /\
       Agent.exit_code r = 124 /\ Agent.status r = "failed" /\
       Agent.trace st' = Agent.trace st ++ events ++
         [Agent.Killpg Agent.SIGTERM; Agent.Sleep 5;
          Agent.Killpg Agent.SIGKILL]).
Proof.
  intros Hk Hidle. rewrite (execute_job_eq w _ _ _ _ _ Hk).
  destruct (try_body_cases w job app_id inputs
              (Spec.fresh_result w job_id st) (Spec.tick st))
    as [(r0 & -> & [[msg ->] | [e ->]]) | (manifest & env & Hpass & ->)].
  - eexists _, _. split; [reflexivity|]. left. exact Hidle.
  - eexists _, _. split; [reflexivity|]. left. exact Hidle.
  - pose proof (execute_script_cases w (Json.py_str app_id)
                  (Agent.get_install_script manifest) env
                  (Agent.get_timeout manifest)
                  (Agent.job_id (Spec.fresh_result w job_id st))
                  (Spec.tick st)) as H. cbv zeta in H.
    destruct H as [[_ ->] | [_ [(e & _ & ->) | [_
      [(e & _ & ->) | (p & _ & [[_ ->] | [_
        [(out & _ & ->) | (e & _ & ->)]]])]]]]];
      eexists _, _; (split; [reflexivity|]); simpl; auto.
    right. exists p. eexists [_; _; _]. repeat split.
Qed.

(** X5. Shutting down after a job.  [shutdown] stops the loop and leaves
    the keyspace alone.  After a job that was turned down, that failed
    to launch or whose installer ended in time, it sends no signal.
    After a job whose installer was killed at its timeout (exit code
    124), the executor still holds the process, and [shutdown] sends
    SIGTERM to the process group that was killed before. *)
Theorem shutdown_after_a_job (w : Agent.World) (job : Json.Job)
    (job_id app_id inputs : Json.value) (st : Daemon.State) :
  Spec.has_keys job job_id app_id inputs ->
  Agent.current_process (Daemon.executor st) = None ->
  exists r ex',
    Agent.execute_job w job (Daemon.executor st) = (inr r, ex') /\
    let st' :=
      {| Daemon.running := Daemon.running st; Daemon.executor := ex';
         Daemon.redis := Daemon.redis st |} in
    Daemon.running (Daemon.shutdown st') = false /\
    Daemon.redis (Daemon.shutdown st') = Daemon.redis st /\
    ((Agent.current_process ex' = None /\
      Daemon.executor (Daemon.shutdown st') = ex') \/
     (exists p events,
        Agent.current_process ex' = Some p /\
        Agent.exit_code r = 124 /\ Agent.status r = "failed" /\
        Agent.trace ex' = Agent.trace (Daemon.executor st) ++ events ++
          [Agent.Killpg Agent.SIGTERM; Agent.Sleep 5;
           Agent.Killpg Agent.SIGKILL] /\
        Agent.trace (Daemon.executor (Daemon.shutdown st'))
          = Agent.trace ex' ++ [Agent.Killpg Agent.SIGTERM])) /\
    (forall manifest env p,
       Spec.checks_passed w job app_id inputs manifest env ->
       let script_path :=
         Agent.path [Agent.INSTALLERS_PATH; Json.py_str app_id;
                     Agent.get_install_script manifest] in
       Agent.exists_ w script_path = true ->
       Agent.chmod w script_path = None ->
       Agent.popen w script_path env = inr p ->
       Agent.get_timeout manifest < Agent.run_seconds p ->
       Agent.current_process ex' = Some p).
Proof.
  intros Hk Hidle.
  destruct (handle_after_job w job job_id app_id inputs (Daemon.executor st)
              Hk Hidle) as (r & ex' & Hrun & Hcases).
  exists r, ex'. split; [exact Hrun|]. cbv zeta.
  split; [reflexivity|]. split; [reflexivity|]. split.
  - destruct Hcases as [Hnone | (p & events & Hp & Hcode & Hst & Htr)].
    + left. split; [exact Hnone|]. unfold Daemon.shutdown. simpl.
      by rewrite Hnone.
    + right. exists p, events. repeat split; try assumption.
      unfold Daemon.shutdown. simpl. by rewrite Hp.
  - intros manifest env p Hpass Hex Hch Hp Hlt.
    rewrite (execute_job_eq w _ _ _ _ _ Hk) in Hrun.
    rewrite (try_body_passed w _ _ _ _ _ _ _ Hpass) in Hrun.
    rewrite (execute_script_timeout w _ _ _ _ _ p _ Hex Hch Hp Hlt) in Hrun.
    injection Hrun as _ <-. reflexivity.
Qed.

Lemma shutdown_after_a_job_witness :
  exists r ex',
    Agent.execute_job Fixtures.slow_host Fixtures.ssl_job Agent.initial
      = (inr r, ex') /\
    Agent.exit_code r = 124 /\
    exists p,
      Agent.current_process ex' = Some p /\
      Agent.trace
        (Daemon.executor
           (Daemon.shutdown
              {| Daemon.running := true; Daemon.executor := ex';
                 Daemon.redis := Keyspace.empty |}))
        = Agent.trace ex' ++ [Agent.Killpg Agent.SIGTERM].
Proof.
  destruct (shutdown_after_a_job Fixtures.slow_host Fixtures.ssl_job
              (Json.JS "job-1") (Json.JS "nginx")
              (Json.JD [("enable_ssl", "true"); ("ssl_port", "443")])
              {| Daemon.running := true; Daemon.executor := Agent.initial;
                 Daemon.redis := Keyspace.empty |}
              ssl_job_has_keys eq_refl)
    as (r & ex' & Hrun & _ & _ & Hcases & Hreach).
  pose proof (Hreach Fixtures.ssl_manifest Fixtures.ssl_env
                {| Agent.run_seconds := 4000; Agent.returncode := 0;
                   Agent.read_log := inr "" |}
                ssl_job_passes eq_refl eq_refl eq_refl eq_refl) as Hp.
  exists r, ex'. split; [exact Hrun|].
  destruct Hcases as [[Hnone _] | (p & events & Hp' & Hcode & _ & _ & Htr)].
  - simpl in Hnone, Hp. congruence.
  - split; [exact Hcode|]. exists p. split; [exact Hp'|exact Htr].
Defined.

(** ** The two validators side by side *)

(** The mapping built by the agent from the declared fields: every item
    is a declared field under its own name. *)
Lemma comprehension_items {A V : Type} (key : A -> string) (val : A -> V)
    (xs : list A) (k : string) (v : V) :
  In (k, v) (Dict.comprehension key val xs) ->
  exists x, In x xs /\ k = key x /\ v = val x.
Proof.
  unfold Dict.comprehension.
  assert (Hset : forall (d : Dict.dict V) k0 v0,
            In (k, v) (Dict.set k0 v0 d) ->
            In (k, v) d \/ (k = k0 /\ v = v0)).
  { induction d as [|[k' v'] d IH]; intros k0 v0; simpl.
    - intros [H|[]]. injection H as <- <-. auto.
    - destruct (String.eqb k0 k') eqn:E; simpl.
      + apply String.eqb_eq in E as ->.
        intros [H|H]; [injection H as <- <-|]; auto.
      + intros [H|H]; [auto|]. apply IH in H as [H|H]; auto. }
  assert (Hgen : forall (d : Dict.dict V),
            In (k, v) (fold_left (fun d x => Dict.set (key x) (val x) d) xs d) ->
            In (k, v) d \/ exists x, In x xs /\ k = key x /\ v = val x).
  { induction xs as [|x xs IH]; intros d; simpl; [auto|].
    intros H. apply IH in H as [H|(y & Hy & ?)]; [|right; eauto].
    apply Hset in H as [H|[-> ->]]; [auto|right; eauto]. }
  intros H. apply Hgen in H as [[]|H]. exact H.
Qed.

Lemma set_fresh {V : Type} (k : string) (v : V) (d : Dict.dict V) :
  ~ In k (Dict.keys d) -> Dict.set k v d = d ++ [(k, v)].
Proof.
  induction d as [|[k' v'] d IH]; simpl; [reflexivity|].
  intros H. destruct (String.eqb k k') eqn:E.
  - apply String.eqb_eq in E as ->. exfalso. apply H. left. reflexivity.
  - rewrite IH by tauto. reflexivity.
Qed.

(** With distinct names the mapping lists the declared fields in their
    order. *)
Lemma comprehension_NoDup {A V : Type} (key : A -> string) (val : A -> V)
    (xs : list A) :
  List.NoDup (map key xs) ->
  Dict.comprehension key val xs = map (fun x => (key x, val x)) xs.
Proof.
  unfold Dict.comprehension.
  assert (Hgen : forall (d : Dict.dict V),
            List.NoDup (Dict.keys d ++ map key xs) ->
            fold_left (fun d x => Dict.set (key x) (val x) d) xs d
              = d ++ map (fun x => (key x, val x)) xs).
  { induction xs as [|x xs IH]; intros d Hnd; simpl.
    { by rewrite app_nil_r. }
    simpl in Hnd. apply List.NoDup_remove in Hnd as [Hnd Hx].
    rewrite set_fresh by (intros Hin; apply Hx, in_or_app; auto).
    rewrite IH.
    - by rewrite <- app_assoc.
    - unfold Dict.keys in *. rewrite map_app, <- app_assoc. simpl.
      apply List.NoDup_Add with (a := key x) (l := map fst d ++ map key xs);
        [|split; [exact Hnd|exact Hx]].
      apply List.Add_app. }
  intros Hnd. apply (Hgen []). exact Hnd.
Qed.

(** The checks of the agent are checks of the control plane. *)
Lemma agent_checks_in_panel (field : InputField) (value : string) :
  Panel.type_validation field value = None ->
  Panel.validation_rules field value = None ->
  Agent.check_value (name field) field value = None.
Proof.
  unfold Panel.validation_rules, Agent.check_value.
  intros Ht Hr. apply or_else_None in Hr as (Hp & Hr).
  apply or_else_None in Hr as (Hmin & Hr).
  apply or_else_None in Hr as (Hmax & _).
  apply or_else_None. split.
  - unfold Panel.type_validation in Ht. unfold Agent.type_validation.
    destruct (type field); try reflexivity.
    + destruct (Py.int value); [reflexivity|discriminate].
    + destruct (Py.int value) as [port|]; [|discriminate].
      destruct (negb _); [discriminate|reflexivity].
  - apply or_else_None. split; [|apply or_else_None; split].
    + unfold Panel.check_pattern in Hp. unfold Agent.check_pattern.
      destruct (pattern _); [|reflexivity].
      destruct (negb _); [discriminate|reflexivity].
    + unfold Panel.check_min_length in Hmin. unfold Agent.check_min_length.
      destruct (min_length _); [|reflexivity].
      destruct (_ <? _); [discriminate|reflexivity].
    + unfold Panel.check_max_length in Hmax. unfold Agent.check_max_length.
      destruct (max_length _); [|reflexivity].
      destruct (_ <? _); [discriminate|reflexivity].
Qed.

(** What the control plane found acceptable in a field that is shown. *)
Lemma panel_loop_accepts (fields : list InputField) (d : Dict.dict string)
    (field : InputField) :
  Panel.validate_loop fields d [] = [] ->
  In field fields ->
  Panel.skipped field d = false ->
  Panel.validate_field field (Panel.get_value d field) = (true, None).
Proof.
  rewrite validate_loop_first_errors. simpl. unfold Spec.first_errors.
  intros Hall Hin Hshown.
  induction fields as [|f fields IH]; [destruct Hin|].
  simpl in Hall.
  destruct Hin as [->|Hin].
  - rewrite Hshown in Hall. rewrite validate_field_first_error.
    destruct (head _); [discriminate|reflexivity].
  - apply IH; [|exact Hin].
    destruct (if Panel.skipped f d then _ else _); [discriminate|exact Hall].
Qed.

(** The fields that the control plane checked give the agent nothing to
    report. *)
Lemma panel_fields_pass_agent (fields : list InputField)
    (d : Dict.dict string) (item : string * InputField) :
  Panel.validate_loop fields d [] = [] ->
  (forall field, In field fields ->
     Panel.skipped field d = false /\
     Dict.get d (name field) <> Some "") ->
  In item (Dict.comprehension name (fun inp => inp) fields) ->
  Spec.agent_field_error d item = None.
Proof.
  intros Hnil Hfields Hin. destruct item as [n f].
  apply comprehension_items in Hin as (field & Hin & -> & ->).
  destruct (Hfields _ Hin) as (Hshown & Hvalue).
  pose proof (panel_loop_accepts _ _ _ Hnil Hin Hshown) as Hacc.
  unfold Spec.agent_field_error, Panel.get_value in *.
  destruct (Dict.get d (name field)) as [value|].
  - assert (Hne : value <> "") by congruence.
    destruct (validate_field_accepts field value Hne) as (Ht & Hr).
    { by rewrite Hacc. }
    by apply agent_checks_in_panel.
  - unfold Panel.validate_field in Hacc. simpl in Hacc.
    rewrite andb_true_r in Hacc.
    destruct (get_required field); [discriminate|reflexivity].
Qed.

Lemma agent_loop_no_error (items : list (string * InputField))
    (d : Dict.dict string) :
  (forall item, In item items -> Spec.agent_field_error d item = None) ->
  Agent.validate_loop items (Json.JD d) = inr (true, None).
Proof.
  intros Hnone. rewrite agent_loop_first_error.
  induction items as [|item items IH]; [reflexivity|].
  simpl. rewrite (Hnone item) by (left; reflexivity).
  apply IH. intros item' Hin. apply Hnone. right. exact Hin.
Qed.

(** X6. Inputs that the control plane accepts are accepted by the agent,
    provided that no declared field is hidden and that no value supplied
    for a declared field is empty. *)
Theorem panel_accepted_inputs_pass_agent (manifest : Manifest)
    (d : Dict.dict string) :
  fst (Panel.validate_inputs manifest d) = true ->
  (forall field, In field (get_inputs manifest) ->
     Panel.skipped field d = false /\
     Dict.get d (name field) <> Some "") ->
  Agent.validate_inputs manifest (Json.JD d) = inr (true, None).
Proof.
  unfold Panel.validate_inputs, Agent.validate_inputs. simpl.
  intros Hok Hfields.
  assert (Hnil : Panel.validate_loop (get_inputs manifest) d [] = []).
  { destruct (Panel.validate_loop _ _ _); [reflexivity|discriminate]. }
  apply agent_loop_no_error. intros item Hin.
  by apply (panel_fields_pass_agent (get_inputs manifest)).
Qed.

Lemma panel_accepted_inputs_pass_agent_witness :
  Agent.validate_inputs Fixtures.ssl_manifest
    (Json.JD [("enable_ssl", "true"); ("ssl_port", "443")])
    = inr (true, None).
Proof.
  apply panel_accepted_inputs_pass_agent; [reflexivity|].
  intros field [<-|[<-|[]]]; split; (reflexivity || discriminate).
Defined.

(** X7. An empty value supplied for a declared field of type integer or port
    is turned down by the agent, also when the field is optional, in
    which case the control plane takes the same value for no value and
    accepts it. *)
Theorem empty_number_rejected_by_agent (manifest : Manifest)
    (d : Dict.dict string) (field : InputField) :
  List.NoDup (map name (get_inputs manifest)) ->
  In field (get_inputs manifest) ->
  type field = TInteger \/ type field = TPort ->
  Dict.get d (name field) = Some "" ->
  (exists error,
     Agent.validate_inputs manifest (Json.JD d) = inr (false, Some error)) /\
  (get_required field = false ->
   Panel.validate_field field (Panel.get_value d field) = (true, None)).
Proof.
  intros Hnd Hin Htype Hget. split.
  - unfold Agent.validate_inputs. simpl.
    rewrite agent_loop_first_error, (comprehension_NoDup _ _ _ Hnd).
    assert (Herr : exists error,
              Spec.agent_field_error d (name field, field) = Some error).
    { simpl. rewrite Hget. unfold Agent.check_value, Agent.type_validation.
      destruct Htype as [-> | ->]; simpl; eauto. }
    clear Hnd. remember (Spec.agent_field_error d) as g eqn:Hg. clear Hg.
    assert (Hhead : exists error,
              head (omap g (map (fun x => (name x, x)) (get_inputs manifest)))
                = Some error).
    { induction (get_inputs manifest) as [|f fields IH]; [destruct Hin|].
      simpl. destruct Hin as [->|Hin].
      - destruct Herr as (error & ->). simpl. eauto.
      - destruct (g (name f, f)); simpl; eauto. }
    destruct Hhead as (error & ->). eauto.
  - intros Hreq. unfold Panel.get_value, Panel.validate_field.
    rewrite Hget, Hreq. reflexivity.
Qed.

Lemma empty_number_rejected_by_agent_witness :
  let manifest :=
    {| id := "app"; inputs := Some [Fixtures.mode_field; Fixtures.guarded_port];
       install_script := None; timeout_seconds := None |} in
  (exists error,
     Agent.validate_inputs manifest (Json.JD [("mode", "dev"); ("port", "")])
       = inr (false, Some error)) /\
  Panel.validate_field Fixtures.guarded_port
    (Panel.get_value [("mode", "dev"); ("port", "")] Fixtures.guarded_port)
    = (true, None).
Proof.
  cbv zeta.
  destruct (empty_number_rejected_by_agent
              {| id := "app";
                 inputs := Some [Fixtures.mode_field; Fixtures.guarded_port];
                 install_script := None; timeout_seconds := None |}
              [("mode", "dev"); ("port", "")] Fixtures.guarded_port)
    as (Hagent & Hpanel).
  - repeat constructor; simpl; intuition discriminate.
  - right. left. reflexivity.
  - right. reflexivity.
  - reflexivity.
  - split; [exact Hagent|]. apply Hpanel. reflexivity.
Defined.

(** Both validators read the inputs at the declared names (and, in the
    control plane, at the names of the visibility conditions) only. *)
Lemma condition_met_ext (c : Dict.dict string) (d1 d2 : Dict.dict string) :
  (forall k, In k (Dict.keys c) -> Dict.get d1 k = Dict.get d2 k) ->
  Panel.condition_met c d1 = Panel.condition_met c d2.
Proof.
  unfold Panel.condition_met. induction c as [|[k v] c IH]; [reflexivity|].
  intros H. simpl. rewrite (H k) by (left; reflexivity).
  rewrite IH; [reflexivity|]. intros k' Hin. apply H. right. exact Hin.
Qed.

Lemma panel_loop_ext (fields : list InputField) (d1 d2 : Dict.dict string)
    (errors : list string) :
  (forall field, In field fields ->
     Dict.get d1 (name field) = Dict.get d2 (name field) /\
     forall c k, visible_if field = Some c -> In k (Dict.keys c) ->
       Dict.get d1 k = Dict.get d2 k) ->
  Panel.validate_loop fields d1 errors = Panel.validate_loop fields d2 errors.
Proof.
  revert errors. induction fields as [|f fields IH]; intros errors H;
    [reflexivity|].
  simpl. destruct (H f) as (Hname & Hcond); [left; reflexivity|].
  assert (Hs : Panel.skipped f d1 = Panel.skipped f d2).
  { unfold Panel.skipped. destruct (visible_if f) as [[|kv c]|];
      try reflexivity.
    f_equal. apply condition_met_ext. intros k. by apply Hcond. }
  assert (Hv : Panel.get_value d1 f = Panel.get_value d2 f).
  { unfold Panel.get_value. by rewrite Hname. }
  rewrite Hs, Hv.
  assert (Hrest : forall field, In field fields ->
     Dict.get d1 (name field) = Dict.get d2 (name field) /\
     forall c k, visible_if field = Some c -> In k (Dict.keys c) ->
       Dict.get d1 k = Dict.get d2 k).
  { intros field Hin. apply H. right. exact Hin. }
  destruct (Panel.skipped f d2); [by apply IH|].
  destruct (Panel.validate_field f _) as [[|] [e|]]; by apply IH.
Qed.

Lemma omap_ext_in {A B : Type} (f g : A -> option B) (l : list A) :
  (forall x, In x l -> f x = g x) -> omap f l = omap g l.
Proof.
  induction l as [|a l IH]; intros H; [reflexivity|].
  assert (IH' : omap f l = omap g l).
  { apply IH. intros x Hin. apply H. right. exact Hin. }
  simpl. rewrite (H a) by (left; reflexivity).
  destruct (g a); [f_equal|]; exact IH'.
Qed.

Lemma agent_loop_ext (items : list (string * InputField))
    (d1 d2 : Dict.dict string) :
  (forall item, In item items ->
     Dict.get d1 (fst item) = Dict.get d2 (fst item)) ->
  Agent.validate_loop items (Json.JD d1)
    = Agent.validate_loop items (Json.JD d2).
Proof.
  intros H. rewrite !agent_loop_first_error.
  rewrite (omap_ext_in (Spec.agent_field_error d1)
             (Spec.agent_field_error d2)); [reflexivity|].
  intros [n f] Hin. apply H in Hin. simpl in *. by rewrite Hin.
Qed.

(** X8. An input that the manifest does not declare is looked at by neither
    validator, and reaches the installer all the same: under its
    upper-cased name it takes the place of a variable inherited from the
    agent's process and of any earlier input of that upper-cased name. *)
Theorem undeclared_input_is_exported_unchecked (w : Agent.World)
    (manifest : Manifest) (d : Dict.dict string) (k v : string) :
  (forall field, In field (get_inputs manifest) ->
     name field <> k /\
     forall c, visible_if field = Some c -> ~ In k (Dict.keys c)) ->
  ~ In k (Dict.keys d) ->
  Py.upper k <> "PROVISIONING_JOB" ->
  Py.upper k <> "DEBIAN_FRONTEND" ->
  Panel.validate_inputs manifest (Dict.set k v d)
    = Panel.validate_inputs manifest d /\
  Agent.validate_inputs manifest (Json.JD (Dict.set k v d))
    = Agent.validate_inputs manifest (Json.JD d) /\
  exists env,
    Agent.prepare_environment w (Json.JD (Dict.set k v d)) manifest
      = inr env /\
    env !! Py.upper k = Some v.
Proof.
  intros Hund Hfresh N1 N2. split; [|split].
  - unfold Panel.validate_inputs.
    rewrite (panel_loop_ext _ (Dict.set k v d) d); [reflexivity|].
    intros field Hin. destruct (Hund field Hin) as (Hn & Hc). split.
    + apply get_set_ne. congruence.
    + intros c k' Hv Hk'. apply get_set_ne. intros ->. by apply (Hc c).
  - unfold Agent.validate_inputs. apply agent_loop_ext.
    intros [n f] Hin. apply comprehension_items in Hin as (x & Hx & -> & ->).
    simpl. apply get_set_ne. destruct (Hund x Hx) as (Hn & _). congruence.
  - eexists. split; [reflexivity|].
    rewrite !lookup_insert_ne by done.
    rewrite set_fresh by exact Hfresh.
    rewrite fold_left_app. simpl. apply lookup_insert_eq.
Qed.

Lemma undeclared_input_is_exported_unchecked_witness :
  Panel.validate_inputs Fixtures.ssl_manifest
      (Dict.set "path" "/tmp/bin"
         [("enable_ssl", "true"); ("ssl_port", "443")])
    = Panel.validate_inputs Fixtures.ssl_manifest
        [("enable_ssl", "true"); ("ssl_port", "443")] /\
  Agent.validate_inputs Fixtures.ssl_manifest
      (Json.JD (Dict.set "path" "/tmp/bin"
                  [("enable_ssl", "true"); ("ssl_port", "443")]))
    = Agent.validate_inputs Fixtures.ssl_manifest
        (Json.JD [("enable_ssl", "true"); ("ssl_port", "443")]) /\
  exists env,
    Agent.prepare_environment Fixtures.slow_host
        (Json.JD (Dict.set "path" "/tmp/bin"
                    [("enable_ssl", "true"); ("ssl_port", "443")]))
        Fixtures.ssl_manifest = inr env /\
    env !! "PATH" = Some "/tmp/bin".
Proof.
  apply (undeclared_input_is_exported_unchecked Fixtures.slow_host
           Fixtures.ssl_manifest
           [("enable_ssl", "true"); ("ssl_port", "443")] "path" "/tmp/bin").
  - intros field [<-|[<-|[]]]; (split; [discriminate|]);
      intros c Hc; simpl in Hc; [discriminate|].
    injection Hc as <-. simpl. intuition discriminate.
  - simpl. intuition discriminate.
  - discriminate.
  - discriminate.
Defined.

(** ** The seeded manifests *)

(** X9. Every manifest of [generate_apps.py] for an app with a port: a
    request that the control plane accepts and that leaves the optional
    port empty is turned down by the agent, which reads the empty text as
    a port number. *)
Theorem seeded_port_left_empty (app : Seed.App) (d : Dict.dict string) :
  0 < Seed.port app ->
  Dict.get d "port" = Some "" ->
  fst (Panel.validate_inputs (Seed.manifest app) d) = true ->
  Agent.validate_inputs (Seed.manifest app) (Json.JD d)
    = inr (false, Some "Invalid port: port").
Proof.
  intros Hport Hget Hok.
  assert (Hfields : get_inputs (Seed.manifest app)
            = [Seed.domain_field; Seed.admin_email_field;
               Seed.port_field app]).
  { unfold get_inputs, Seed.manifest. cbn [inputs].
    destruct (0 <? Seed.port app) eqn:E; [reflexivity|lia]. }
  unfold Panel.validate_inputs in Hok. rewrite Hfields in Hok.
  cbn [fst] in Hok.
  assert (Hnil : Panel.validate_loop
                   [Seed.domain_field; Seed.admin_email_field;
                    Seed.port_field app] d [] = []).
  { destruct (Panel.validate_loop _ _ _); [reflexivity|discriminate]. }
  clear Hok.
  assert (Hpass : forall field,
            In field [Seed.domain_field; Seed.admin_email_field] ->
            Spec.agent_field_error d (name field, field) = None).
  { intros field Hin.
    assert (Hin' : In field [Seed.domain_field; Seed.admin_email_field;
                             Seed.port_field app]).
    { destruct Hin as [<-|[<-|[]]]; simpl; auto. }
    assert (Hshown : Panel.skipped field d = false).
    { destruct Hin as [<-|[<-|[]]]; reflexivity. }
    assert (Hreq : get_required field = true).
    { destruct Hin as [<-|[<-|[]]]; reflexivity. }
    pose proof (panel_loop_accepts _ _ _ Hnil Hin' Hshown) as Hacc.
    unfold Panel.validate_field in Hacc. rewrite Hreq in Hacc.
    unfold Spec.agent_field_error, Panel.get_value in *.
    destruct (Dict.get d (name field)) as [value|]; [|discriminate].
    simpl in Hacc. destruct (Panel.is_empty value) eqn:E; [discriminate|].
    destruct (_ ;;; _) eqn:Hchecks; [discriminate|].
    apply or_else_None in Hchecks as (Ht & Hr).
    by apply agent_checks_in_panel. }
  pose proof (Hpass Seed.domain_field (or_introl eq_refl)) as H1.
  pose proof (Hpass Seed.admin_email_field (or_intror (or_introl eq_refl)))
    as H2.
  assert (H3 : Spec.agent_field_error d ("port", Seed.port_field app)
               = Some "Invalid port: port").
  { simpl. rewrite Hget. reflexivity. }
  unfold Agent.validate_inputs. rewrite Hfields.
  rewrite agent_loop_first_error.
  change (Dict.comprehension name (fun inp => inp)
            [Seed.domain_field; Seed.admin_email_field; Seed.port_field app])
    with [("domain", Seed.domain_field);
          ("admin_email", Seed.admin_email_field);
          ("port", Seed.port_field app)].
  change (name Seed.domain_field) with "domain" in H1.
  change (name Seed.admin_email_field) with "admin_email" in H2.
  remember (Spec.agent_field_error d) as g eqn:Hg. clear Hg.
  simpl. rewrite H1, H2, H3. reflexivity.
Qed.

Lemma seeded_port_left_empty_witness :
  Agent.validate_inputs
      (Seed.manifest
         {| Seed.app_id := "grafana"; Seed.app_name := "Grafana";
            Seed.desc := "Analytics and monitoring platform";
            Seed.cat := "monitoring"; Seed.port := 3000 |})
      (Json.JD [("domain", "example.org");
                ("admin_email", "root@example.org"); ("port", "")])
    = inr (false, Some "Invalid port: port").
Proof.
  apply seeded_port_left_empty; [reflexivity|reflexivity|].
  vm_compute. reflexivity.
Defined.

(** ** The manifest registry *)








Lemma set_keys {V : Type} (k : string) (v : V) (d : Dict.dict V) :
  List.NoDup (Dict.keys d) -> List.NoDup (Dict.keys (Dict.set k v d)).
Proof.
  intros Hnd. destruct (in_dec string_dec k (Dict.keys d)) as [Hin|Hout].
  - assert (Heq : Dict.keys (Dict.set k v d) = Dict.keys d);
      [|by rewrite Heq].
    clear Hnd. induction d as [|[k' v'] d IH]; [destruct Hin|].
    simpl. destruct (String.eqb k k') eqn:E; [reflexivity|].
    simpl. f_equal. apply IH. destruct Hin as [Heq|Hin]; [|exact Hin].
    simpl in Heq. subst. by rewrite String.eqb_refl in E.
  - rewrite (set_fresh _ _ _ Hout). unfold Dict.keys in *.
    rewrite map_app. simpl.
    apply List.NoDup_Add with (a := k) (l := map fst d);
      [|split; assumption].
    rewrite <- (app_nil_r (map fst d)) at 1. apply List.Add_app.
Qed.

(** The registry after loading. *)
Lemma registry_after_loading (dirs : list Registry.AppDir) :
  let r := Registry.load_all (Some dirs) in
  let loaded (m : Registry.Entry) : Prop :=
    exists app_dir,
      In app_dir dirs /\ Registry.is_dir app_dir = true /\
      Registry.has_manifest app_dir = true /\
      Registry.load app_dir = inr m in
  List.NoDup (Dict.keys r) /\
  (forall app_id m,
     Registry.get r app_id = Some m ->
     id (Registry.manifest m) = app_id /\ loaded m) /\
  (forall m,
     loaded m ->
     exists m', Registry.get r (id (Registry.manifest m)) = Some m' /\
                loaded m') /\
  (length (Registry.list_all r) <= length dirs)%nat.
Proof.
  cbv zeta. unfold Registry.load_all, Registry.get.
  set (loaded := fun (ds : list Registry.AppDir) (m : Registry.Entry) =>
         exists app_dir,
           In app_dir ds /\ Registry.is_dir app_dir = true /\
           Registry.has_manifest app_dir = true /\
           Registry.load app_dir = inr m).
  assert (Hgen : forall ds acc,
            List.NoDup (Dict.keys acc) ->
            let r := Registry.load_loop ds acc in
            List.NoDup (Dict.keys r) /\
            (forall k m, Dict.get r k = Some m ->
               (loaded ds m /\ id (Registry.manifest m) = k) \/
               Dict.get acc k = Some m) /\
            (forall k, (exists m, Dict.get acc k = Some m) \/
                       (exists m, loaded ds m /\
                                  id (Registry.manifest m) = k) ->
               exists m', Dict.get r k = Some m') /\
            (length r <= length acc + length ds)%nat).
  { induction ds as [|a ds IH]; intros acc Hnd; cbv zeta.
    { simpl. split; [exact Hnd|]. split; [auto|]. split; [|lia].
      intros k [H|(m & (x & [] & _) & _)]. exact H. }
    assert (Hskip :
      (Registry.is_dir a = false \/ Registry.has_manifest a = false \/
       exists e, Registry.load a = inl e) ->
      Registry.load_loop (a :: ds) acc = Registry.load_loop ds acc).
    { intros [H|[H|(e & H)]]; simpl; rewrite H; [reflexivity| |].
      - by destruct (Registry.is_dir a).
      - by destruct (Registry.is_dir a), (Registry.has_manifest a). }
    assert (Hweak : forall m, loaded ds m -> loaded (a :: ds) m).
    { intros m (x & Hx & H). exists x. split; [by right|exact H]. }
    destruct (Registry.is_dir a) eqn:Hd;
      [destruct (Registry.has_manifest a) eqn:Hm;
       [destruct (Registry.load a) as [e|m0] eqn:Hl|]|].
    2:{ (* loaded *)
      simpl. rewrite Hd, Hm, Hl.
      destruct (IH (Dict.set (id (Registry.manifest m0)) m0 acc)
                  (set_keys _ _ _ Hnd)) as (H1 & H2 & H3 & H4).
      split; [exact H1|]. split; [|split].
      - intros k m Hget. apply H2 in Hget as [[Hlo Hid]|Hget]; [auto|].
        destruct (decide (id (Registry.manifest m0) = k)) as [<-|Hne].
        + rewrite get_set_eq in Hget. injection Hget as <-. left.
          split; [|reflexivity]. exists a. split; [by left|auto].
        + rewrite get_set_ne in Hget by exact Hne. auto.
      - intros k Hk. apply H3.
        destruct (decide (id (Registry.manifest m0) = k)) as [<-|Hne].
        { left. rewrite get_set_eq. eauto. }
        destruct Hk as [(m & Hget)|(m & (x & [<-|Hx] & Hload) & Hid)].
        + left. rewrite get_set_ne by exact Hne. eauto.
        + destruct Hload as (_ & _ & Hload). rewrite Hl in Hload.
          injection Hload as <-. contradiction.
        + right. exists m. split; [|exact Hid]. exists x. auto.
      - assert (Hlen : (length (Dict.set (id (Registry.manifest m0)) m0 acc)
                        <= S (length acc))%nat).
        { clear. induction acc as [|[k v] acc IH]; simpl; [lia|].
          destruct (String.eqb _ k); simpl; lia. }
        simpl. lia. }
    all: rewrite Hskip by eauto;
      destruct (IH acc Hnd) as (H1 & H2 & H3 & H4);
      (split; [exact H1|]); (split; [|split; [|simpl; lia]]).
    all: try (intros k m Hget; apply H2 in Hget as [[Hlo Hid]|Hget];
              [left; split; [by apply Hweak|exact Hid]|auto]).
    all: intros k Hk; apply H3;
      destruct Hk as [Hk|(m & (x & [<-|Hx] & Hx1 & Hx2 & Hx3) & Hid)];
      [by left|congruence|right; exists m; split; [exists x; auto|exact Hid]]. }
  destruct (Hgen dirs [] (List.NoDup_nil _)) as (H1 & H2 & H3 & H4).
  split; [exact H1|]. split; [|split].
  - intros k m Hget. apply H2 in Hget as [[Hlo Hid]|Hget]; [|discriminate].
    split; [exact Hid|exact Hlo].
  - intros m Hm. destruct (H3 (id (Registry.manifest m))) as (m' & Hget).
    { right. exists m. split; [exact Hm|reflexivity]. }
    exists m'. split; [exact Hget|].
    apply H2 in Hget as [[Hlo _]|Hget]; [exact Hlo|discriminate].
  - unfold Registry.list_all. rewrite length_map. simpl in H4. exact H4.
Qed.

Lemma load_loop_app (ds1 ds2 : list Registry.AppDir)
    (acc : Registry.registry) :
  Registry.load_loop (ds1 ++ ds2) acc
  = Registry.load_loop ds2 (Registry.load_loop ds1 acc).
Proof.
  revert acc. induction ds1 as [|a ds1 IH]; intros acc; simpl; [reflexivity|].
  destruct (Registry.is_dir a); [|apply IH].
  destruct (Registry.has_manifest a); [|apply IH].
  destruct (Registry.load a); apply IH.
Qed.

(** An id that no directory declares is served as before. *)
Lemma load_loop_other (ds : list Registry.AppDir) (acc : Registry.registry)
    (k : string) :
  (forall a m,
     In a ds -> Registry.is_dir a = true ->
     Registry.has_manifest a = true -> Registry.load a = inr m ->
     id (Registry.manifest m) <> k) ->
  Dict.get (Registry.load_loop ds acc) k = Dict.get acc k.
Proof.
  revert acc. induction ds as [|a ds IH]; intros acc H; simpl; [reflexivity|].
  assert (Hrest : forall a' m,
            In a' ds -> Registry.is_dir a' = true ->
            Registry.has_manifest a' = true -> Registry.load a' = inr m ->
            id (Registry.manifest m) <> k).
  { intros a' m Hin. apply H. by right. }
  destruct (Registry.is_dir a) eqn:Hd; [|by apply IH].
  destruct (Registry.has_manifest a) eqn:Hm; [|by apply IH].
  destruct (Registry.load a) as [e|m] eqn:Hl; [by apply IH|].
  rewrite IH by exact Hrest.
  apply get_set_ne. apply (H a m); auto. by left.
Qed.

(** X11. The registry after loading: a manifest is served under its own id
    and comes from an application directory whose manifest file loaded;
    and every directory whose manifest loads has its id served, a
    directory that fails to load does not stand in the way.  Of the
    directories that declare the same id, the last one is served. *)
Theorem registry_serves_loaded (dirs : list Registry.AppDir) :
  let r := Registry.load_all (Some dirs) in
  let loaded (m : Registry.Entry) : Prop :=
    exists app_dir,
      In app_dir dirs /\ Registry.is_dir app_dir = true /\
      Registry.has_manifest app_dir = true /\
      Registry.load app_dir = inr m in
  List.NoDup (Dict.keys r) /\
  (forall app_id m,
     Registry.get r app_id = Some m ->
     id (Registry.manifest m) = app_id /\ loaded m) /\
  (forall m,
     loaded m ->
     exists m', Registry.get r (id (Registry.manifest m)) = Some m' /\
                loaded m') /\
  (length (Registry.list_all r) <= length dirs)%nat /\
  (forall dirs1 app_dir dirs2 m,
     dirs = dirs1 ++ app_dir :: dirs2 ->
     Registry.is_dir app_dir = true ->
     Registry.has_manifest app_dir = true ->
     Registry.load app_dir = inr m ->
     (forall later m',
        In later dirs2 -> Registry.is_dir later = true ->
        Registry.has_manifest later = true ->
        Registry.load later = inr m' ->
        id (Registry.manifest m') <> id (Registry.manifest m)) ->
     Registry.get r (id (Registry.manifest m)) = Some m).
Proof.
  pose proof (registry_after_loading dirs) as H.
  cbv zeta in H |- *. destruct H as (H1 & H2 & H3 & H4).
  split; [exact H1|]. split; [exact H2|]. split; [exact H3|].
  split; [exact H4|].
  intros dirs1 app_dir dirs2 m -> Hd Hm Hl Hlater.
  unfold Registry.get, Registry.load_all.
  rewrite load_loop_app. simpl. rewrite Hd, Hm, Hl.
  rewrite load_loop_other by exact Hlater.
  apply get_set_eq.
Qed.

(** ** Strings and keys *)

Lemma length_append (a b : string) :
  String.length (a +:+ b) = (String.length a + String.length b)%nat.
Proof. induction a as [|c a IH]; simpl; [reflexivity|]. by rewrite IH. Qed.

Lemma append_cancel_r (a b t : string) : a +:+ t = b +:+ t -> a = b.
Proof.
  revert b. induction a as [|c a IH]; intros [|c' b] H.
  - reflexivity.
  - apply (f_equal String.length) in H. rewrite !length_append in H.
    simpl in H. lia.
  - apply (f_equal String.length) in H. rewrite !length_append in H.
    simpl in H. lia.
  - injection H as -> H. f_equal. by apply IH.
Qed.

Lemma queue_key_inj (s1 s2 : string) :
  Control.queue_key s1 = Control.queue_key s2 -> s1 = s2.
Proof.
  unfold Control.queue_key. intros H. injection H as H.
  change (s1 +:+ ":jobs" = s2 +:+ ":jobs") in H.
  by apply append_cancel_r in H.
Qed.

Lemma prefix_append (a s : string) : String.prefix a (a +:+ s) = true.
Proof.
  induction a as [|c a IH]; simpl; [by destruct s|].
  destruct (ascii_dec c c); [exact IH|contradiction].
Qed.

Lemma prefix_split (a s : string) :
  String.prefix a s = true -> exists t, s = a +:+ t.
Proof.
  revert s. induction a as [|c a IH]; intros s.
  { exists s. reflexivity. }
  destruct s as [|c' s]; simpl; [intros H; discriminate H|].
  destruct (ascii_dec c c') as [<-|]; [|intros H; discriminate H].
  intros H. apply IH in H as (t & ->). exists t. reflexivity.
Qed.

Lemma substring_of_append (needle a b : string) :
  Py.substring_of needle b = true -> Py.substring_of needle (a +:+ b) = true.
Proof.
  intros H. induction a as [|c a IH]; [exact H|].
  simpl. change (String c a +:+ b) with (String c (a +:+ b)).
  cbn [Py.substring_of]. rewrite IH. apply orb_true_r.
Qed.

Lemma prefix_refl (s : string) : String.prefix s s = true.
Proof.
  induction s as [|c s IH]; simpl; [reflexivity|].
  destruct (ascii_dec c c); [exact IH|contradiction].
Qed.

Lemma substring_of_self (needle : string) :
  Py.substring_of needle needle = true.
Proof.
  pose proof (prefix_refl needle) as H.
  destruct needle; cbn [Py.substring_of]; by rewrite H.
Qed.

(** ** The key-value server *)

Section Server.
Context {P Q : Type}.
Implicit Types (d : Redis.db P Q) (key : string).

Lemma lookup_set now d key v key' :
  Redis.lookup now (Redis.set d key v) key'
    = if decide (key = key') then Some (Redis.Str v None)
      else Redis.lookup now d key'.
Proof.
  unfold Redis.lookup, Redis.set. simpl.
  destruct (decide (key = key')) as [<-|Hne].
  - by rewrite lookup_insert_eq.
  - by rewrite lookup_insert_ne.
Qed.

Lemma lookup_setex now now' d key seconds v key' :
  Redis.lookup now' (Redis.setex now d key seconds v) key'
    = if decide (key = key')
      then (if now' <? now + seconds
            then Some (Redis.Str v (Some (now + seconds))) else None)
      else Redis.lookup now' d key'.
Proof.
  unfold Redis.lookup, Redis.setex. simpl.
  destruct (decide (key = key')) as [<-|Hne].
  - by rewrite lookup_insert_eq.
  - by rewrite lookup_insert_ne.
Qed.

Lemma lookup_publish now d channel message key :
  Redis.lookup now (Redis.publish d channel message) key
    = Redis.lookup now d key.
Proof. reflexivity. Qed.

Lemma lookup_delete now d key key' :
  Redis.lookup now (fst (Redis.delete now d key)) key'
    = if decide (key = key') then None else Redis.lookup now d key'.
Proof.
  unfold Redis.delete.
  destruct (Redis.lookup now d key) as [e|] eqn:He; simpl.
  - unfold Redis.lookup. simpl. destruct (decide (key = key')) as [<-|Hne].
    + by rewrite lookup_delete_eq.
    + by rewrite lookup_delete_ne.
  - destruct (decide (key = key')) as [<-|Hne]; [exact He|reflexivity].
Qed.

(** [RPUSH] on a key that holds no string appends to its list. *)
Lemma rpush_list now d key item items :
  Redis.lookup now d key = None /\ items = [] \/
  Redis.lookup now d key = Some (Redis.Lst items) ->
  exists d',
    Redis.rpush now d key item = inr d' /\
    Redis.published d' = Redis.published d /\
    forall now' key',
      Redis.lookup now' d' key'
        = if decide (key = key') then Some (Redis.Lst (items ++ [item]))
          else Redis.lookup now' d key'.
Proof.
  intros H. unfold Redis.rpush.
  destruct H as [[-> ->] | ->]; eexists; (split; [reflexivity|]);
    (split; [reflexivity|]); intros now' key'; unfold Redis.lookup; simpl;
    (destruct (decide (key = key')) as [<-|Hne];
     [by rewrite lookup_insert_eq|by rewrite lookup_insert_ne]).
Qed.

(** [BLPOP] takes the head of a list that is not empty. *)
Lemma blpop_head now d key item rest :
  Redis.lookup now d key = Some (Redis.Lst (item :: rest)) ->
  exists d',
    Redis.blpop now d key = inr (d', Some (key, item)) /\
    Redis.published d' = Redis.published d /\
    forall now' key',
      Redis.lookup now' d' key'
        = if decide (key = key')
          then match rest with
               | [] => None
               | _ :: _ => Some (Redis.Lst rest)
               end
          else Redis.lookup now' d key'.
Proof.
  intros H. unfold Redis.blpop. rewrite H. eexists. split; [reflexivity|].
  split; [reflexivity|]. intros now' key'. unfold Redis.lookup. simpl.
  destruct (decide (key = key')) as [<-|Hne]; destruct rest;
    by rewrite ?lookup_insert_eq, ?lookup_insert_ne, ?lookup_delete_eq,
               ?lookup_delete_ne.
Qed.

Lemma scan_iter_In now d pattern key :
  In key (Redis.scan_iter now d pattern) <->
  Redis.glob pattern key = true /\ Redis.lookup now d key <> None.
Proof.
  unfold Redis.scan_iter. rewrite filter_In, andb_true_iff. split.
  - intros (_ & Hg & Hl). split; [exact Hg|].
    destruct (Redis.lookup now d key); [discriminate|discriminate].
  - intros (Hg & Hl). split; [|split; [exact Hg|]].
    + unfold Redis.lookup in Hl.
      destruct (Redis.keys d !! key) as [e|] eqn:He; [|contradiction].
      apply in_map_iff. exists (key, e). split; [reflexivity|].
      apply list_elem_of_In, elem_of_map_to_list. exact He.
    + destruct (Redis.lookup now d key); [reflexivity|contradiction].
Qed.

Lemma scan_iter_NoDup now d pattern :
  List.NoDup (Redis.scan_iter now d pattern).
Proof.
  unfold Redis.scan_iter. apply List.NoDup_filter.
  apply NoDup_ListNoDup. apply (NoDup_fst_map_to_list (Redis.keys d)).
Qed.

End Server.

(** ** Patterns *)

Lemma match_lits (p : string) (ts : list Redis.token) (s : string) :
  Redis.match_tokens (map Redis.Lit (list_ascii_of_string p) ++ ts) (p +:+ s)
    = Redis.match_tokens ts s.
Proof.
  induction p as [|c p IH]; [reflexivity|].
  change (String c p +:+ s) with (String c (p +:+ s)). simpl.
  rewrite Ascii.eqb_refl. exact IH.
Qed.

Lemma match_lits_prefix (p : string) (ts : list Redis.token) (s : string) :
  Redis.match_tokens (map Redis.Lit (list_ascii_of_string p) ++ ts) s = true ->
  exists t, s = p +:+ t /\ Redis.match_tokens ts t = true.
Proof.
  revert s. induction p as [|c p IH]; intros s; simpl.
  { intros H. exists s. auto. }
  destruct s as [|c' s]; [discriminate|].
  intros H. apply andb_true_iff in H as (Hc & H).
  apply Ascii.eqb_eq in Hc as <-. apply IH in H as (t & -> & H).
  exists t. auto.
Qed.

Lemma match_any (s : string) : Redis.match_tokens [Redis.AnyString] s = true.
Proof.
  induction s as [|c s IH]; [reflexivity|].
  simpl in *. rewrite IH. first [reflexivity | apply orb_true_r].
Qed.

Lemma parse_plain (p rest : string) (n : nat) :
  Keyspace.plain p = true ->
  Redis.parse (String.length p + n) (p +:+ rest)
    = map Redis.Lit (list_ascii_of_string p) ++ Redis.parse n rest.
Proof.
  induction p as [|c p IH]; [reflexivity|].
  unfold Keyspace.plain. cbn [list_ascii_of_string forallb].
  intros H. apply andb_true_iff in H as (Hc & Hp).
  change (String c p +:+ rest) with (String c (p +:+ rest)).
  cbn [String.length Nat.add Redis.parse map app].
  cbn [existsb] in Hc. rewrite !negb_true_iff in Hc.
  rewrite !orb_false_iff in Hc. destruct Hc as (H1 & H2 & H3 & H4 & _).
  rewrite H1, H2, H3, H4. f_equal. by apply IH.
Qed.

(** A pattern made of a text without special characters and a final
    star matches the keys that start with the text. *)
Lemma glob_prefix (p key : string) :
  Keyspace.plain p = true ->
  Redis.glob (p +:+ "*") key = String.prefix p key.
Proof.
  intros Hp. unfold Redis.glob.
  rewrite length_append. change (String.length "*") with 1%nat.
  rewrite (parse_plain p "*" 1 Hp).
  change (Redis.parse 1 "*") with [Redis.AnyString].
  destruct (String.prefix p key) eqn:E.
  - apply prefix_split in E as (t & ->). rewrite match_lits. apply match_any.
  - destruct (Redis.match_tokens _ key) eqn:M; [|reflexivity].
    apply match_lits_prefix in M as (t & -> & _).
    by rewrite prefix_append in E.
Qed.

(** ** The shape of the keyspace *)

Lemma well_typed_insert (d : Control.db) (key : string)
    (e : Redis.entry Control.payload Json.Job) :
  Keyspace.well_typed d -> Keyspace.kind_ok key e = true ->
  Keyspace.well_typed (Redis.with_keys d (<[key := e]> (Redis.keys d))).
Proof.
  intros Hd He key' e'. simpl.
  destruct (decide (key = key')) as [<-|Hne].
  - rewrite lookup_insert_eq. intros H. injection H as <-. exact He.
  - rewrite lookup_insert_ne by exact Hne. apply Hd.
Qed.

Lemma well_typed_delete (d : Control.db) (key : string) :
  Keyspace.well_typed d ->
  Keyspace.well_typed (Redis.with_keys d (delete key (Redis.keys d))).
Proof.
  intros Hd key' e'. simpl.
  destruct (decide (key = key')) as [<-|Hne].
  - by rewrite lookup_delete_eq.
  - rewrite lookup_delete_ne by exact Hne. apply Hd.
Qed.

Lemma well_typed_lookup (d : Control.db) (now : Z) (key : string)
    (e : Redis.entry Control.payload Json.Job) :
  Keyspace.well_typed d -> Redis.lookup now d key = Some e ->
  Keyspace.kind_ok key e = true.
Proof.
  intros Hd. unfold Redis.lookup.
  destruct (Redis.keys d !! key) as [e'|] eqn:He; [|discriminate].
  destruct (Redis.live now e'); [|discriminate].
  intros H. injection H as <-. by apply Hd.
Qed.

(** Under a key that does not start with [agent:] there is no list. *)
Lemma get_returns (d : Control.db) (now : Z) (key : string) :
  Keyspace.well_typed d -> String.prefix "agent:" key = false ->
  exists v, Redis.get now d key = inr v.
Proof.
  intros Hd Hk. unfold Redis.get.
  destruct (Redis.lookup now d key) as [[v t|items]|] eqn:He; eauto.
  apply (well_typed_lookup _ _ _ _ Hd) in He. simpl in He. congruence.
Qed.

(** Under a queue key there is a list or nothing. *)
Lemma queue_lookup (d : Control.db) (now : Z) (server_id : string) :
  Keyspace.well_typed d ->
  Redis.lookup now d (Control.queue_key server_id)
    = match Keyspace.queue now d server_id with
      | [] => match Redis.lookup now d (Control.queue_key server_id) with
              | Some _ => Some (Redis.Lst [])
              | None => None
              end
      | items => Some (Redis.Lst items)
      end.
Proof.
  intros Hd. unfold Keyspace.queue.
  destruct (Redis.lookup now d _) as [[v t|[|item items]]|] eqn:He;
    try reflexivity.
  apply (well_typed_lookup _ _ _ _ Hd) in He.
  destruct v; simpl in He; try discriminate.
Qed.

Lemma read_all_returns (d : Control.db) (now : Z) (keys : list string)
    (apps : list Control.payload) :
  (forall key, In key keys -> exists v, Redis.get now d key = inr v) ->
  exists res,
    Control.read_all now d keys apps = inr res /\
    forall v, In v res <->
      In v apps \/ exists key, In key keys /\ Redis.get now d key = inr (Some v).
Proof.
  revert apps. induction keys as [|key keys IH]; intros apps Hk; simpl.
  { exists apps. split; [reflexivity|]. intros v. split; [auto|].
    intros [H|(key & [] & _)]. exact H. }
  destruct (Hk key (or_introl eq_refl)) as (v0 & Hget). rewrite Hget.
  assert (Hk' : forall key, In key keys ->
            exists v, Redis.get now d key = inr v).
  { intros k Hin. apply Hk. by right. }
  destruct v0 as [data|].
  - destruct (IH (apps ++ [data]) Hk') as (res & -> & Hres).
    exists res. split; [reflexivity|]. intros v. rewrite Hres, in_app_iff.
    simpl. split.
    + intros [[H|[<-|[]]]|(k & Hin & Hg)]; eauto 6.
    + intros [H|(k & [<-|Hin] & Hg)]; eauto 6.
      rewrite Hget in Hg. injection Hg as <-. auto.
  - destruct (IH apps Hk') as (res & -> & Hres).
    exists res. split; [reflexivity|]. intros v. rewrite Hres. split.
    + intros [H|(k & Hin & Hg)]; eauto 6.
    + intros [H|(k & [<-|Hin] & Hg)]; eauto 6. congruence.
Qed.

Lemma glob_installed (rest key : string) :
  Redis.glob ("installed:" +:+ rest) key = true ->
  String.prefix "agent:" key = false.
Proof.
  unfold Redis.glob. rewrite length_append.
  rewrite (parse_plain "installed:" rest (String.length rest) eq_refl).
  intros H. apply match_lits_prefix in H as (t & -> & _). reflexivity.
Qed.

Lemma list_loop_returns (d : Control.db) (now : Z)
    (user_id server_id : option string) (keys : list string)
    (jobs : list Control.payload) :
  (forall key, In key keys -> exists v, Redis.get now d key = inr v) ->
  exists res,
    Control.list_loop now user_id server_id d keys jobs = inr res /\
    forall v, In v res <->
      In v jobs \/
      exists key,
        In key keys /\ Py.substring_of ":result" key = false /\
        Redis.get now d key = inr (Some v) /\
        Control.filtered_out user_id v "user_id" = false /\
        Control.filtered_out server_id v "server_id" = false.
Proof.
  revert jobs. induction keys as [|key keys IH]; intros jobs Hk; simpl.
  { exists jobs. split; [reflexivity|]. intros v. split; [auto|].
    intros [H|(key & [] & _)]. exact H. }
  assert (Hk' : forall key, In key keys ->
            exists v, Redis.get now d key = inr v).
  { intros k Hin. apply Hk. by right. }
  assert (Hskip : forall res,
            (forall v, In v res <->
               In v jobs \/
               exists key0, In key0 keys /\
                 Py.substring_of ":result" key0 = false /\
                 Redis.get now d key0 = inr (Some v) /\
                 Control.filtered_out user_id v "user_id" = false /\
                 Control.filtered_out server_id v "server_id" = false) ->
            (forall v, Py.substring_of ":result" key = false ->
                       Redis.get now d key = inr (Some v) ->
                       Control.filtered_out user_id v "user_id" = false ->
                       Control.filtered_out server_id v "server_id" = false ->
                       False) ->
            forall v, In v res <->
               In v jobs \/
               exists key0, In key0 (key :: keys) /\
                 Py.substring_of ":result" key0 = false /\
                 Redis.get now d key0 = inr (Some v) /\
                 Control.filtered_out user_id v "user_id" = false /\
                 Control.filtered_out server_id v "server_id" = false).
  { intros res Hres Hno v. rewrite Hres. split.
    - intros [H|(k & Hin & H)]; [auto|]. right. exists k. split; [by right|].
      exact H.
    - intros [H|(k & [<-|Hin] & H1 & H2 & H3 & H4)]; [auto| |eauto 8].
      exfalso. eapply Hno; eauto. }
  destruct (Py.substring_of ":result" key) eqn:Hr; simpl.
  { destruct (IH jobs Hk') as (res & -> & Hres). exists res.
    split; [reflexivity|]. apply Hskip; [exact Hres|]. discriminate. }
  destruct (Hk key (or_introl eq_refl)) as (v0 & Hget). rewrite Hget.
  destruct v0 as [job|].
  2:{ destruct (IH jobs Hk') as (res & -> & Hres). exists res.
      split; [reflexivity|]. apply Hskip; [exact Hres|].
      intros v _ Hv. congruence. }
  destruct (Control.filtered_out user_id job "user_id") eqn:Hu.
  { destruct (IH jobs Hk') as (res & -> & Hres). exists res.
    split; [reflexivity|]. apply Hskip; [exact Hres|].
    intros v _ Hv Hu' _. assert (v = job) by congruence. subst. congruence. }
  destruct (Control.filtered_out server_id job "server_id") eqn:Hs.
  { destruct (IH jobs Hk') as (res & -> & Hres). exists res.
    split; [reflexivity|]. apply Hskip; [exact Hres|].
    intros v _ Hv _ Hs'. assert (v = job) by congruence. subst. congruence. }
  destruct (IH (jobs ++ [job]) Hk') as (res & -> & Hres). exists res.
  split; [reflexivity|]. intros v. rewrite Hres, in_app_iff. simpl. split.
  - intros [[H|[<-|[]]]|(k & Hin & H)]; [auto| |].
    + right. exists key. auto 6.
    + right. exists k. split; [by right|exact H].
  - intros [H|(k & [<-|Hin] & H1 & H2 & H3 & H4)]; [auto| |eauto 8].
    left. right. left. congruence.
Qed.

Lemma kind_job (job_id : string) (job : Json.Job) (t : option Z) :
  Keyspace.kind_ok (Control.job_key job_id)
    (Redis.Str (Control.PJob job) t) = true.
Proof. apply (prefix_append "job:"). Qed.

Lemma kind_queue (server_id : string) (items : list Json.Job) :
  Keyspace.kind_ok (Control.queue_key server_id) (Redis.Lst items) = true.
Proof. apply (prefix_append "agent:"). Qed.

Lemma kind_installed (server_id app_id : string)
    (data : Control.Installation) (t : option Z) :
  Keyspace.kind_ok (Control.installed_key server_id app_id)
    (Redis.Str (Control.PInstalled data) t) = true.
Proof. apply (prefix_append "installed:"). Qed.

Lemma kind_result (job_id : string) (result : Agent.Result) (t : option Z) :
  Keyspace.kind_ok ("job:" +:+ job_id +:+ ":result")
    (Redis.Str (Control.PResult result) t) = true.
Proof.
  change (String.prefix "job:" ("job:" +:+ (job_id +:+ ":result"))
          && Py.substring_of ":result" ("job:" +:+ (job_id +:+ ":result"))
          = true).
  rewrite prefix_append.
  apply (substring_of_append _ "job:"), substring_of_append,
    substring_of_self.
Qed.

Lemma well_typed_empty : Keyspace.well_typed Keyspace.empty.
Proof. intros key e H. simpl in H. rewrite lookup_empty in H. discriminate H. Qed.

Lemma install_app_well_typed (registry : Registry.registry)
    (SECRET_KEY : string) (session : option string) (now : Z)
    (job_id created_at installed_at app_id : string)
    (data : Control.InstallRequest) (d : Control.db) :
  Keyspace.well_typed d ->
  exists response d',
    Control.install_app registry SECRET_KEY session now job_id created_at
      installed_at app_id data d = (inr response, d') /\
    Keyspace.well_typed d'.
Proof.
  intros Hd. unfold Control.install_app, Control.login_required.
  destruct session as [user|]; [|eauto].
  destruct (Registry.get registry app_id) as [manifest|]; [|eauto].
  destruct (Control.request_server_id data) as [server_id|]; [|eauto].
  destruct (negb _); [eauto|].
  destruct (Panel.validate_inputs _ _) as [[|] errors]; simpl; [|eauto].
  unfold Control.create_job.
  set (job := Panel.create_job _ _ _ _ _ _ _).
  assert (Hd1 : Keyspace.well_typed
            (Redis.setex now d (Control.job_key job_id) 86400
               (Control.PJob job))).
  { apply well_typed_insert; [exact Hd|apply kind_job]. }
  unfold Redis.rpush.
  destruct (Redis.lookup now _ (Control.queue_key server_id))
    as [[v t|items]|] eqn:He.
  - apply (well_typed_lookup _ _ _ _ Hd1) in He.
    destruct v; simpl in He; discriminate.
  - eexists _, _. split; [reflexivity|].
    apply well_typed_insert; [|apply kind_installed].
    apply (well_typed_insert _ (Control.queue_key server_id)
             (Redis.Lst (items ++ [job])) Hd1). apply kind_queue.
  - eexists _, _. split; [reflexivity|].
    apply well_typed_insert; [|apply kind_installed].
    apply (well_typed_insert _ (Control.queue_key server_id)
             (Redis.Lst [job]) Hd1). apply kind_queue.
Qed.

Lemma uninstall_app_well_typed (session : option string) (now : Z)
    (app_id : string) (server_id : option string) (d : Control.db) :
  Keyspace.well_typed d ->
  exists response d',
    Control.uninstall_app session now app_id server_id d
      = (inr response, d') /\
    Keyspace.well_typed d'.
Proof.
  intros Hd.
  unfold Control.uninstall_app, Control.login_required, Control.uninstall.
  destruct session as [user|]; [|eauto].
  unfold Redis.delete. destruct (Redis.lookup now d _); simpl.
  - eexists _, _. split; [reflexivity|]. by apply well_typed_delete.
  - eauto.
Qed.

Lemma turn_well_typed (w : Agent.World) (AGENT_ID : string) (now later : Z)
    (st : Daemon.State) :
  Keyspace.well_typed (Daemon.redis st) ->
  (exists popped,
     Redis.blpop now (Daemon.redis st) (Control.queue_key AGENT_ID)
       = inr popped) /\
  Keyspace.well_typed
    (Daemon.redis (snd (Daemon.turn w AGENT_ID now later st))).
Proof.
  intros Hd. unfold Daemon.turn, Daemon.poll_jobs, Redis.blpop.
  destruct (Redis.lookup now _ (Control.queue_key AGENT_ID))
    as [[v t|[|job rest]]|] eqn:He.
  - apply (well_typed_lookup _ _ _ _ Hd) in He.
    destruct v; simpl in He; discriminate.
  - split; [eauto|]. exact Hd.
  - split; [eauto|].
    set (d1 := Redis.with_keys (Daemon.redis st) _).
    assert (Hd1 : Keyspace.well_typed d1).
    { unfold d1. destruct rest.
      - by apply well_typed_delete.
      - apply well_typed_insert; [exact Hd|apply kind_queue]. }
    destruct (Dict.get job "job_id"); [|exact Hd1].
    destruct (Agent.execute_job w job _) as [[e|result] ex]; [exact Hd1|].
    simpl. unfold Daemon.publish_result.
    apply (well_typed_insert d1 _ _ Hd1). apply kind_result.
  - split; [eauto|]. exact Hd.
Qed.

Lemma plain_append (a b : string) :
  Keyspace.plain a = true -> Keyspace.plain b = true ->
  Keyspace.plain (a +:+ b) = true.
Proof.
  unfold Keyspace.plain. intros Ha Hb.
  induction a as [|c a IH]; [exact Hb|].
  change (String c a +:+ b) with (String c (a +:+ b)).
  cbn [list_ascii_of_string forallb] in *.
  apply andb_true_iff in Ha as (Hc & Ha). rewrite Hc. by apply IH.
Qed.

(** What [list_installed] returns: the records under the live keys that
    match the pattern. *)
Lemma list_installed_returns (now : Z) (server_id : string) (d : Control.db) :
  Keyspace.well_typed d ->
  exists apps,
    Control.list_installed now server_id d = inr apps /\
    forall v, In v apps <->
      exists key t,
        Redis.glob ("installed:" +:+ server_id +:+ ":*") key = true /\
        Redis.lookup now d key = Some (Redis.Str v t).
Proof.
  intros Hd. unfold Control.list_installed.
  destruct (read_all_returns d now
              (Redis.scan_iter now d ("installed:" +:+ server_id +:+ ":*"))
              []) as (res & H & Hres).
  { intros key Hin. apply scan_iter_In in Hin as (Hg & _).
    apply (get_returns d now key Hd). by apply glob_installed in Hg. }
  exists res. split; [exact H|]. intros v. rewrite Hres. split.
  - intros [[]|(key & Hin & Hget)].
    apply scan_iter_In in Hin as (Hg & _). unfold Redis.get in Hget.
    destruct (Redis.lookup now d key) as [[v' t|items]|] eqn:He;
      try discriminate.
    injection Hget as <-. eauto.
  - intros (key & t & Hg & He). right. exists key. split.
    + apply scan_iter_In. split; [exact Hg|]. by rewrite He.
    + unfold Redis.get. by rewrite He.
Qed.

(** What [list_jobs] returns. *)
Lemma list_jobs_returns (now : Z) (user_id server_id : option string)
    (d : Control.db) :
  Keyspace.well_typed d ->
  exists jobs,
    Control.list_jobs now user_id server_id d = inr jobs /\
    forall v, In v jobs <->
      exists key t,
        String.prefix "job:" key = true /\
        Py.substring_of ":result" key = false /\
        Redis.lookup now d key = Some (Redis.Str v t) /\
        Control.filtered_out user_id v "user_id" = false /\
        Control.filtered_out server_id v "server_id" = false.
Proof.
  intros Hd. unfold Control.list_jobs.
  assert (Hglob : forall key, Redis.glob "job:*" key = String.prefix "job:" key).
  { intros key. change "job:*" with ("job:" +:+ "*").
    apply (glob_prefix "job:" key eq_refl). }
  destruct (list_loop_returns d now user_id server_id
              (Redis.scan_iter now d "job:*") []) as (res & H & Hres).
  { intros key Hin. apply scan_iter_In in Hin as (Hg & _).
    apply (get_returns d now key Hd). rewrite Hglob in Hg.
    apply prefix_split in Hg as (t & ->). reflexivity. }
  exists res. split; [exact H|]. intros v. rewrite Hres. split.
  - intros [[]|(key & Hin & Hr & Hget & Hu & Hs)].
    apply scan_iter_In in Hin as (Hg & _). rewrite Hglob in Hg.
    unfold Redis.get in Hget.
    destruct (Redis.lookup now d key) as [[v' t|items]|] eqn:He;
      try discriminate.
    injection Hget as <-. eauto 10.
  - intros (key & t & Hp & Hr & He & Hu & Hs). right. exists key.
    split; [|split; [exact Hr|split; [|auto]]].
    + apply scan_iter_In. rewrite Hglob. split; [exact Hp|]. by rewrite He.
    + unfold Redis.get. by rewrite He.
Qed.

(** X12. The keyspace keeps its shape, and so no operation of the control
    plane or of an agent meets a key of the wrong kind: from the empty
    keyspace on, the views answer (no exception of the server leaves
    them), the listings return, and the agents' polls pop from lists. *)
Theorem keyspace_stays_well_typed :
  Keyspace.well_typed Keyspace.empty /\
  (forall registry SECRET_KEY session now job_id created_at installed_at
          app_id data d,
     Keyspace.well_typed d ->
     exists response d',
       Control.install_app registry SECRET_KEY session now job_id created_at
         installed_at app_id data d = (inr response, d') /\
       Keyspace.well_typed d') /\
  (forall session now app_id server_id d,
     Keyspace.well_typed d ->
     exists response d',
       Control.uninstall_app session now app_id server_id d
         = (inr response, d') /\
       Keyspace.well_typed d') /\
  (forall session now job_id d,
     Keyspace.well_typed d ->
     exists response,
       Control.get_job_view session now job_id d = (inr response, d)) /\
  (forall now server_id d,
     Keyspace.well_typed d ->
     exists apps, Control.list_installed now server_id d = inr apps) /\
  (forall now user_id server_id d,
     Keyspace.well_typed d ->
     exists jobs, Control.list_jobs now user_id server_id d = inr jobs) /\
  (forall w AGENT_ID now later st,
     Keyspace.well_typed (Daemon.redis st) ->
     (exists popped,
        Redis.blpop now (Daemon.redis st) (Control.queue_key AGENT_ID)
          = inr popped) /\
     Keyspace.well_typed
       (Daemon.redis (snd (Daemon.turn w AGENT_ID now later st)))).
Proof.
  split; [exact well_typed_empty|].
  split; [|split; [|split; [|split; [|split]]]].
  - intros. by apply install_app_well_typed.
  - intros. by apply uninstall_app_well_typed.
  - intros session now job_id d Hd.
    unfold Control.get_job_view, Control.login_required, Control.get_job,
      Control.get_job_result.
    destruct session as [user|]; [|eauto].
    destruct (get_returns d now (Control.job_key job_id) Hd eq_refl)
      as (job & ->).
    destruct (get_returns d now (Control.result_key job_id) Hd eq_refl)
      as (result & ->).
    destruct job; eauto.
  - intros now server_id d Hd.
    destruct (list_installed_returns now server_id d Hd) as (apps & H & _).
    eauto.
  - intros now user_id server_id d Hd.
    destruct (list_jobs_returns now user_id server_id d Hd) as (jobs & H & _).
    eauto.
  - intros. by apply turn_well_typed.
Qed.

(** ** Installing an application *)

Lemma validate_inputs_accepts (manifest : Manifest) (inputs : Dict.dict string) :
  fst (Panel.validate_inputs manifest inputs) = true ->
  Panel.validate_inputs manifest inputs = (true, []).
Proof.
  unfold Panel.validate_inputs. simpl.
  destruct (Panel.validate_loop _ _ _); [reflexivity|discriminate].
Qed.

Local Ltac refused :=
  repeat match goal with |- _ /\ _ => split end; intros;
  try congruence;
  match goal with
  | H : _ \/ _ |- _ =>
      destruct H as [H|[? H]]; simpl in H;
      first [by destruct H | discriminate H | congruence]
  end.

(** X13. [install_app] turns a request down, without touching the keyspace,
    when there is no session, when the registry does not know the
    application, when the request names no server, and when the inputs
    do not validate; the keyspace changes, or the answer is 201, only
    for a request that passed all four checks. *)
Theorem install_app_guards (registry : Registry.registry)
    (SECRET_KEY : string) (session : option string) (now : Z)
    (job_id created_at installed_at app_id : string)
    (data : Control.InstallRequest) (d : Control.db) :
  let run :=
    Control.install_app registry SECRET_KEY session now job_id created_at
      installed_at app_id data d in
  let inputs :=
    match Control.request_inputs data with Some i => i | None => [] end in
  (session = None ->
   run = (inr (Control.Failure "Authentication required", 401), d)) /\
  (session <> None -> Registry.get registry app_id = None ->
   run = (inr (Control.Failure "Application not found", 404), d)) /\
  (session <> None -> Registry.get registry app_id <> None ->
   Control.request_server_id data = None \/
   Control.request_server_id data = Some "" ->
   run = (inr (Control.Failure "server_id is required", 400), d)) /\
  (forall manifest server_id errors,
     session <> None -> Registry.get registry app_id = Some manifest ->
     Control.request_server_id data = Some server_id -> server_id <> "" ->
     Panel.validate_inputs (Registry.manifest manifest) inputs
       = (false, errors) ->
     run = (inr (Control.ValidationFailure "Input validation failed" errors,
                 400), d)) /\
  (snd run <> d \/ (exists body, fst run = inr (body, 201)) ->
   session <> None /\
   exists manifest server_id,
     Registry.get registry app_id = Some manifest /\
     Control.request_server_id data = Some server_id /\ server_id <> "" /\
     Panel.validate_inputs (Registry.manifest manifest) inputs = (true, [])).
Proof.
  cbv zeta. unfold Control.install_app, Control.login_required.
  destruct session as [user|].
  2:{ refused. }
  destruct (Registry.get registry app_id) as [manifest|].
  2:{ refused. }
  destruct (Control.request_server_id data) as [server_id|].
  2:{ refused. }
  destruct (String.eqb server_id "") eqn:E.
  { apply String.eqb_eq in E as ->. cbn [Registry.truthy String.eqb negb].
    refused. }
  assert (Ht : negb (Registry.truthy (Some server_id)) = false).
  { simpl. by rewrite E. }
  rewrite Ht. apply String.eqb_neq in E.
  destruct (Panel.validate_inputs _ _) as [[|] errors] eqn:Hv; cbn [negb].
  - pose proof (validate_inputs_accepts (Registry.manifest manifest)
                  match Control.request_inputs data with
                  | Some i => i
                  | None => []
                  end) as Hacc.
    rewrite Hv in Hacc. specialize (Hacc eq_refl). injection Hacc as ->.
    repeat match goal with |- _ /\ _ => split end; intros; try congruence;
      try match goal with
          | H : _ = None \/ _ |- _ => destruct H; congruence
          end.
    split; [discriminate|]. eauto 7.
  - repeat match goal with |- _ /\ _ => split end; intros; try congruence;
      match goal with
      | H : _ = None \/ _ |- _ => destruct H; congruence
      | H : _ <> _ \/ _ |- _ =>
          destruct H as [H|[? H]]; simpl in H;
          first [by destruct H | discriminate H]
      end.
Qed.

Lemma create_job_keys (SECRET_KEY job_id created_at app_id : string)
    (inputs : Dict.dict string) (server_id user_id : string) :
  let job :=
    Panel.create_job SECRET_KEY job_id created_at app_id inputs server_id
      user_id in
  Spec.has_keys job (Json.JS job_id) (Json.JS app_id) (Json.JD inputs) /\
  Dict.get job "status" = Some (Json.JS "queued") /\
  Dict.get job "server_id" = Some (Json.JS server_id) /\
  Dict.get job "user_id" = Some (Json.JS user_id).
Proof.
  cbv zeta. unfold Panel.create_job, Spec.has_keys.
  rewrite !get_set_ne by discriminate. repeat split.
Qed.

Lemma key_kinds (server_id app_id job_id server_id' : string) :
  Control.installed_key server_id app_id <> Control.queue_key server_id' /\
  Control.installed_key server_id app_id <> Control.job_key job_id /\
  Control.queue_key server_id' <> Control.job_key job_id.
Proof. repeat split; discriminate. Qed.

(** The keyspace after an installation request that passed the checks. *)
Lemma install_app_effect (registry : Registry.registry)
    (SECRET_KEY user : string) (now : Z)
    (job_id created_at installed_at app_id : string)
    (data : Control.InstallRequest) (d : Control.db)
    (manifest : Registry.Entry) (server_id : string) :
  let inputs :=
    match Control.request_inputs data with Some i => i | None => [] end in
  let user_id :=
    match Control.request_user_id data with
    | Some u => u
    | None => "anonymous"
    end in
  let job :=
    Panel.create_job SECRET_KEY job_id created_at app_id inputs server_id
      user_id in
  let record :=
    {| Control.app_id := app_id; Control.server_id := server_id;
       Control.job_id := job_id; Control.inputs := inputs;
       Control.installed_at := installed_at |} in
  Keyspace.well_typed d ->
  Registry.get registry app_id = Some manifest ->
  Control.request_server_id data = Some server_id -> server_id <> "" ->
  fst (Panel.validate_inputs (Registry.manifest manifest) inputs) = true ->
  exists d',
    Control.install_app registry SECRET_KEY (Some user) now job_id created_at
      installed_at app_id data d
      = (inr (Control.JobCreated job_id "Installation job created", 201), d')
    /\ Redis.published d' = Redis.published d
    /\ forall t key,
         Redis.lookup t d' key =
           if decide (key = Control.installed_key server_id app_id)
           then Some (Redis.Str (Control.PInstalled record) None)
           else if decide (key = Control.queue_key server_id)
           then Some (Redis.Lst (Keyspace.queue now d server_id ++ [job]))
           else if decide (key = Control.job_key job_id)
           then (if t <? now + 86400
                 then Some (Redis.Str (Control.PJob job) (Some (now + 86400)))
                 else None)
           else Redis.lookup t d key.
Proof.
  cbv zeta. intros Hd Hm Hs Hne Hv.
  apply validate_inputs_accepts in Hv.
  unfold Control.install_app, Control.login_required. rewrite Hm, Hs.
  assert (Ht : negb (Registry.truthy (Some server_id)) = false).
  { simpl. apply String.eqb_neq in Hne. by rewrite Hne. }
  rewrite Ht, Hv. cbn [negb].
  unfold Control.create_job, Control.mark_installed.
  set (job := Panel.create_job _ _ _ _ _ _ _).
  destruct (key_kinds server_id app_id job_id server_id) as (K1 & K2 & K3).
  assert (Hq : Redis.lookup now
                 (Redis.setex now d (Control.job_key job_id) 86400
                    (Control.PJob job)) (Control.queue_key server_id)
               = Redis.lookup now d (Control.queue_key server_id)).
  { rewrite lookup_setex. destruct (decide _) as [Heq|]; [|reflexivity].
    by destruct K3. }
  unfold Redis.rpush. rewrite Hq. unfold Keyspace.queue.
  assert (Hfinal : forall items t key,
    Redis.lookup t
      (Redis.set
         (Redis.with_keys
            (Redis.setex now d (Control.job_key job_id) 86400
               (Control.PJob job))
            (<[Control.queue_key server_id := Redis.Lst (items ++ [job])]>
               (Redis.keys
                  (Redis.setex now d (Control.job_key job_id) 86400
                     (Control.PJob job)))))
         (Control.installed_key server_id app_id)
         (Control.PInstalled
            {| Control.app_id := app_id; Control.server_id := server_id;
               Control.job_id := job_id;
               Control.inputs :=
                 match Control.request_inputs data with
                 | Some i => i
                 | None => []
                 end;
               Control.installed_at := installed_at |})) key
    = if decide (key = Control.installed_key server_id app_id)
      then Some (Redis.Str (Control.PInstalled
            {| Control.app_id := app_id; Control.server_id := server_id;
               Control.job_id := job_id;
               Control.inputs :=
                 match Control.request_inputs data with
                 | Some i => i
                 | None => []
                 end;
               Control.installed_at := installed_at |}) None)
      else if decide (key = Control.queue_key server_id)
      then Some (Redis.Lst (items ++ [job]))
      else if decide (key = Control.job_key job_id)
      then (if t <? now + 86400
            then Some (Redis.Str (Control.PJob job) (Some (now + 86400)))
            else None)
      else Redis.lookup t d key).
  { intros items t key. unfold Redis.lookup, Redis.set, Redis.setex. simpl.
    destruct (decide (key = Control.installed_key server_id app_id)) as [->|N1].
    { by rewrite lookup_insert_eq. }
    rewrite lookup_insert_ne by congruence.
    destruct (decide (key = Control.queue_key server_id)) as [->|N2].
    { by rewrite lookup_insert_eq. }
    rewrite lookup_insert_ne by congruence.
    destruct (decide (key = Control.job_key job_id)) as [->|N3].
    { by rewrite lookup_insert_eq. }
    by rewrite lookup_insert_ne by congruence. }
  destruct (Redis.lookup now d (Control.queue_key server_id))
    as [[v t0|items]|] eqn:He.
  - apply (well_typed_lookup _ _ _ _ Hd) in He.
    destruct v; simpl in He; discriminate.
  - eexists. split; [reflexivity|]. split; [reflexivity|]. apply Hfinal.
  - eexists. split; [reflexivity|]. split; [reflexivity|].
    apply (Hfinal []).
Qed.

(** X14. A request that passes the checks is answered 201; its job is stored
    for a day, signed, and put at the end of the queue of its server,
    where the agent of that name finds it once the jobs queued before it
    are taken; the queues of the other servers are as they were.  An
    agent that holds the secret of the control plane accepts the
    signature. *)
Theorem installed_job_reaches_its_agent (registry : Registry.registry)
    (SECRET_KEY user : string) (now : Z)
    (job_id created_at installed_at app_id : string)
    (data : Control.InstallRequest) (d : Control.db)
    (manifest : Registry.Entry) (server_id : string) :
  let inputs :=
    match Control.request_inputs data with Some i => i | None => [] end in
  let user_id :=
    match Control.request_user_id data with
    | Some u => u
    | None => "anonymous"
    end in
  let job :=
    Panel.create_job SECRET_KEY job_id created_at app_id inputs server_id
      user_id in
  Keyspace.well_typed d ->
  Registry.get registry app_id = Some manifest ->
  Control.request_server_id data = Some server_id -> server_id <> "" ->
  fst (Panel.validate_inputs (Registry.manifest manifest) inputs) = true ->
  exists d',
    Control.install_app registry SECRET_KEY (Some user) now job_id created_at
      installed_at app_id data d
      = (inr (Control.JobCreated job_id "Installation job created", 201), d')
    /\ (forall t, t < now + 86400 ->
          Control.get_job t job_id d' = inr (Some (Control.PJob job)))
    /\ (forall t, now + 86400 <= t -> Control.get_job t job_id d' = inr None)
    /\ (forall t, Keyspace.queue t d' server_id
                  = Keyspace.queue now d server_id ++ [job])
    /\ (forall t other, other <> server_id ->
          Keyspace.queue t d' other = Keyspace.queue t d other)
    /\ (forall t, Keyspace.queue now d server_id = [] ->
          exists d'',
            Daemon.poll_jobs server_id t d' = (inr (Some job), d'') /\
            Keyspace.queue t d'' server_id = [])
    /\ (forall w, Agent.SECRET_KEY w = SECRET_KEY ->
          Agent.validate_signature w job = inr true).
Proof.
  cbv zeta. intros Hd Hm Hs Hne Hv.
  destruct (install_app_effect registry SECRET_KEY user now job_id created_at
              installed_at app_id data d manifest server_id Hd Hm Hs Hne Hv)
    as (d' & Hrun & Hpub & Hlook).
  exists d'. split; [exact Hrun|].
  set (job := Panel.create_job _ _ _ _ _ _ _) in *.
  destruct (key_kinds server_id app_id job_id server_id) as (K1 & K2 & K3).
  assert (Hjob : forall t,
            Redis.lookup t d' (Control.job_key job_id)
              = if t <? now + 86400
                then Some (Redis.Str (Control.PJob job) (Some (now + 86400)))
                else None).
  { intros t. rewrite Hlook.
    destruct (decide _) as [Heq|_]; [by destruct K2|].
    destruct (decide _) as [Heq|_]; [by destruct K3|].
    destruct (decide _) as [_|N]; [reflexivity|by destruct N]. }
  assert (Hqueue : forall t,
            Redis.lookup t d' (Control.queue_key server_id)
              = Some (Redis.Lst (Keyspace.queue now d server_id ++ [job]))).
  { intros t. rewrite Hlook.
    destruct (decide _) as [Heq|_]; [by destruct K1|].
    destruct (decide _) as [_|N]; [reflexivity|by destruct N]. }
  split; [|split; [|split; [|split; [|split]]]].
  - intros t Ht. unfold Control.get_job, Redis.get. rewrite Hjob.
    destruct (t <? now + 86400) eqn:E; [reflexivity|lia].
  - intros t Ht. unfold Control.get_job, Redis.get. rewrite Hjob.
    destruct (t <? now + 86400) eqn:E; [lia|reflexivity].
  - intros t. unfold Keyspace.queue at 1. by rewrite Hqueue.
  - intros t other Ho. unfold Keyspace.queue. rewrite Hlook.
    destruct (key_kinds server_id app_id job_id other) as (K1' & _ & K3').
    destruct (decide _) as [Heq|_]; [by destruct K1'|].
    destruct (decide _) as [Heq|_]; [by apply queue_key_inj in Heq|].
    destruct (decide _) as [Heq|_]; [by destruct K3'|reflexivity].
  - intros t Hempty. rewrite Hempty in Hqueue. simpl in Hqueue.
    destruct (blpop_head t d' (Control.queue_key server_id) job []
                (Hqueue t)) as (d'' & Hpop & _ & Hl).
    exists d''. unfold Daemon.poll_jobs. rewrite Hpop.
    destruct (create_job_keys SECRET_KEY job_id created_at app_id
                match Control.request_inputs data with
                | Some i => i
                | None => []
                end server_id
                match Control.request_user_id data with
                | Some u => u
                | None => "anonymous"
                end) as ((Hid & _) & _).
    fold job in Hid. rewrite Hid. split; [reflexivity|].
    unfold Keyspace.queue. rewrite Hl.
    destruct (decide _) as [_|N]; [reflexivity|by destruct N].
  - intros w <-. unfold job, Panel.create_job.
    rewrite validate_signed. by rewrite String.eqb_refl.
Qed.

(** ** A turn of the agent *)

Lemma execute_job_returns (w : Agent.World) (job : Json.Job)
    (job_id app_id inputs : Json.value) (st : Agent.State) :
  Spec.has_keys job job_id app_id inputs ->
  exists (r : Agent.Result) (st' : Agent.State),
    Agent.execute_job w job st = (inr r, st') /\ Agent.job_id r = job_id.
Proof.
  intros Hk. rewrite (execute_job_eq w _ _ _ _ _ Hk).
  destruct (try_body_cases w job app_id inputs
              (Spec.fresh_result w job_id st) (Spec.tick st))
    as [(r & -> & [[msg ->]|[e ->]]) | (manifest & env & _ & ->)].
  - eexists _, _. split; reflexivity.
  - eexists _, _. split; reflexivity.
  - destruct (Agent.execute_script _ _ _ _ _ _ _) as [[e|[code out]] st1].
    + eexists _, _. split; reflexivity.
    + eexists _, _. split; [reflexivity|]. simpl.
      by destruct (record_outcome_status (Spec.fresh_result w job_id st)
                     code out) as (_ & _ & _ & ->).
Qed.

(** A job without one of its three keys makes [execute_job] raise. *)
Lemma execute_job_raises (w : Agent.World) (job : Json.Job)
    (st : Agent.State) :
  Dict.get job "job_id" = None \/ Dict.get job "app_id" = None \/
  Dict.get job "inputs" = None ->
  exists k,
    In k ["job_id"; "app_id"; "inputs"] /\ Dict.get job k = None /\
    Agent.execute_job w job st = (inl (Py.KeyError k), st).
Proof.
  intros H. unfold Agent.execute_job, Agent.bind, Agent.lift,
    Agent.job_getitem.
  destruct (Dict.get job "job_id") eqn:H1.
  2:{ exists "job_id". simpl. auto. }
  destruct (Dict.get job "app_id") eqn:H2.
  2:{ exists "app_id". simpl. auto. }
  destruct (Dict.get job "inputs") eqn:H3.
  2:{ exists "inputs". simpl. auto 6. }
  destruct H as [H|[H|H]]; discriminate.
Qed.

Lemma queue_head (now : Z) (d : Control.db) (server_id : string)
    (job : Json.Job) (rest : list Json.Job) :
  Keyspace.queue now d server_id = job :: rest ->
  Redis.lookup now d (Control.queue_key server_id)
    = Some (Redis.Lst (job :: rest)).
Proof.
  unfold Keyspace.queue.
  destruct (Redis.lookup now d _) as [[v t|items]|]; try discriminate.
  by intros ->.
Qed.

(** The turn of an agent on a job that has its three keys. *)
Lemma turn_publishes (w : Agent.World) (AGENT_ID : string) (now later : Z)
    (st : Daemon.State) (job : Json.Job) (rest : list Json.Job)
    (job_id app_id inputs : Json.value) :
  Keyspace.queue now (Daemon.redis st) AGENT_ID = job :: rest ->
  Spec.has_keys job job_id app_id inputs ->
  exists result ex' d',
    Agent.execute_job w job (Daemon.executor st) = (inr result, ex') /\
    Agent.job_id result = job_id /\
    Daemon.turn w AGENT_ID now later st
      = (None, {| Daemon.running := Daemon.running st;
                  Daemon.executor := ex'; Daemon.redis := d' |}) /\
    Redis.published d'
      = Redis.published (Daemon.redis st)
          ++ [("job:" +:+ Json.py_str job_id +:+ ":updates",
               Control.PResult result)] /\
    forall t key,
      Redis.lookup t d' key =
        if decide (key = "job:" +:+ Json.py_str job_id +:+ ":result")
        then (if t <? later + 3600
              then Some (Redis.Str (Control.PResult result)
                           (Some (later + 3600)))
              else None)
        else if decide (key = Control.queue_key AGENT_ID)
        then match rest with
             | [] => None
             | _ :: _ => Some (Redis.Lst rest)
             end
        else Redis.lookup t (Daemon.redis st) key.
Proof.
  intros Hq Hk. apply queue_head in Hq.
  destruct (execute_job_returns w job job_id app_id inputs
              (Daemon.executor st) Hk) as (result & ex' & Hrun & Hid).
  destruct (blpop_head now (Daemon.redis st) (Control.queue_key AGENT_ID)
              job rest Hq) as (d1 & Hpop & Hpub & Hl).
  exists result, ex'. eexists. split; [exact Hrun|]. split; [exact Hid|].
  unfold Daemon.turn, Daemon.poll_jobs. rewrite Hpop.
  destruct Hk as (-> & _). rewrite Hrun.
  split; [reflexivity|]. unfold Daemon.publish_result. rewrite Hid.
  split; [simpl; by rewrite Hpub|].
  intros t key. rewrite lookup_publish, lookup_setex.
  destruct (decide ("job:" +:+ Json.py_str job_id +:+ ":result" = key))
    as [<-|Hne].
  - destruct (decide _) as [_|N]; [reflexivity|by destruct N].
  - destruct (decide _) as [Heq|_]; [by destruct Hne|].
    rewrite Hl. destruct (decide (Control.queue_key AGENT_ID = key)) as [<-|N].
    + destruct (decide _) as [_|N']; [reflexivity|by destruct N'].
    + destruct (decide _) as [Heq|_]; [by destruct N|reflexivity].
Qed.

(** X15. A turn of the agent takes the job at the head of its queue for
    good.  When the job has the keys job_id, app_id and inputs, the turn
    ends without an exception: the result is published on the channel of
    the job and stored for an hour under the result key of the job, and
    no other key changes apart from the queue.  When one of the three
    keys is missing, the turn raises [KeyError]: the loop, and the
    agent with it, ends; nothing is published and no result is stored. *)
Theorem turn_outcomes (w : Agent.World) (AGENT_ID : string) (now later : Z)
    (st : Daemon.State) (job : Json.Job) (rest : list Json.Job) :
  Keyspace.queue now (Daemon.redis st) AGENT_ID = job :: rest ->
  exists raised st',
    Daemon.turn w AGENT_ID now later st = (raised, st') /\
    (forall t, Keyspace.queue t (Daemon.redis st') AGENT_ID = rest) /\
    (forall job_id app_id inputs,
       Spec.has_keys job job_id app_id inputs ->
       raised = None /\
       exists result,
         Agent.execute_job w job (Daemon.executor st)
           = (inr result, Daemon.executor st') /\
         Redis.published (Daemon.redis st')
           = Redis.published (Daemon.redis st)
               ++ [("job:" +:+ Json.py_str job_id +:+ ":updates",
                    Control.PResult result)] /\
         (forall t, t < later + 3600 ->
            Control.get_job_result t (Json.py_str job_id) (Daemon.redis st')
              = inr (Some (Control.PResult result))) /\
         (forall t key,
            key <> Control.queue_key AGENT_ID ->
            key <> Control.result_key (Json.py_str job_id) ->
            Redis.lookup t (Daemon.redis st') key
              = Redis.lookup t (Daemon.redis st) key)) /\
    (Dict.get job "job_id" = None \/ Dict.get job "app_id" = None \/
     Dict.get job "inputs" = None ->
     (exists k,
        raised = Some (Py.KeyError k) /\
        In k ["job_id"; "app_id"; "inputs"] /\ Dict.get job k = None) /\
     Redis.published (Daemon.redis st') = Redis.published (Daemon.redis st) /\
     forall t key,
       key <> Control.queue_key AGENT_ID ->
       Redis.lookup t (Daemon.redis st') key
         = Redis.lookup t (Daemon.redis st) key).
Proof.
  intros Hq.
  destruct (Daemon.turn w AGENT_ID now later st) as [raised st'] eqn:Hturn.
  exists raised, st'. split; [reflexivity|].
  pose proof (queue_head _ _ _ _ _ Hq) as Hhead.
  destruct (blpop_head now (Daemon.redis st) (Control.queue_key AGENT_ID)
              job rest Hhead) as (d1 & Hpop & Hpub & Hl).
  assert (Hrest : forall (d : Control.db) t,
            Redis.lookup t d (Control.queue_key AGENT_ID)
              = Redis.lookup t d1 (Control.queue_key AGENT_ID) ->
            Keyspace.queue t d AGENT_ID = rest).
  { intros d t Hd. unfold Keyspace.queue. rewrite Hd, Hl.
    destruct (decide _) as [_|N]; [|by destruct N]. by destruct rest. }
  destruct (Dict.get job "job_id") as [job_id|] eqn:H1;
    [destruct (Dict.get job "app_id") as [app_id|] eqn:H2;
     [destruct (Dict.get job "inputs") as [inputs|] eqn:H3|]|].
  - (* the three keys are there *)
    destruct (turn_publishes w AGENT_ID now later st job rest job_id app_id
                inputs Hq (conj H1 (conj H2 H3)))
      as (result & ex' & d' & Hrun & Hid & Hturn' & Hpub' & Hl').
    rewrite Hturn in Hturn'. injection Hturn' as -> ->. simpl.
    split; [|split].
    + intros t. unfold Keyspace.queue. rewrite Hl'.
      destruct (decide _) as [Heq|_]; [discriminate Heq|].
      destruct (decide _) as [_|N]; [|by destruct N]. by destruct rest.
    + intros job_id' app_id' inputs' (Hj & Ha & Hi).
      assert (job_id' = job_id) as -> by congruence.
      split; [reflexivity|]. exists result.
      split; [exact Hrun|]. split; [exact Hpub'|]. split.
      * intros t Ht. unfold Control.get_job_result, Redis.get,
          Control.result_key. rewrite Hl'.
        destruct (decide _) as [_|N]; [|by destruct N].
        destruct (t <? later + 3600) eqn:E; [reflexivity|lia].
      * intros t key N1 N2. rewrite Hl'.
        destruct (decide _) as [Heq|_]; [by destruct N2|].
        destruct (decide _) as [Heq|_]; [by destruct N1|reflexivity].
    + intros [H|[H|H]]; congruence.
  - (* no inputs *)
    unfold Daemon.turn, Daemon.poll_jobs in Hturn. rewrite Hpop, H1 in Hturn.
    destruct (execute_job_raises w job (Daemon.executor st))
      as (k & Hin & Hk & Hrun); [auto|].
    rewrite Hrun in Hturn. injection Hturn as <- <-. simpl.
    split; [|split].
    + intros t. apply Hrest. reflexivity.
    + intros ? ? ? (_ & _ & Hi). congruence.
    + intros _. split; [eauto|]. split; [exact Hpub|].
      intros t key N. rewrite Hl.
      destruct (decide _) as [Heq|_]; [by destruct N|reflexivity].
  - (* no app_id *)
    unfold Daemon.turn, Daemon.poll_jobs in Hturn. rewrite Hpop, H1 in Hturn.
    destruct (execute_job_raises w job (Daemon.executor st))
      as (k & Hin & Hk & Hrun); [auto|].
    rewrite Hrun in Hturn. injection Hturn as <- <-. simpl.
    split; [|split].
    + intros t. apply Hrest. reflexivity.
    + intros ? ? ? (_ & Ha & _). congruence.
    + intros _. split; [eauto|]. split; [exact Hpub|].
      intros t key N. rewrite Hl.
      destruct (decide _) as [Heq|_]; [by destruct N|reflexivity].
  - (* no job_id *)
    unfold Daemon.turn, Daemon.poll_jobs in Hturn. rewrite Hpop, H1 in Hturn.
    injection Hturn as <- <-. simpl.
    split; [|split].
    + intros t. apply Hrest. reflexivity.
    + intros ? ? ? (Hj & _). congruence.
    + intros _. split.
      { exists "job_id". simpl. auto. }
      split; [exact Hpub|].
      intros t key N. rewrite Hl.
      destruct (decide _) as [Heq|_]; [by destruct N|reflexivity].
Qed.

(** ** Listing what is installed *)

Lemma installed_pattern (server_id key : string) :
  Keyspace.plain server_id = true ->
  Redis.glob ("installed:" +:+ server_id +:+ ":*") key
    = String.prefix ("installed:" +:+ server_id +:+ ":") key.
Proof.
  intros Hs.
  assert (Heq : "installed:" +:+ server_id +:+ ":*"
                = ("installed:" +:+ server_id +:+ ":") +:+ "*").
  { by rewrite !append_assoc. }
  rewrite Heq. apply glob_prefix.
  apply (plain_append "installed:"); [reflexivity|].
  apply plain_append; [exact Hs|reflexivity].
Qed.

Lemma installed_key_prefix (server_id app_id : string) :
  String.prefix ("installed:" +:+ server_id +:+ ":")
    (Control.installed_key server_id app_id) = true.
Proof.
  unfold Control.installed_key.
  assert (Heq : "installed:" +:+ server_id +:+ ":" +:+ app_id
                = ("installed:" +:+ server_id +:+ ":") +:+ app_id).
  { by rewrite !append_assoc. }
  rewrite Heq. apply prefix_append.
Qed.

Lemma match_any_skip (ts : list Redis.token) (s rest : string) :
  Redis.match_tokens ts rest = true ->
  Redis.match_tokens (Redis.AnyString :: ts) (s +:+ rest) = true.
Proof.
  intros H. induction s as [|c s IH].
  - change ("" +:+ rest) with rest. destruct rest; simpl in *; by rewrite H.
  - change (String c s +:+ rest) with (String c (s +:+ rest)).
    simpl in *. rewrite IH. apply orb_true_r.
Qed.

Lemma star_matches_every_server (server_id app_id : string) :
  Redis.glob "installed:*:*" (Control.installed_key server_id app_id) = true.
Proof.
  unfold Redis.glob, Control.installed_key.
  change (Redis.parse (String.length "installed:*:*") "installed:*:*")
    with (map Redis.Lit (list_ascii_of_string "installed:")
            ++ [Redis.AnyString; Redis.Lit ":"; Redis.AnyString]).
  rewrite match_lits. apply match_any_skip.
  change (":" +:+ app_id) with (String ":" app_id).
  cbn [Redis.match_tokens]. rewrite Ascii.eqb_refl. apply match_any.
Qed.

(** X16. [list_installed] reads its argument as a pattern.  For a server
    name without special characters it returns the records under the
    keys that start with [installed:<name>:], which are the records of
    that server and also those of every server whose name goes on after
    [<name>:]; and for the name [*] it returns the records of all
    servers. *)
Theorem list_installed_reads_a_pattern (now : Z) (d : Control.db) :
  Keyspace.well_typed d ->
  (forall server_id,
     Keyspace.plain server_id = true ->
     exists apps,
       Control.list_installed now server_id d = inr apps /\
       (forall v, In v apps <->
          exists key t,
            String.prefix ("installed:" +:+ server_id +:+ ":") key = true /\
            Redis.lookup now d key = Some (Redis.Str v t)) /\
       (forall app_id v t,
          Redis.lookup now d (Control.installed_key server_id app_id)
            = Some (Redis.Str v t) -> In v apps) /\
       (forall other app_id v t,
          Redis.lookup now d
            (Control.installed_key (server_id +:+ ":" +:+ other) app_id)
            = Some (Redis.Str v t) -> In v apps)) /\
  (exists apps,
     Control.list_installed now "*" d = inr apps /\
     forall server_id app_id v t,
       Redis.lookup now d (Control.installed_key server_id app_id)
         = Some (Redis.Str v t) -> In v apps).
Proof.
  intros Hd. split.
  - intros server_id Hs.
    destruct (list_installed_returns now server_id d Hd) as (apps & H & Hin).
    exists apps. split; [exact H|].
    assert (Hspec : forall v, In v apps <->
              exists key t,
                String.prefix ("installed:" +:+ server_id +:+ ":") key = true /\
                Redis.lookup now d key = Some (Redis.Str v t)).
    { intros v. rewrite Hin. split; intros (key & t & Hg & He);
        exists key, t; (split; [|exact He]).
      - by rewrite installed_pattern in Hg.
      - by rewrite installed_pattern. }
    split; [exact Hspec|]. split.
    + intros app_id v t He. apply Hspec. eexists _, t.
      split; [|exact He]. apply installed_key_prefix.
    + intros other app_id v t He. apply Hspec. eexists _, t.
      split; [|exact He]. unfold Control.installed_key.
      assert (Heq : "installed:" +:+ (server_id +:+ ":" +:+ other) +:+ ":"
                      +:+ app_id
                    = ("installed:" +:+ server_id +:+ ":")
                        +:+ (other +:+ ":" +:+ app_id)).
      { by rewrite !append_assoc. }
      rewrite Heq. apply prefix_append.
  - destruct (list_installed_returns now "*" d Hd) as (apps & H & Hin).
    exists apps. split; [exact H|].
    intros server_id app_id v t He. apply Hin. eexists _, t.
    split; [|exact He]. apply star_matches_every_server.
Qed.

Lemma list_installed_reads_a_pattern_witness :
  exists apps,
    Control.list_installed 0 "*"
      (Control.mark_installed "2024-01-01T00:00:00" "nginx" "agent-002"
         "job-1" [] Keyspace.empty) = inr apps /\
    In (Control.PInstalled
          {| Control.app_id := "nginx"; Control.server_id := "agent-002";
             Control.job_id := "job-1"; Control.inputs := [];
             Control.installed_at := "2024-01-01T00:00:00" |}) apps.
Proof.
  destruct (list_installed_reads_a_pattern 0
              (Control.mark_installed "2024-01-01T00:00:00" "nginx"
                 "agent-002" "job-1" [] Keyspace.empty))
    as (_ & apps & H & Hin).
  - apply well_typed_insert; [exact well_typed_empty|apply kind_installed].
  - exists apps. split; [exact H|].
    apply (Hin "agent-002" "nginx" _ None). reflexivity.
Defined.

(** ** Listing the jobs *)

Lemma filtered_out_job (wanted : option string) (job : Json.Job)
    (key : string) :
  Control.filtered_out wanted (Control.PJob job) key = false <->
  forall u, wanted = Some u -> u <> "" -> Dict.get job key = Some (Json.JS u).
Proof.
  unfold Control.filtered_out. destruct wanted as [u|]; [|split; [|done]].
  2:{ intros _ u Hu. discriminate Hu. }
  simpl. destruct (String.eqb u "") eqn:E; simpl.
  { apply String.eqb_eq in E as ->. split; [|done].
    intros _ u Hu Hne. injection Hu as <-. by destruct Hne. }
  apply String.eqb_neq in E. rewrite negb_false_iff. split.
  - intros H u' Hu _. injection Hu as <-.
    destruct (Dict.get job key) as [[s|]|]; try discriminate.
    apply String.eqb_eq in H as ->. reflexivity.
  - intros H. rewrite (H u eq_refl E). apply String.eqb_refl.
Qed.

(** X17. [list_jobs] returns job records only, never a result or an
    installation record: the jobs stored under the live keys that start
    with [job:] and do not contain [:result], for which every filter
    given (a filter that is absent or empty is none) agrees with the
    field of the job. *)
Theorem list_jobs_lists_jobs (now : Z) (user_id server_id : option string)
    (d : Control.db) :
  Keyspace.well_typed d ->
  exists jobs,
    Control.list_jobs now user_id server_id d = inr jobs /\
    (forall v, In v jobs -> exists job, v = Control.PJob job) /\
    (forall job,
       In (Control.PJob job) jobs <->
       (exists key t,
          String.prefix "job:" key = true /\
          Py.substring_of ":result" key = false /\
          Redis.lookup now d key = Some (Redis.Str (Control.PJob job) t)) /\
       (forall u, user_id = Some u -> u <> "" ->
          Dict.get job "user_id" = Some (Json.JS u)) /\
       (forall s, server_id = Some s -> s <> "" ->
          Dict.get job "server_id" = Some (Json.JS s))).
Proof.
  intros Hd.
  destruct (list_jobs_returns now user_id server_id d Hd) as (jobs & H & Hin).
  exists jobs. split; [exact H|]. split.
  - intros v Hv. apply Hin in Hv as (key & t & Hp & Hr & He & _).
    apply (well_typed_lookup _ _ _ _ Hd) in He.
    destruct v as [job|result|data]; simpl in He; [eauto| |].
    + rewrite Hr, andb_false_r in He. discriminate.
    + apply prefix_split in Hp as (s & ->). discriminate.
  - intros job. rewrite Hin. split.
    + intros (key & t & Hp & Hr & He & Hu & Hs).
      split; [eauto 6|]. split; by apply filtered_out_job.
    + intros ((key & t & Hp & Hr & He) & Hu & Hs).
      exists key, t. repeat split; try assumption; by apply filtered_out_job.
Qed.

Lemma list_jobs_lists_jobs_witness :
  exists jobs,
    Control.list_jobs 0 (Some "alice") None
      (Redis.setex 0 Keyspace.empty (Control.job_key "job-1") 86400
         (Control.PJob [("job_id", Json.JS "job-1");
                        ("user_id", Json.JS "alice")])) = inr jobs /\
    In (Control.PJob [("job_id", Json.JS "job-1");
                      ("user_id", Json.JS "alice")]) jobs.
Proof.
  destruct (list_jobs_lists_jobs 0 (Some "alice") None
              (Redis.setex 0 Keyspace.empty (Control.job_key "job-1") 86400
                 (Control.PJob [("job_id", Json.JS "job-1");
                                ("user_id", Json.JS "alice")])))
    as (jobs & H & _ & Hin).
  - apply well_typed_insert; [exact well_typed_empty|apply kind_job].
  - exists jobs. split; [exact H|]. apply Hin. split; [|split].
    + exists (Control.job_key "job-1"), (Some 86400). repeat split.
    + intros u Hu _. injection Hu as <-. reflexivity.
    + intros s Hs. discriminate Hs.
Defined.

(** ** From the request to the result *)

Lemma result_key_is_no_job_key (job_id : string) :
  Control.job_key job_id <> Control.result_key job_id.
Proof.
  unfold Control.job_key, Control.result_key. intros H. injection H as H.
  apply (f_equal String.length) in H. rewrite !length_append in H.
  simpl in H. lia.
Qed.

(** X18. The outcome of an installation is not written back.  A request that
    passes the checks is answered 201 and the application is recorded as
    installed at once.  When the agent of the server has run the job,
    whatever the result (the agent may have turned the job down, or the
    installer may have failed), the job record still says queued, the
    result is found next to it for an hour, and the application is still
    listed as installed. *)
Theorem installation_outcome_is_not_recorded (registry : Registry.registry)
    (SECRET_KEY user : string) (now : Z)
    (job_id created_at installed_at app_id : string)
    (data : Control.InstallRequest) (d : Control.db)
    (manifest : Registry.Entry) (server_id : string)
    (w : Agent.World) (ex : Agent.State) (running : bool) (t1 t2 t3 : Z) :
  let inputs :=
    match Control.request_inputs data with Some i => i | None => [] end in
  let user_id :=
    match Control.request_user_id data with
    | Some u => u
    | None => "anonymous"
    end in
  let job :=
    Panel.create_job SECRET_KEY job_id created_at app_id inputs server_id
      user_id in
  let record :=
    {| Control.app_id := app_id; Control.server_id := server_id;
       Control.job_id := job_id; Control.inputs := inputs;
       Control.installed_at := installed_at |} in
  Keyspace.well_typed d ->
  Registry.get registry app_id = Some manifest ->
  Control.request_server_id data = Some server_id -> server_id <> "" ->
  Keyspace.plain server_id = true ->
  fst (Panel.validate_inputs (Registry.manifest manifest) inputs) = true ->
  Keyspace.queue now d server_id = [] ->
  t3 < now + 86400 -> t3 < t2 + 3600 ->
  exists d1 st' result,
    Control.install_app registry SECRET_KEY (Some user) now job_id created_at
      installed_at app_id data d
      = (inr (Control.JobCreated job_id "Installation job created", 201), d1)
    /\ Daemon.turn w server_id t1 t2
         {| Daemon.running := running; Daemon.executor := ex;
            Daemon.redis := d1 |} = (None, st')
    /\ Agent.execute_job w job ex = (inr result, Daemon.executor st')
    /\ Control.get_job_view (Some user) t3 job_id (Daemon.redis st')
       = (inr (Control.JobStatus (Control.PJob job)
                 (Some (Control.PResult result)), 200), Daemon.redis st')
    /\ Dict.get job "status" = Some (Json.JS "queued")
    /\ exists apps,
         Control.list_installed t3 server_id (Daemon.redis st') = inr apps /\
         In (Control.PInstalled record) apps.
Proof.
  cbv zeta. intros Hd Hm Hs Hne Hplain Hv Hempty Ht3 Ht3'.
  destruct (install_app_effect registry SECRET_KEY user now job_id created_at
              installed_at app_id data d manifest server_id Hd Hm Hs Hne Hv)
    as (d1 & Hrun & Hpub & Hlook).
  destruct (install_app_well_typed registry SECRET_KEY (Some user) now job_id
              created_at installed_at app_id data d Hd)
    as (response & d1' & Hrun' & Hd1).
  rewrite Hrun in Hrun'. injection Hrun' as _ <-.
  set (job := Panel.create_job _ _ _ _ _ _ _) in *.
  destruct (create_job_keys SECRET_KEY job_id created_at app_id
              match Control.request_inputs data with
              | Some i => i
              | None => []
              end server_id
              match Control.request_user_id data with
              | Some u => u
              | None => "anonymous"
              end) as (Hkeys & Hstatus & _).
  fold job in Hkeys, Hstatus.
  destruct (key_kinds server_id app_id job_id server_id) as (K1 & K2 & K3).
  set (st := {| Daemon.running := running; Daemon.executor := ex;
                Daemon.redis := d1 |}).
  assert (Hq : Keyspace.queue t1 (Daemon.redis st) server_id = [job]).
  { unfold Keyspace.queue. simpl. rewrite Hlook.
    destruct (decide _) as [Heq|_]; [by destruct K1|].
    destruct (decide _) as [_|N]; [|by destruct N]. by rewrite Hempty. }
  destruct (turn_publishes w server_id t1 t2 st job [] _ _ _ Hq Hkeys)
    as (result & ex' & d2 & Hexec & Hid & Hturn & _ & Hlook2).
  pose proof (turn_well_typed w server_id t1 t2 st Hd1) as (_ & Hd2).
  rewrite Hturn in Hd2. simpl in Hd2, Hlook2.
  eexists d1, _, result. split; [exact Hrun|]. split; [exact Hturn|].
  split; [exact Hexec|]. simpl.
  assert (Hjob : Redis.lookup t3 d2 (Control.job_key job_id)
                 = Some (Redis.Str (Control.PJob job) (Some (now + 86400)))).
  { rewrite Hlook2.
    destruct (decide _) as [Heq|_]; [by apply result_key_is_no_job_key in Heq|].
    destruct (decide _) as [Heq|_]; [by destruct K3|].
    rewrite Hlook.
    destruct (decide _) as [Heq|_]; [by destruct K2|].
    destruct (decide _) as [Heq|_]; [by destruct K3|].
    destruct (decide _) as [_|N]; [|by destruct N].
    destruct (t3 <? now + 86400) eqn:E; [reflexivity|lia]. }
  assert (Hres : Redis.lookup t3 d2 (Control.result_key job_id)
                 = Some (Redis.Str (Control.PResult result)
                           (Some (t2 + 3600)))).
  { rewrite Hlook2. destruct (decide _) as [_|N]; [|by destruct N].
    destruct (t3 <? t2 + 3600) eqn:E; [reflexivity|lia]. }
  split; [|split; [exact Hstatus|]].
  - unfold Control.get_job_view, Control.login_required, Control.get_job,
      Control.get_job_result, Redis.get. by rewrite Hjob, Hres.
  - destruct (list_installed_returns t3 server_id d2 Hd2)
      as (apps & Happs & Hin).
    exists apps. split; [exact Happs|]. apply Hin.
    exists (Control.installed_key server_id app_id), None. split.
    + rewrite (installed_pattern _ _ Hplain). apply installed_key_prefix.
    + rewrite Hlook2.
      destruct (decide _) as [Heq|_]; [discriminate Heq|].
      destruct (decide _) as [Heq|_]; [by destruct K1|].
      rewrite Hlook. destruct (decide _) as [_|N]; [reflexivity|by destruct N].
Qed.

(** ** Removing an installation record *)

(** X19. [uninstall_app] answers 200 when a record is there and 404 when
    there is none; afterwards the record is gone, a second request is
    answered 404, and nothing else has changed: the job queues are as
    they were, so an installation that waits in a queue is still run. *)
Theorem uninstall_app_only_forgets (user : string) (now : Z)
    (app_id : string) (server_id : option string) (d : Control.db) :
  let key := Control.installed_key (Control.server_arg server_id) app_id in
  exists response d',
    Control.uninstall_app (Some user) now app_id server_id d
      = (inr response, d') /\
    (Redis.lookup now d key <> None ->
     response = (Control.Done ("Application " +:+ app_id +:+ " uninstalled"),
                 200)) /\
    (Redis.lookup now d key = None ->
     response = (Control.Failure "Application not found", 404) /\ d' = d) /\
    Redis.lookup now d' key = None /\
    Control.uninstall_app (Some user) now app_id server_id d'
      = (inr (Control.Failure "Application not found", 404), d') /\
    Redis.published d' = Redis.published d /\
    (forall t key', key' <> key ->
       Redis.lookup t d' key' = Redis.lookup t d key') /\
    (forall t server, Keyspace.queue t d' server = Keyspace.queue t d server).
Proof.
  cbv zeta.
  set (key := Control.installed_key (Control.server_arg server_id) app_id).
  assert (Hframe : forall (d' : Control.db),
            (forall t key', key' <> key ->
               Redis.lookup t d' key' = Redis.lookup t d key') ->
            forall t server,
              Keyspace.queue t d' server = Keyspace.queue t d server).
  { intros d' H t server. unfold Keyspace.queue. rewrite H; [reflexivity|].
    unfold key. discriminate. }
  unfold Control.uninstall_app, Control.login_required, Control.uninstall.
  fold key. unfold Redis.delete.
  destruct (Redis.lookup now d key) as [e|] eqn:He; simpl.
  - eexists _, _. split; [reflexivity|]. split; [reflexivity|].
    split; [discriminate|].
    assert (Hgone : Redis.lookup now
                      (Redis.with_keys d (delete key (Redis.keys d))) key
                    = None).
    { unfold Redis.lookup. simpl. by rewrite lookup_delete_eq. }
    split; [exact Hgone|]. rewrite Hgone. simpl.
    split; [reflexivity|]. split; [reflexivity|].
    assert (Hothers : forall t key', key' <> key ->
              Redis.lookup t (Redis.with_keys d (delete key (Redis.keys d)))
                key' = Redis.lookup t d key').
    { intros t key' N. unfold Redis.lookup. simpl.
      by rewrite lookup_delete_ne by congruence. }
    split; [exact Hothers|]. by apply Hframe.
  - eexists _, _. split; [reflexivity|]. split; [intros H; by destruct H|].
    split; [auto|]. split; [exact He|]. rewrite He. simpl.
    split; [reflexivity|]. split; [reflexivity|]. split; [reflexivity|].
    reflexivity.
Qed.

(** ** The scenario *)

Lemma installed_job_reaches_its_agent_witness :
  exists d' d'' job,
    Control.install_app Scenario.registry "change-me-in-production"
      (Some "admin") 0 "job-1" "2024-01-01T00:00:00" "2024-01-01T00:00:01"
      "nginx" Scenario.request Keyspace.empty
      = (inr (Control.JobCreated "job-1" "Installation job created", 201), d')
    /\ Daemon.poll_jobs "agent-001" 5 d' = (inr (Some job), d'')
    /\ Agent.validate_signature Fixtures.slow_host job = inr true.
Proof.
  destruct (installed_job_reaches_its_agent Scenario.registry
              "change-me-in-production" "admin" 0 "job-1"
              "2024-01-01T00:00:00" "2024-01-01T00:00:01" "nginx"
              Scenario.request Keyspace.empty Scenario.nginx "agent-001")
    as (d' & Hrun & _ & _ & _ & _ & Hpoll & Hsig).
  - exact well_typed_empty.
  - reflexivity.
  - reflexivity.
  - discriminate.
  - reflexivity.
  - destruct (Hpoll 5 eq_refl) as (d'' & Hp & _).
    eexists d', d'', _. split; [exact Hrun|]. split; [exact Hp|].
    apply Hsig. reflexivity.
Defined.

Lemma turn_outcomes_witness :
  exists k st',
    Daemon.turn Fixtures.slow_host "agent-001" 0 1
      {| Daemon.running := true; Daemon.executor := Agent.initial;
         Daemon.redis := Scenario.broken_queue |}
      = (Some (Py.KeyError k), st') /\
    Redis.published (Daemon.redis st') = [].
Proof.
  destruct (turn_outcomes Fixtures.slow_host "agent-001" 0 1
              {| Daemon.running := true; Daemon.executor := Agent.initial;
                 Daemon.redis := Scenario.broken_queue |}
              Scenario.broken_job [])
    as (raised & st' & Hturn & _ & _ & Hmissing).
  - unfold Keyspace.queue, Redis.lookup, Scenario.broken_queue. simpl.
    by rewrite lookup_insert_eq.
  - destruct Hmissing as ((k & -> & _) & Hpub & _).
    { right. left. reflexivity. }
    exists k, st'. split; [exact Hturn|]. exact Hpub.
Defined.

Lemma installation_outcome_is_not_recorded_witness :
  exists d1 st' result apps,
    Control.install_app Scenario.registry "change-me-in-production"
      (Some "admin") 0 "job-1" "2024-01-01T00:00:00" "2024-01-01T00:00:01"
      "nginx" Scenario.request Keyspace.empty
      = (inr (Control.JobCreated "job-1" "Installation job created", 201), d1)
    /\ Daemon.turn Scenario.other_secret "agent-001" 5 6
         {| Daemon.running := true; Daemon.executor := Agent.initial;
            Daemon.redis := d1 |} = (None, st')
    /\ Control.get_job_view (Some "admin") 60 "job-1" (Daemon.redis st')
       = (inr (Control.JobStatus
                 (Control.PJob
                    (Panel.create_job "change-me-in-production" "job-1"
                       "2024-01-01T00:00:00" "nginx"
                       [("enable_ssl", "true"); ("ssl_port", "443")]
                       "agent-001" "anonymous"))
                 (Some (Control.PResult result)), 200), Daemon.redis st')
    /\ Control.list_installed 60 "agent-001" (Daemon.redis st') = inr apps
    /\ In (Control.PInstalled
             {| Control.app_id := "nginx"; Control.server_id := "agent-001";
                Control.job_id := "job-1";
                Control.inputs :=
                  [("enable_ssl", "true"); ("ssl_port", "443")];
                Control.installed_at := "2024-01-01T00:00:01" |}) apps.
Proof.
  destruct (installation_outcome_is_not_recorded Scenario.registry
              "change-me-in-production" "admin" 0 "job-1"
              "2024-01-01T00:00:00" "2024-01-01T00:00:01" "nginx"
              Scenario.request Keyspace.empty Scenario.nginx "agent-001"
              Scenario.other_secret Agent.initial true 5 6 60)
    as (d1 & st' & result & Hrun & Hturn & _ & Hview & _ & apps & Happs & Hin).
  - exact well_typed_empty.
  - reflexivity.
  - reflexivity.
  - discriminate.
  - reflexivity.
  - reflexivity.
  - reflexivity.
  - reflexivity.
  - reflexivity.
  - exists d1, st', result, apps. auto.
Defined.

(** ** The loop *)

Lemma queue_any_time (t t' : Z) (d : Control.db) (server_id : string) :
  Keyspace.queue t d server_id = Keyspace.queue t' d server_id.
Proof.
  unfold Keyspace.queue, Redis.lookup.
  destruct (Redis.keys d !! _) as [[v [deadline|]|items]|]; simpl;
    try reflexivity.
  by destruct (t <? deadline), (t' <? deadline).
Qed.

(** X20. The loop serves the queue in order: with as many turns as there are
    jobs in the queue of the agent, each of them with its three keys,
    [run] ends without an exception, the queue is empty, and one result
    per job was published, on the channels of the jobs in the order of
    the queue. *)
Theorem run_serves_the_queue_in_order (w : Agent.World) (AGENT_ID : string)
    (instants : list (Z * Z)) (st : Daemon.State) (jobs : list Json.Job) :
  Daemon.running st = true ->
  Keyspace.queue 0 (Daemon.redis st) AGENT_ID = jobs ->
  length instants = length jobs ->
  Forall (fun job => exists job_id app_id inputs,
            Spec.has_keys job job_id app_id inputs) jobs ->
  exists st',
    Daemon.run w AGENT_ID instants st = (None, st') /\
    Keyspace.queue 0 (Daemon.redis st') AGENT_ID = [] /\
    map fst (Redis.published (Daemon.redis st'))
      = map fst (Redis.published (Daemon.redis st))
        ++ map (fun job =>
                  "job:" +:+ match Dict.get job "job_id" with
                             | Some v => Json.py_str v
                             | None => ""
                             end +:+ ":updates") jobs.
Proof.
  revert instants st.
  induction jobs as [|job rest IH]; intros instants st Hrunning Hq Hlen Hall.
  { destruct instants; [|discriminate]. exists st. simpl.
    by rewrite app_nil_r. }
  destruct instants as [|[now later] instants]; [discriminate|].
  inversion Hall as [|? ? (job_id & app_id & inputs & Hk) Hall']; subst.
  rewrite (queue_any_time 0 now) in Hq.
  destruct (turn_publishes w AGENT_ID now later st job rest job_id app_id
              inputs Hq Hk)
    as (result & ex' & d' & _ & _ & Hturn & Hpub & Hlook).
  simpl. rewrite Hrunning, Hturn.
  destruct (IH instants
              {| Daemon.running := Daemon.running st;
                 Daemon.executor := ex'; Daemon.redis := d' |})
    as (st' & Hrun & Hempty & Hpub').
  - exact Hrunning.
  - unfold Keyspace.queue. simpl. rewrite Hlook.
    destruct (decide _) as [Heq|_]; [discriminate Heq|].
    destruct (decide _) as [_|N]; [|by destruct N]. by destruct rest.
  - simpl in Hlen. lia.
  - exact Hall'.
  - exists st'. split; [exact Hrun|]. split; [exact Hempty|].
    rewrite Hpub'. simpl. rewrite Hpub, map_app, <- app_assoc. simpl.
    destruct Hk as (-> & _). reflexivity.
Qed.

Lemma run_serves_the_queue_in_order_witness :
  exists st',
    Daemon.run Fixtures.slow_host "agent-001" [(5, 700)]
      {| Daemon.running := true; Daemon.executor := Agent.initial;
         Daemon.redis :=
           Redis.with_keys Keyspace.empty
             (<[Control.queue_key "agent-001" := Redis.Lst [Fixtures.ssl_job]]>
                ∅) |}
      = (None, st') /\
    map fst (Redis.published (Daemon.redis st')) = ["job:job-1:updates"].
Proof.
  destruct (run_serves_the_queue_in_order Fixtures.slow_host "agent-001"
              [(5, 700)]
              {| Daemon.running := true; Daemon.executor := Agent.initial;
                 Daemon.redis :=
                   Redis.with_keys Keyspace.empty
                     (<[Control.queue_key "agent-001"
                          := Redis.Lst [Fixtures.ssl_job]]> ∅) |}
              [Fixtures.ssl_job])
    as (st' & Hrun & _ & Hpub).
  - reflexivity.
  - unfold Keyspace.queue, Redis.lookup. simpl. by rewrite lookup_insert_eq.
  - reflexivity.
  - constructor; [|constructor]. eexists _, _, _. exact ssl_job_has_keys.
  - exists st'. split; [exact Hrun|]. exact Hpub.
Defined.

(** ** The name of the install script *)

(** [c*] for a class of characters: it takes any number of characters
    of the class from the front. *)
Lemma go_star_class (total : nat) (neg : bool) (ranges : list (ascii * ascii))
    (s : string) (k : string -> bool) :
  Re.go total (Re.Star (Re.Class neg ranges)) s k = true <->
  exists p rest,
    s = p +:+ rest /\
    forallb (Re.in_class neg ranges) (list_ascii_of_string p) = true /\
    k rest = true.
Proof.
  cbn [Re.go].
  remember (String.length s) as fuel eqn:Hf.
  assert (Hle : (String.length s <= fuel)%nat) by lia. clear Hf.
  revert s Hle. induction fuel as [|fuel IH]; intros s Hle.
  - destruct s; [|simpl in Hle; lia]. split.
    + intros H. exists "", "". repeat split. exact H.
    + intros (p & rest & Hs & _ & Hk).
      destruct p; [|discriminate]. change ("" = rest) in Hs. by subst.
  - destruct s as [|c s].
    + rewrite orb_false_l. split.
      * intros H. exists "", "". repeat split. exact H.
      * intros (p & rest & Hs & _ & Hk).
        destruct p; [|discriminate]. change ("" = rest) in Hs. by subst.
    + assert (Hlt : (String.length s <? String.length (String c s))%nat
                    = true).
      { apply Nat.ltb_lt. simpl. lia. }
      rewrite Hlt, andb_true_l. simpl in Hle.
      rewrite orb_true_iff, andb_true_iff, (IH s) by lia. split.
      * intros [(Hc & p & rest & -> & Hp & Hk) | Hk].
        -- exists (String c p), rest. split; [reflexivity|].
           split; [|exact Hk]. simpl. by rewrite Hc.
        -- exists "", (String c s). repeat split. exact Hk.
      * intros (p & rest & Hs & Hp & Hk). destruct p as [|c' p].
        -- right. change (String c s = rest) in Hs. by subst.
        -- left. injection Hs as <- ->. simpl in Hp.
           apply andb_true_iff in Hp as (Hc & Hp). eauto 6.
Qed.

Lemma no_slash (s : string) :
  AppManifest.all_safe s = true -> ~ In "/"%char (list_ascii_of_string s).
Proof.
  unfold AppManifest.all_safe. induction s as [|c s IH]; simpl; [tauto|].
  intros H. apply andb_true_iff in H as (Hc & Hs).
  intros [->|Hin]; [vm_compute in Hc; discriminate Hc|by apply IH].
Qed.

Lemma list_ascii_append (a b : string) :
  list_ascii_of_string (a +:+ b)
    = list_ascii_of_string a ++ list_ascii_of_string b.
Proof.
  induction a as [|c a IH]; [reflexivity|].
  change (String c a +:+ b) with (String c (a +:+ b)). simpl. by rewrite IH.
Qed.

(** X21. The names that [validate_script_path] lets through are the names
    made of one or more letters, digits, underscores, hyphens and dots
    followed by [.sh], and the same names followed by one newline
    (the [$] of the pattern stands before a final newline too); every
    other name raises [ValueError].  A name that passes is returned
    unchanged and contains no slash. *)
Theorem validate_script_path_accepts (v : string) :
  let newline := String "010" EmptyString in
  ((exists v', AppManifest.validate_script_path v = inr v') <->
   exists stem,
     stem <> "" /\ AppManifest.all_safe stem = true /\
     (v = stem +:+ ".sh" \/ v = stem +:+ ".sh" +:+ newline)) /\
  (forall v', AppManifest.validate_script_path v = inr v' ->
     v' = v /\ ~ In "/"%char (list_ascii_of_string v)) /\
  (forall e, AppManifest.validate_script_path v = inl e ->
     e = Py.ValueError "Script must be a .sh file with safe characters").
Proof.
  cbv zeta.
  assert (Hmatch : Re.match_ AppManifest.script_pattern v = true <->
            exists stem,
              stem <> "" /\ AppManifest.all_safe stem = true /\
              (v = stem +:+ ".sh" \/
               v = stem +:+ ".sh" +:+ String "010" EmptyString)).
  { unfold Re.match_, AppManifest.script_pattern, Re.Plus.
    set (n := String.length v).
    set (cls := Re.Class false AppManifest.safe).
    set (T := Re.Seq (Re.Chr ".") _).
    set (tail := fun s2 : string => Re.go n T s2 (fun _ => true)).
    change (Re.go n (Re.Seq Re.Bol (Re.Seq (Re.Seq cls (Re.Star cls)) T)) v
              (fun _ => true))
      with ((String.length v =? n)%nat &&
            Re.go n cls v (fun s1 => Re.go n (Re.Star cls) s1 tail)).
    unfold n at 1. rewrite Nat.eqb_refl, andb_true_l.
    assert (Htail : forall rest, tail rest = true <->
              rest = ".sh" \/ rest = ".sh" +:+ String "010" EmptyString).
    { intros rest. unfold tail, T. cbn [Re.go].
      destruct rest as [|c1 [|c2 [|c3 s3]]];
        try (split; [intros H; try discriminate H;
                     repeat (apply andb_true_iff in H as [_ H]);
                     discriminate H
                    |intros [H|H]; discriminate H]).
      rewrite !andb_true_iff. split.
      - intros (H1 & H2 & H3 & H4).
        apply Ascii.eqb_eq in H1 as <-. apply Ascii.eqb_eq in H2 as <-.
        apply Ascii.eqb_eq in H3 as <-.
        destruct s3 as [|c4 s4]; [by left|].
        destruct (ascii_dec c4 "010") as [->|Hne].
        + destruct s4; [by right|]. discriminate H4.
        + exfalso. revert H4.
          destruct c4 as [[|] [|] [|] [|] [|] [|] [|] [|]]; try discriminate;
            by destruct Hne.
      - intros [H|H]; injection H as -> -> -> ->; repeat split. }
    destruct v as [|c s].
    { split; [discriminate|].
      intros (stem & Hne & _ & [H|H]); destruct stem; try discriminate;
        by destruct Hne. }
    change (Re.go n cls (String c s)
              (fun s1 => Re.go n (Re.Star cls) s1 tail))
      with (Re.in_class false AppManifest.safe c &&
            Re.go n (Re.Star cls) s tail).
    unfold cls. rewrite andb_true_iff, go_star_class. split.
    - intros (Hc & p & rest & -> & Hp & Hk). apply Htail in Hk.
      exists (String c p). split; [discriminate|].
      split; [unfold AppManifest.all_safe;
              cbn [list_ascii_of_string forallb]; by rewrite Hc|].
      destruct Hk as [-> | ->]; auto.
    - intros (stem & Hne & Hsafe & Hv).
      destruct stem as [|c' stem]; [by destruct Hne|].
      unfold AppManifest.all_safe in Hsafe.
      cbn [list_ascii_of_string forallb] in Hsafe.
      apply andb_true_iff in Hsafe as (Hc & Hsafe).
      destruct Hv as [Hv|Hv]; injection Hv as <- ->;
        (split; [exact Hc|]); eexists stem, _;
        (split; [reflexivity|]); (split; [exact Hsafe|]);
        apply Htail; auto. }
  unfold AppManifest.validate_script_path.
  destruct (Re.match_ AppManifest.script_pattern v) eqn:E; simpl.
  - split; [|split].
    + split; [intros _; by apply Hmatch|eauto].
    + intros v' H. injection H as <-. split; [reflexivity|].
      destruct (proj1 Hmatch eq_refl) as (stem & _ & Hsafe & Hv).
      apply no_slash in Hsafe. intros Hin.
      destruct Hv as [-> | ->]; rewrite !list_ascii_append in Hin;
        repeat (apply in_app_or in Hin as [Hin|Hin]); try by apply Hsafe.
      all: simpl in Hin; intuition discriminate.
    + discriminate.
  - split; [|split].
    + split; [intros (v' & H); discriminate|].
      intros H. apply Hmatch in H. discriminate.
    + discriminate.
    + intros e H. by injection H as <-.
Qed.

(** ** What the executor remembers *)

Section History.
Context (w : Agent.World).

(** [execute_script] from two states: the same outcome and the same
    events. *)
Lemma execute_script_history (app_id script_name : string)
    (env : gmap string string) (timeout : Z) (job_id : Json.value)
    (st1 st2 : Agent.State) :
  exists outcome events st1' st2',
    Agent.execute_script w app_id script_name env timeout job_id st1
      = (outcome, st1') /\
    Agent.execute_script w app_id script_name env timeout job_id st2
      = (outcome, st2') /\
    Agent.ticks st1' = Agent.ticks st1 /\ Agent.ticks st2' = Agent.ticks st2 /\
    Agent.trace st1' = Agent.trace st1 ++ events /\
    Agent.trace st2' = Agent.trace st2 ++ events.
Proof.
  unfold Agent.execute_script.
  destruct (negb _).
  { eexists _, [], _, _. repeat split; by rewrite ?app_nil_r. }
  unfold Agent.try_except, Agent.bind, Agent.emit, Agent.lift,
    Agent.set_current_process, Agent.wait, Agent.bind, Agent.emit,
    Agent.ret, Agent.raise. simpl.
  destruct (Agent.chmod w _) as [e|]; simpl.
  { eexists _, [_], _, _. repeat split. }
  destruct (Agent.popen w _ env) as [e|p]; simpl.
  { eexists _, [_], _, _. repeat split. }
  destruct (Agent.run_seconds p <=? timeout); simpl.
  - destruct (Agent.read_log p) as [e|output]; simpl;
      eexists _, [_; _; _], _, _;
      repeat split; simpl; by rewrite <- !app_assoc.
  - eexists _, [_; _; _; _; _; _], _, _.
    repeat split; simpl; by rewrite <- !app_assoc.
Qed.

(** X22. The executor keeps no history.  What [execute_job] does with a job
    that has its three keys depends on the job and on the host only:
    from any two states it appends the same events and returns results
    that differ in their timestamps at most.  So a job that was run once
    is run again whenever it is queued again. *)
Theorem execute_job_keeps_no_history (job : Json.Job)
    (job_id app_id inputs : Json.value) (st1 st2 : Agent.State) :
  Spec.has_keys job job_id app_id inputs ->
  exists r1 st1' r2 st2' events,
    Agent.execute_job w job st1 = (inr r1, st1') /\
    Agent.execute_job w job st2 = (inr r2, st2') /\
    Agent.trace st1' = Agent.trace st1 ++ events /\
    Agent.trace st2' = Agent.trace st2 ++ events /\
    Agent.job_id r1 = Agent.job_id r2 /\
    Agent.status r1 = Agent.status r2 /\
    Agent.exit_code r1 = Agent.exit_code r2 /\
    Agent.output r1 = Agent.output r2 /\
    Agent.error r1 = Agent.error r2.
Proof.
  intros Hk. rewrite !(execute_job_eq w _ _ _ _ _ Hk).
  unfold Agent.try_body.
  destruct (Agent.validate_signature w job) as [e|[|]];
    [eexists _, _, _, _, []; repeat split; simpl; by rewrite ?app_nil_r| |
     eexists _, _, _, _, []; repeat split; simpl; by rewrite ?app_nil_r].
  destruct (Agent.validate_installer w app_id) as [e|[|]];
    [eexists _, _, _, _, []; repeat split; simpl; by rewrite ?app_nil_r| |
     eexists _, _, _, _, []; repeat split; simpl; by rewrite ?app_nil_r].
  destruct (Agent.load_manifest w app_id) as [e|manifest];
    [eexists _, _, _, _, []; repeat split; simpl; by rewrite ?app_nil_r|].
  destruct (Agent.validate_inputs manifest inputs) as [e|[[|] error]];
    [eexists _, _, _, _, []; repeat split; simpl; by rewrite ?app_nil_r| |
     eexists _, _, _, _, []; repeat split; simpl; by rewrite ?app_nil_r].
  destruct (Agent.prepare_environment w inputs manifest) as [e|env];
    [eexists _, _, _, _, []; repeat split; simpl; by rewrite ?app_nil_r|].
  cbv zeta.
  destruct (execute_script_history (Json.py_str app_id)
              (Agent.get_install_script manifest) env
              (Agent.get_timeout manifest) job_id
              (Spec.tick st1) (Spec.tick st2))
    as (outcome & events & s1 & s2 & H1 & H2 & _ & _ & T1 & T2).
  change (Agent.job_id (Spec.fresh_result w job_id st1)) with job_id.
  change (Agent.job_id (Spec.fresh_result w job_id st2)) with job_id.
  rewrite H1, H2.
  destruct outcome as [e|[code out]];
    eexists _, _, _, _, events; (split; [reflexivity|]);
    (split; [reflexivity|]); (split; [exact T1|]); (split; [exact T2|]);
    simpl; repeat split.
  all: unfold Agent.record_outcome, Agent.set_outcome, Agent.set_error;
    by destruct (negb (code =? 0)).
Qed.

End History.

Lemma execute_job_keeps_no_history_witness :
  exists r1 st1' r2 st2' events,
    Agent.execute_job Fixtures.slow_host Fixtures.ssl_job Agent.initial
      = (inr r1, st1') /\
    Agent.execute_job Fixtures.slow_host Fixtures.ssl_job
      {| Agent.ticks := 7;
         Agent.trace := [Agent.Sleep 5];
         Agent.current_process := None |} = (inr r2, st2') /\
    Agent.trace st1' = events /\
    Agent.trace st2' = Agent.Sleep 5 :: events /\
    Agent.status r1 = Agent.status r2.
Proof.
  destruct (execute_job_keeps_no_history Fixtures.slow_host Fixtures.ssl_job
              (Json.JS "job-1") (Json.JS "nginx")
              (Json.JD [("enable_ssl", "true"); ("ssl_port", "443")])
              Agent.initial
              {| Agent.ticks := 7; Agent.trace := [Agent.Sleep 5];
                 Agent.current_process := None |} ssl_job_has_keys)
    as (r1 & st1' & r2 & st2' & events & H1 & H2 & T1 & T2 & _ & Hs & _).
  exists r1, st1', r2, st2', events. auto.
Defined.

(** ** From an accepted request to the launch *)

(** X23. A request that the control plane accepts is launched by the agent.
    The conditions: no declared field is hidden and no supplied value of
    a declared field is empty; the agent holds the secret of the control
    plane; on its host the manifest of the application is the one the
    control plane validated against, the install script is there and
    can be made executable, and the log of the job opens and [Popen]
    starts a process.  Then [execute_job] on the job that [create_job]
    built accepts signature, whitelist and inputs, makes the script
    executable, starts it with the environment made from the inputs and
    waits for it.  An installer that ends in time and whose log reads
    back gives its return code and its log as the result; one that runs
    past the timeout gives exit code 124 and status failed. *)
Theorem accepted_request_is_launched (w : Agent.World)
    (SECRET_KEY job_id created_at app_id : string)
    (inputs : Dict.dict string) (server_id user_id : string)
    (manifest : Manifest) (env : gmap string string) (p : Agent.Process)
    (st : Agent.State) :
  let job :=
    Panel.create_job SECRET_KEY job_id created_at app_id inputs server_id
      user_id in
  let script_path :=
    Agent.path [Agent.INSTALLERS_PATH; app_id;
                Agent.get_install_script manifest] in
  let timeout := Agent.get_timeout manifest in
  fst (Panel.validate_inputs manifest inputs) = true ->
  (forall field, In field (get_inputs manifest) ->
     Panel.skipped field inputs = false /\
     Dict.get inputs (name field) <> Some "") ->
  Agent.SECRET_KEY w = SECRET_KEY ->
  Agent.exists_ w (Agent.path [Agent.INSTALLERS_PATH; app_id; "manifest.yml"])
    = true ->
  Agent.safe_load w
    (Agent.path [Agent.INSTALLERS_PATH; app_id; "manifest.yml"])
    = inr manifest ->
  Agent.exists_ w script_path = true ->
  Agent.chmod w script_path = None ->
  Agent.prepare_environment w (Json.JD inputs) manifest = inr env ->
  Agent.popen w script_path env = inr p ->
  exists result st',
    Spec.checks_passed w job (Json.JS app_id) (Json.JD inputs) manifest env /\
    Agent.execute_job w job st = (inr result, st') /\
    Agent.job_id result = Json.JS job_id /\
    (exists events,
       Agent.trace st' = Agent.trace st ++
         [Agent.Chmod script_path; Agent.Popen script_path env;
          Agent.Wait timeout] ++ events) /\
    (Agent.run_seconds p <= timeout ->
     forall output, Agent.read_log p = inr output ->
       Agent.exit_code result = Agent.returncode p /\
       Agent.output result = output /\
       (Agent.status result = "success" <-> Agent.returncode p = 0)) /\
    (timeout < Agent.run_seconds p ->
     Agent.exit_code result = 124 /\ Agent.status result = "failed").
Proof.
  cbv zeta. intros Hv Hfields Hkey Hwl Hload Hex Hch Henv Hp.
  set (job := Panel.create_job _ _ _ _ _ _ _).
  destruct (create_job_keys SECRET_KEY job_id created_at app_id inputs
              server_id user_id) as (Hk & _).
  fold job in Hk.
  assert (Hagent : Agent.validate_inputs manifest (Json.JD inputs)
                   = inr (true, None)).
  { unfold Agent.validate_inputs. apply agent_loop_no_error. intros item Hin.
    apply (panel_fields_pass_agent (get_inputs manifest)); try assumption.
    unfold Panel.validate_inputs in Hv. simpl in Hv.
    destruct (Panel.validate_loop _ _ _); [reflexivity|discriminate]. }
  assert (Hpass : Spec.checks_passed w job (Json.JS app_id) (Json.JD inputs)
                    manifest env).
  { unfold Spec.checks_passed. split; [|split; [|split; [|split]]].
    - unfold job, Panel.create_job. rewrite validate_signed, <- Hkey.
      by rewrite String.eqb_refl.
    - unfold Agent.validate_installer, Agent.manifest_path. by rewrite Hwl.
    - unfold Agent.load_manifest, Agent.manifest_path. exact Hload.
    - eauto.
    - exact Henv. }
  pose proof (execute_script_cases w app_id
                (Agent.get_install_script manifest) env
                (Agent.get_timeout manifest) (Json.JS job_id)
                (Spec.tick st)) as Hcases.
  cbv zeta in Hcases.
  rewrite (execute_job_eq w _ _ _ _ _ Hk).
  rewrite (try_body_passed w _ _ _ _ _ _ _ Hpass).
  change (Json.py_str (Json.JS app_id)) with app_id.
  change (Agent.job_id (Spec.fresh_result w (Json.JS job_id) st))
    with (Json.JS job_id).
  destruct Hcases as [[Hex' _] | [_ [(e & Hch' & _) | [_
    [(e & Hp' & _) | (p' & Hp' & [[Hlt ->] | [Hle
      [(out & Hlog & ->) | (e & Hlog & ->)]]])]]]]];
    try congruence;
    assert (p' = p) as -> by congruence;
    eexists _, _; (split; [exact Hpass|]); (split; [reflexivity|]).
  - split; [reflexivity|]. split; [eexists; simpl; reflexivity|].
    split; [intros; lia|]. intros _. by split.
  - unfold Agent.record_outcome, Agent.set_outcome, Agent.set_error.
    destruct (Agent.returncode p =? 0) eqn:E; simpl;
      (split; [reflexivity|]);
      (split; [by eexists []|]);
      (split; [|intros; lia]);
      intros _ output Hout; assert (out = output) as -> by congruence;
      (split; [reflexivity|]); (split; [reflexivity|]);
      split; intros; try discriminate; try reflexivity; lia.
  - split; [reflexivity|]. split; [by eexists []|].
    split; [|intros; lia]. intros _ output Hout. congruence.
Qed.

Lemma accepted_request_is_launched_witness :
  exists result st',
    Spec.checks_passed Fixtures.slow_host Fixtures.ssl_job (Json.JS "nginx")
      (Json.JD [("enable_ssl", "true"); ("ssl_port", "443")])
      Fixtures.ssl_manifest Fixtures.ssl_env /\
    Agent.execute_job Fixtures.slow_host Fixtures.ssl_job Agent.initial
      = (inr result, st') /\
    Agent.exit_code result = 124 /\ Agent.status result = "failed".
Proof.
  destruct (accepted_request_is_launched Fixtures.slow_host
              "change-me-in-production" "job-1" "2024-01-01T00:00:00" "nginx"
              [("enable_ssl", "true"); ("ssl_port", "443")] "agent-001"
              "admin" Fixtures.ssl_manifest Fixtures.ssl_env
              {| Agent.run_seconds := 4000; Agent.returncode := 0;
                 Agent.read_log := inr "" |} Agent.initial)
    as (result & st' & Hpass & Hrun & _ & _ & _ & Hlate).
  - vm_compute. reflexivity.
  - intros field [<-|[<-|[]]]; split; vm_compute; congruence.
  - reflexivity.
  - vm_compute. reflexivity.
  - reflexivity.
  - vm_compute. reflexivity.
  - reflexivity.
  - reflexivity.
  - reflexivity.
  - exists result, st'. split; [exact Hpass|]. split; [exact Hrun|].
    apply Hlate. reflexivity.
Defined.

(** ** The agent's view of the keyspace *)

(** A turn of the loop on the keyspace is [Agent.run_once] on the view
    of the agent. *)
Lemma turn_is_run_once (w : Agent.World) (AGENT_ID : string) (now later : Z)
    (st : Daemon.State) :
  match Daemon.turn w AGENT_ID now later st with
  | (None, st') =>
      Agent.run_once w (Keyspace.view AGENT_ID (Daemon.redis st))
        (Daemon.executor st)
        = (inr (Keyspace.view AGENT_ID (Daemon.redis st')),
           Daemon.executor st')
  | (Some e, st') =>
      Agent.run_once w (Keyspace.view AGENT_ID (Daemon.redis st))
        (Daemon.executor st) = (inl e, Daemon.executor st')
  end.
Proof.
  unfold Daemon.turn, Daemon.poll_jobs, Agent.run_once, Redis.blpop.
  cbn [Keyspace.view Agent.queue Agent.store Agent.published].
  assert (Hview : Keyspace.queue 0 (Daemon.redis st) AGENT_ID
            = match Redis.lookup now (Daemon.redis st)
                      (Control.queue_key AGENT_ID) with
              | Some (Redis.Lst items) => items
              | _ => []
              end).
  { by rewrite (queue_any_time 0 now). }
  rewrite Hview.
  destruct (Redis.lookup now (Daemon.redis st) (Control.queue_key AGENT_ID))
    as [[v t|[|job rest]]|] eqn:He;
    try (cbn [Daemon.redis Daemon.executor]; unfold Keyspace.view;
         rewrite Hview; reflexivity).
  clear Hview.
  assert (Hkey : Redis.keys (Daemon.redis st) !! Control.queue_key AGENT_ID
                 = Some (Redis.Lst (job :: rest))).
  { unfold Redis.lookup in He.
    destruct (Redis.keys (Daemon.redis st) !! _) as [e|]; [|discriminate].
    destruct (Redis.live now e); [congruence|discriminate]. }
  set (ks := match rest with
             | [] => delete (Control.queue_key AGENT_ID)
                       (Redis.keys (Daemon.redis st))
             | _ :: _ => <[Control.queue_key AGENT_ID := Redis.Lst rest]>
                           (Redis.keys (Daemon.redis st))
             end).
  assert (Hres : forall key r t,
            omap (fun e : Redis.entry Control.payload Json.Job =>
                    match e with
                    | Redis.Str (Control.PResult r) _ => Some r
                    | _ => None
                    end) (<[key := Redis.Str (Control.PResult r) t]> ks)
            = <[key := r]> (Keyspace.results (Daemon.redis st))).
  { intros key r t. rewrite omap_insert_Some with (y := r) by reflexivity.
    f_equal. unfold Keyspace.results, ks. apply map_eq. intros k.
    rewrite !lookup_omap.
    destruct (decide (k = Control.queue_key AGENT_ID)) as [->|Hne].
    - rewrite Hkey. destruct rest.
      + by rewrite lookup_delete_eq.
      + by rewrite lookup_insert_eq.
    - destruct rest.
      + by rewrite lookup_delete_ne by congruence.
      + by rewrite lookup_insert_ne by congruence. }
  assert (Hq : forall (ks' : gmap string _) pub,
            ks' !! Control.queue_key AGENT_ID = ks !! Control.queue_key AGENT_ID ->
            Keyspace.queue 0 {| Redis.keys := ks'; Redis.published := pub |}
              AGENT_ID = rest).
  { intros ks' pub Hk. unfold Keyspace.queue, Redis.lookup. simpl.
    rewrite Hk. unfold ks. destruct rest.
    - by rewrite lookup_delete_eq.
    - by rewrite lookup_insert_eq. }
  destruct (Dict.get job "job_id") as [job_id|] eqn:Hid.
  - destruct (Agent.execute_job w job (Daemon.executor st))
      as [[e|result] ex] eqn:Hrun; [reflexivity|].
    cbn [Daemon.redis Daemon.executor]. f_equal. f_equal.
    unfold Keyspace.view, Agent.publish_result, Daemon.publish_result,
      Redis.publish, Redis.setex, Redis.with_keys.
    cbn [Redis.keys Redis.published Agent.queue Agent.store Agent.published].
    f_equal.
    + symmetry. apply Hq. rewrite lookup_insert_ne by discriminate. reflexivity.
    + symmetry. unfold Keyspace.results in *. cbn [Redis.keys]. apply Hres.
    + unfold Keyspace.messages. cbn [Redis.published].
      by rewrite omap_app.
  - unfold Agent.execute_job, Agent.bind, Agent.lift, Agent.job_getitem.
    rewrite Hid. reflexivity.
Qed.
